(** * Simako Node.js backend: the route handlers of [src/nodejs/server.js]

    The development embeds the eight route handlers of the Express
    application together with the parts of Joi, Mongoose and the JavaScript
    runtime that they call, and the connection test of
    [src/unnamed/part_001].  A handler is a computation in a state-and-
    exception monad over a [World]: the two MongoDB collections, the
    connection state of Mongoose, the ObjectId generator and the wall clock.

    Scope of the model.
    - Requests are handled one at a time: every handler runs to completion
      on the world it is given (no interleaving at [await]).
    - The middleware in front of the routes (helmet, cors, morgan, the body
      parsers, the rate limiter) and the error-handling middleware behind
      them are not modelled: the properties are about what a handler does
      with a request that reaches it.  A request body is the JSON object
      produced by [express.json()]; a query is the object produced by the
      query parser, whose values are strings, arrays and objects.
    - JSON numbers are integers; instants are milliseconds since the epoch;
      a string is the sequence of the bytes of its UTF-8 encoding.
    - A collection operation issued while the connection is not ready
      rejects; no other failure of the store is modelled.
    - [Date.parse], [JSON.parse] and the string-to-ObjectId cast belong to
      the runtime and to the installed bson version; what Mongoose and the
      store make of a filter value that is neither a string nor an array of
      strings, and of a skip or a limit that is not a natural number below
      2^31, depends on their versions.  These five are parameters of the
      development (section [Server]).

    The file has three parts: the program, the vocabulary of its properties,
    and the proofs. *)

From Stdlib Require Import ZArith NArith List String Ascii Bool Lia.
From Stdlib Require Import Sorting.Sorted Sorting.Permutation.
Import ListNotations.

Local Open Scope string_scope.
Local Open Scope Z_scope.

(** ** JavaScript values *)

Definition ObjectId := N.

#[warnings="-register-all"]
Inductive JsVal : Type :=
| VUndefined
| VNull
| VBool (b : bool)
| VNum (n : Z)
| VStr (s : string)
| VDate (t : Z)
| VObjectId (o : ObjectId)
| VArr (items : list JsVal)
| VObj (fields : list (string * JsVal)).

Definition Fields := list (string * JsVal).

(** [!!v] of JavaScript: the falsy values are [undefined], [null], [false],
    [0] and the empty string. *)
Definition truthy (v : JsVal) : bool :=
  match v with
  | VUndefined | VNull => false
  | VBool b => b
  | VNum n => negb (n =? 0)
  | VStr s => negb (s =? "")%string
  | VDate _ | VObjectId _ | VArr _ | VObj _ => true
  end.

Fixpoint lookup {A : Type} (k : string) (l : list (string * A)) : option A :=
  match l with
  | [] => None
  | (k', v) :: rest => if (k' =? k)%string then Some v else lookup k rest
  end.

(** Property read [o.k]: [undefined] when the key is absent. *)
Definition prop (o : Fields) (k : string) : JsVal :=
  match lookup k o with
  | Some v => v
  | None => VUndefined
  end.

(** Assignment [o.k = v]: replaces the value in place, or appends the key. *)
Fixpoint assign (k : string) (v : JsVal) (o : Fields) : Fields :=
  match o with
  | [] => [(k, v)]
  | (k', v') :: rest =>
      if (k' =? k)%string then (k, v) :: rest else (k', v') :: assign k v rest
  end.

Definition keys {A : Type} (o : list (string * A)) : list string :=
  map fst o.

Definition mem (k : string) (l : list string) : bool :=
  existsb (fun k' => (k' =? k)%string) l.

(** The keys that Mongoose never copies. *)
Definition specialProperties : list string :=
  ["__proto__"; "constructor"; "prototype"].

(** Mongoose's [clone] of a plain value under the option [minimize], which
    the schemas leave at its default, [true]: a key whose value is
    [undefined] once cloned is dropped, and an object left without keys is
    itself [undefined], unless it is an element of an array. *)
Fixpoint clone (isArrayChild : bool) (v : JsVal) : JsVal :=
  match v with
  | VObj fields =>
      let ret :=
        (fix cloneObject (l : list (string * JsVal)) : Fields :=
           match l with
           | [] => []
           | kv :: rest =>
               if mem (fst kv) specialProperties then cloneObject rest
               else
                 match clone false (snd kv) with
                 | VUndefined => cloneObject rest
                 | val => (fst kv, val) :: cloneObject rest
                 end
           end) fields in
      if isArrayChild then VObj ret
      else
        match ret with
        | [] => VUndefined
        | _ :: _ => VObj ret
        end
  | VArr items =>
      VArr ((fix cloneArray (l : list JsVal) : list JsVal :=
               match l with
               | [] => []
               | x :: rest => clone true x :: cloneArray rest
               end) items)
  | _ => v
  end.

(** ** Numbers in strings

    A string is the sequence of the bytes of its UTF-8 encoding. *)

Definition digit_of (radix : Z) (c : ascii) : option Z :=
  let n := Z.of_nat (nat_of_ascii c) in
  let d :=
    if (48 <=? n) && (n <=? 57) then n - 48
    else if (97 <=? n) && (n <=? 122) then n - 87
    else if (65 <=? n) && (n <=? 90) then n - 55
    else 99 in
  if d <? radix then Some d else None.

(** The longest prefix of digits in the given radix; [None] when the prefix
    is empty. *)
Fixpoint digits_prefix (radix : Z) (s : string) (acc : option Z) : option Z :=
  match s with
  | EmptyString => acc
  | String c rest =>
      match digit_of radix c with
      | Some d =>
          digits_prefix radix rest
            (Some (match acc with Some a => a * radix + d | None => d end))
      | None => acc
      end
  end.

(** White space as [parseInt] and the [\s] of a regular expression skip it:
    the WhiteSpace and LineTerminator code points of ECMAScript.  Those of
    one byte are TAB, LF, VT, FF, CR and SP. *)
Definition is_white (c : ascii) : bool :=
  let n := nat_of_ascii c in
  (Nat.eqb n 32 || Nat.eqb n 9 || Nat.eqb n 10 || Nat.eqb n 11
   || Nat.eqb n 12 || Nat.eqb n 13)%bool.

(** U+00A0, the only one of two bytes (C2 A0). *)
Definition is_white2 (c1 c2 : ascii) : bool :=
  (Nat.eqb (nat_of_ascii c1) 194 && Nat.eqb (nat_of_ascii c2) 160)%bool.

(** Those of three bytes: U+1680 (E1 9A 80), U+2000 to U+200A, U+2028,
    U+2029 and U+202F (E2 80 80 to 8A, A8, A9, AF), U+205F (E2 81 9F),
    U+3000 (E3 80 80) and U+FEFF (EF BB BF). *)
Definition is_white3 (c1 c2 c3 : ascii) : bool :=
  let n1 := nat_of_ascii c1 in
  let n2 := nat_of_ascii c2 in
  let n3 := nat_of_ascii c3 in
  ((Nat.eqb n1 225 && Nat.eqb n2 154 && Nat.eqb n3 128)
   || (Nat.eqb n1 226 && Nat.eqb n2 128
       && ((Nat.leb 128 n3 && Nat.leb n3 138)
           || Nat.eqb n3 168 || Nat.eqb n3 169 || Nat.eqb n3 175))
   || (Nat.eqb n1 226 && Nat.eqb n2 129 && Nat.eqb n3 159)
   || (Nat.eqb n1 227 && Nat.eqb n2 128 && Nat.eqb n3 128)
   || (Nat.eqb n1 239 && Nat.eqb n2 187 && Nat.eqb n3 191))%bool.

Fixpoint skip_white (s : string) : string :=
  match s with
  | String c1 r1 =>
      if is_white c1 then skip_white r1
      else
        match r1 with
        | String c2 r2 =>
            if is_white2 c1 c2 then skip_white r2
            else
              match r2 with
              | String c3 r3 =>
                  if is_white3 c1 c2 c3 then skip_white r3 else s
              | EmptyString => s
              end
        | EmptyString => s
        end
  | EmptyString => s
  end.

(** The Numbers that [parseInt] returns: [NaN], an integer that a double
    holds, or an infinity.  (The zero with a sign, [-0], is read as 0.) *)
Inductive Number : Type :=
| NaN
| Finite (n : Z)
| Infinity (negative : bool).

(** The Number nearest to the natural number [m]: [m] itself below 2^53,
    beyond that [m] rounded to 53 significant bits, a tie going to the even
    neighbour, and [Infinity] from 2^1024 on. *)
Definition Number_of_nat (m : Z) : Number :=
  let e := Z.log2 m - 52 in
  if e <=? 0 then Finite m
  else
    let q := Z.shiftr m e in
    let r := m - Z.shiftl q e in
    let half := Z.shiftl 1 (e - 1) in
    let q' := if ((half <? r) || ((r =? half) && Z.odd q))%bool
              then q + 1 else q in
    let v := Z.shiftl q' e in
    if v <? 2 ^ 1024 then Finite v else Infinity false.

(** [parseInt(s)] with no radix argument. *)
Definition parseInt_string (s : string) : Number :=
  let s1 := skip_white s in
  let '(neg, s2) :=
    match s1 with
    | String "-" r => (true, r)
    | String "+" r => (false, r)
    | _ => (false, s1)
    end in
  let magnitude :=
    match s2 with
    | String "0" (String "x" r) | String "0" (String "X" r) =>
        digits_prefix 16 r None
    | _ => digits_prefix 10 s2 None
    end in
  match magnitude with
  | Some m =>
      match Number_of_nat m with
      | Finite v => Finite (if neg then - v else v)
      | Infinity _ => Infinity neg
      | NaN => NaN
      end
  | None => NaN
  end.

(** ** Query strings

    [req.query] as the query parser of Express builds it: a key holds a
    string, an array (the key is repeated, or written [k[]=...]) or, with
    the extended parser, an object ([k[a]=...]). *)

#[warnings="-register-all"]
Inductive QVal : Type :=
| QStr (s : string)
| QArr (items : list QVal)
| QObj (fields : list (string * QVal)).

Definition Query := list (string * QVal).

(** [!!v]: of these values only the empty string is falsy. *)
Definition truthy_param (v : QVal) : bool :=
  match v with
  | QStr s => negb (s =? "")%string
  | QArr _ | QObj _ => true
  end.

(** [String(v)]: an array is the join of its elements with commas, an
    object is ["[object Object]"]. *)
Fixpoint toString (v : QVal) : string :=
  match v with
  | QStr s => s
  | QArr items =>
      (fix join (l : list QVal) : string :=
         match l with
         | [] => ""
         | x :: rest =>
             match rest with
             | [] => toString x
             | _ :: _ => toString x ++ "," ++ join rest
             end
         end) items
  | QObj _ => "[object Object]"
  end.

(** The strings of an array that holds nothing but strings. *)
Fixpoint strings_of (items : list QVal) : option (list string) :=
  match items with
  | [] => Some []
  | QStr s :: rest =>
      match strings_of rest with
      | Some l => Some (s :: l)
      | None => None
      end
  | _ :: _ => None
  end.

(** What the destructuring [{ limit = 100 }] binds: the parameter of the
    query, or the default of the source when the query has none. *)
Inductive Param : Type :=
| Given (v : QVal)
| Default (n : Z).

(** [parseInt(p)].  The defaults of the source are 100 and 0: an integer
    below 10^21 prints in full and reads back as itself. *)
Definition parseInt (p : Param) : Number :=
  match p with
  | Given v => parseInt_string (toString v)
  | Default n => Finite n
  end.

Definition lower_ascii (c : ascii) : ascii :=
  let n := nat_of_ascii c in
  if (Nat.leb 65 n && Nat.leb n 90)%bool then ascii_of_nat (n + 32) else c.

Fixpoint toLowerCase (s : string) : string :=
  match s with
  | EmptyString => EmptyString
  | String c rest => String (lower_ascii c) (toLowerCase rest)
  end.

(** The test [/^[+-]?\d+$/] that Joi applies to a string before it reads it
    as a number of milliseconds. *)
Fixpoint all_digits (s : string) : bool :=
  match s with
  | EmptyString => true
  | String c rest =>
      match digit_of 10 c with
      | Some _ => all_digits rest
      | None => false
      end
  end.

Definition numeric_string (s : string) : option Z :=
  let '(neg, body) :=
    match s with
    | String "-" r => (true, r)
    | String "+" r => (false, r)
    | _ => (false, s)
    end in
  match body with
  | EmptyString => None
  | _ =>
      if all_digits body then
        match digits_prefix 10 body None with
        | Some m => Some (if neg then - m else m)
        | None => None
        end
      else None
  end.

(** ** Documents of the two collections

    One record per Mongoose schema ([messageSchema], [simCardSchema]): the
    document as Mongoose holds it, its defaults applied.  A path that the
    schema leaves optional and without default is an [option].  What is
    written to the store and what [res.json] sends is the document
    minimized: [toJSON] below. *)

Module Message.
Record t : Type := mk {
  _id : ObjectId;
  sim_id : string;
  type : string;
  from : string;
  to : option string;
  message : string;
  timestamp : Z;
  processed : bool;
  processed_at : option Z;
  metadata : JsVal;
  created_at : Z
}.

(** The update document [{ processed: true, processed_at: now }]. *)
Definition set_processed (now : Z) (m : t) : t :=
  mk (_id m) (sim_id m) (type m) (from m) (to m) (message m) (timestamp m)
     true (Some now) (metadata m) (created_at m).

Definition optional (k : string) (v : option JsVal) : Fields :=
  match v with
  | Some x => [(k, x)]
  | None => []
  end.

(** A path of type Mixed under [minimize]: no key when nothing is left of
    the value. *)
Definition minimized (k : string) (v : JsVal) : Fields :=
  match clone false v with
  | VUndefined => []
  | val => [(k, val)]
  end.

(** What [res.json] receives for a document; an unset path has no key, and
    neither has [metadata] when it is empty. *)
Definition toJSON (m : t) : JsVal :=
  VObj ([("_id", VObjectId (_id m));
         ("sim_id", VStr (sim_id m));
         ("type", VStr (type m));
         ("from", VStr (from m))]
        ++ optional "to" (option_map VStr (to m))
        ++ [("message", VStr (message m));
            ("timestamp", VDate (timestamp m));
            ("processed", VBool (processed m))]
        ++ optional "processed_at" (option_map VDate (processed_at m))
        ++ minimized "metadata" (metadata m)
        ++ [("created_at", VDate (created_at m));
            ("__v", VNum 0)]).

(** The string paths a query filter of the server can name. *)
Definition string_path (k : string) (m : t) : option string :=
  if (k =? "sim_id")%string then Some (sim_id m)
  else if (k =? "type")%string then Some (type m)
  else if (k =? "from")%string then Some (from m)
  else if (k =? "to")%string then to m
  else if (k =? "message")%string then Some (message m)
  else None.
End Message.

Module SimCard.
Record t : Type := mk {
  _id : ObjectId;
  sim_id : string;
  phone_number : string;
  carrier : option string;
  is_active : bool;
  created_at : Z;
  last_seen : Z
}.

Definition toJSON (s : t) : JsVal :=
  VObj ([("_id", VObjectId (_id s));
         ("sim_id", VStr (sim_id s));
         ("phone_number", VStr (phone_number s))]
        ++ Message.optional "carrier" (option_map VStr (carrier s))
        ++ [("is_active", VBool (is_active s));
            ("created_at", VDate (created_at s));
            ("last_seen", VDate (last_seen s));
            ("__v", VNum 0)]).
End SimCard.

(** ** The world a handler runs in *)

Record World : Type := mkWorld {
  messages : list Message.t;      (* collection [messages], insertion order *)
  sim_cards : list SimCard.t;     (* collection [sim_cards] *)
  readyState : Z;                 (* [mongoose.connection.readyState] *)
  next_oid : ObjectId;            (* the ObjectId generator *)
  clock : nat -> Z;               (* successive readings of the wall clock *)
  reads : nat;                    (* readings taken so far *)
  outbox : list JsVal             (* requests sent to SimakoHost *)
}.

Definition with_messages (l : list Message.t) (w : World) : World :=
  mkWorld l (sim_cards w) (readyState w) (next_oid w) (clock w) (reads w)
          (outbox w).

Definition with_sim_cards (l : list SimCard.t) (w : World) : World :=
  mkWorld (messages w) l (readyState w) (next_oid w) (clock w) (reads w)
          (outbox w).

Definition with_readyState (r : Z) (w : World) : World :=
  mkWorld (messages w) (sim_cards w) r (next_oid w) (clock w) (reads w)
          (outbox w).

Definition with_next_oid (o : ObjectId) (w : World) : World :=
  mkWorld (messages w) (sim_cards w) (readyState w) o (clock w) (reads w)
          (outbox w).

Definition with_reads (n : nat) (w : World) : World :=
  mkWorld (messages w) (sim_cards w) (readyState w) (next_oid w) (clock w) n
          (outbox w).

(** ** State and exceptions *)

Inductive Error : Type :=
| CastError (path : string)          (* Mongoose: a value does not cast *)
| ValidationError (path : string)    (* Mongoose: a document fails its schema *)
| MongoServerError (code : Z)        (* the server rejects a command *)
| MongooseError (msg : string).      (* no usable connection *)

Inductive Result (A : Type) : Type :=
| Ok (a : A)
| Throw (e : Error).

Arguments Ok {A} a.
Arguments Throw {A} e.

Definition M (A : Type) : Type := World -> Result A * World.

Definition ret {A : Type} (a : A) : M A := fun w => (Ok a, w).

Definition bind {A B : Type} (m : M A) (k : A -> M B) : M B :=
  fun w =>
    match m w with
    | (Ok a, w') => k a w'
    | (Throw e, w') => (Throw e, w')
    end.

Definition throw {A : Type} (e : Error) : M A := fun w => (Throw e, w).

(** [try { body } catch (error) { handler }]; what the body wrote before it
    threw stays written. *)
Definition try_catch {A : Type} (body : M A) (handler : Error -> M A) : M A :=
  fun w =>
    match body w with
    | (Ok a, w') => (Ok a, w')
    | (Throw e, w') => handler e w'
    end.

Declare Scope js_scope.
Delimit Scope js_scope with js.
Notation "x <- c1 ;; c2" := (bind c1 (fun x => c2))
  (at level 61, c1 at next level, right associativity) : js_scope.
Notation "c1 ;;; c2" := (bind c1 (fun _ => c2))
  (at level 61, right associativity) : js_scope.
Local Open Scope js_scope.

(** [Date.now()] and [new Date()]: the next reading of the clock. *)
Definition Date_now : M Z :=
  fun w => (Ok (clock w (reads w)), with_reads (S (reads w)) w).

(** [new ObjectId()].  The generator is a counter: of the real one (time,
    process and counter bytes) only the freshness of its values is used. *)
Definition new_ObjectId : M ObjectId :=
  fun w => (Ok (next_oid w), with_next_oid (N.succ (next_oid w)) w).

(** Every collection operation goes through the connection.  Mongoose buffers
    an operation issued while the connection is not ready; in this sequential
    model readiness cannot change during a request, so the buffered operation
    times out and its promise rejects. *)
Definition connection : M unit :=
  fun w =>
    if readyState w =? 1 then (Ok tt, w)
    else (Throw (MongooseError "Operation buffering timed out"), w).

(** ** HTTP responses *)

Record Response : Type := mkResponse {
  status : Z;
  body : JsVal
}.

(** [res.status(code).json(obj)] and [res.json(obj)]. *)
Definition res_status_json (code : Z) (obj : Fields) : M Response :=
  ret (mkResponse code (VObj obj)).

Definition res_json (obj : Fields) : M Response := res_status_json 200 obj.

(** ** Joi

    The schema language as far as the server uses it: [Joi.string()],
    [Joi.date()], [Joi.object()], [Joi.boolean()], [.valid(...)],
    [.required()] and [Joi.object({...})], validated with the default
    options ([convert], [abortEarly], unknown keys refused). *)

Inductive JoiBase : Type := TString | TDate | TObject | TBoolean.

Record JoiSchema : Type := mkJoi {
  base : JoiBase;
  valid : list string;     (* the allowed values of [.valid(...)]; [] if none *)
  required : bool
}.

Definition Joi_string : JoiSchema := mkJoi TString [] false.
Definition Joi_date : JoiSchema := mkJoi TDate [] false.
Definition Joi_object : JoiSchema := mkJoi TObject [] false.
Definition Joi_boolean : JoiSchema := mkJoi TBoolean [] false.
Definition Joi_valid (vs : list string) (s : JoiSchema) : JoiSchema :=
  mkJoi (base s) vs (required s).
Definition Joi_required (s : JoiSchema) : JoiSchema :=
  mkJoi (base s) (valid s) true.

Definition label (k : string) : string :=
  String "034"%char (k ++ String "034"%char "").

Definition max_time : Z := 8640000000000000.

(** [new Date(n)] is a valid date within 10^8 days of the epoch. *)
Definition Date_of_number (n : Z) : option Z :=
  if (- max_time <=? n) && (n <=? max_time) then Some n else None.

Section Server.

(** The instant [new Date(s)] reads from a string. *)
Variable Date_parse : string -> option Z.
(** [JSON.parse], as Joi uses it to read an object out of a string. *)
Variable JSON_parse : string -> option JsVal.
(** The cast of a route parameter to an ObjectId ([new ObjectId(s)] of the
    installed bson); [None] when the constructor throws. *)
Variable ObjectId_cast : string -> option ObjectId.
(** Mongoose's cast, and MongoDB's reading, of a filter value on a String
    path when the value is neither a string nor an array of strings (an
    operator document such as [{ $ne: x }], an array with an element that
    is not a string): the condition on the value of the path that it stands
    for, [None] when the cast is refused. *)
Variable Filter_cast : QVal -> option (string -> bool).
(** What the driver and the server make of a skip and a limit that are not
    both natural numbers below 2^31 ([NaN], a negative number, a number
    beyond the 32-bit range): the records to pass over and the length of
    the page, if any, or [None] when the command is refused.  This depends
    on their versions. *)
Variable Cursor_page : Number -> Number -> option (nat * option nat).

(** Validation of one value that is present.  An allowed value passes before
    anything else; the base type then converts and checks. *)
Definition Joi_value (s : JoiSchema) (k : string) (v : JsVal)
  : string + JsVal :=
  match valid s with
  | _ :: _ =>
      match v with
      | VStr x =>
          if mem x (valid s) then inr v
          else inl (label k ++ " must be one of ["
                    ++ String.concat ", " (valid s) ++ "]")
      | _ => inl (label k ++ " must be one of ["
                  ++ String.concat ", " (valid s) ++ "]")
      end
  | [] =>
      match base s, v with
      | TString, VStr x =>
          if (x =? "")%string
          then inl (label k ++ " is not allowed to be empty")
          else inr v
      | TString, _ => inl (label k ++ " must be a string")
      | TDate, VDate t => inr (VDate t)
      | TDate, VNum n =>
          match Date_of_number n with
          | Some t => inr (VDate t)
          | None => inl (label k ++ " must be a valid date")
          end
      | TDate, VStr x =>
          let parsed :=
            match skip_white x with
            | EmptyString => None
            | _ =>
                match numeric_string x with
                | Some n => Date_of_number n
                | None => Date_parse x
                end
            end in
          match parsed with
          | Some t => inr (VDate t)
          | None => inl (label k ++ " must be a valid date")
          end
      | TDate, _ => inl (label k ++ " must be a valid date")
      | TObject, VObj o => inr (VObj o)
      | TObject, VStr x =>
          match skip_white x with
          | String "{" _ =>
              match JSON_parse x with
              | Some (VObj o) => inr (VObj o)
              | _ => inl (label k ++ " must be of type object")
              end
          | _ => inl (label k ++ " must be of type object")
          end
      | TObject, _ => inl (label k ++ " must be of type object")
      | TBoolean, VBool b => inr (VBool b)
      | TBoolean, VStr x =>
          if (toLowerCase x =? "true")%string then inr (VBool true)
          else if (toLowerCase x =? "false")%string then inr (VBool false)
          else inl (label k ++ " must be a boolean")
      | TBoolean, _ => inl (label k ++ " must be a boolean")
      end
  end.

(** The declared keys, in the order of the schema; the first error ends the
    validation. *)
Fixpoint Joi_keys (schema : list (string * JoiSchema)) (o : Fields)
  : string + Fields :=
  match schema with
  | [] => inr o
  | (k, s) :: rest =>
      match lookup k o with
      | None =>
          if required s then inl (label k ++ " is required")
          else Joi_keys rest o
      | Some v =>
          match Joi_value s k v with
          | inl e => inl e
          | inr v' => Joi_keys rest (assign k v' o)
          end
      end
  end.

(** [Joi.object(schema).validate(o)]: [inl] is [error.details[0].message],
    [inr] is [value]. *)
Definition Joi_validate (schema : list (string * JoiSchema)) (o : Fields)
  : string + Fields :=
  match Joi_keys schema o with
  | inl e => inl e
  | inr value =>
      match find (fun k => negb (mem k (keys schema))) (keys o) with
      | Some k => inl (label k ++ " is not allowed")
      | None => inr value
      end
  end.

Definition messageValidation : list (string * JoiSchema) :=
  [("sim_id", Joi_required Joi_string);
   ("type", Joi_required (Joi_valid ["sms"; "call"] Joi_string));
   ("from", Joi_required Joi_string);
   ("to", Joi_string);
   ("message", Joi_required Joi_string);
   ("timestamp", Joi_date);
   ("metadata", Joi_object)].

Definition simCardValidation : list (string * JoiSchema) :=
  [("sim_id", Joi_required Joi_string);
   ("phone_number", Joi_required Joi_string);
   ("carrier", Joi_string);
   ("is_active", Joi_boolean)].


(** ** Mongoose: the two models

    A document is built by [new Model(obj)]: the paths of the schema are read
    from [obj] and cast, the defaults fill what is left ([Date.now] reads the
    clock).  A path that does not cast or breaks a validator makes [save()]
    reject; the document constructor itself never throws.  Of the casts, only
    those of values that Joi lets through are modelled: any other value is a
    [CastError]. *)

Definition path_String (path : string) (is_required : bool) (v : JsVal)
  : Error + option string :=
  match v with
  | VUndefined | VNull =>
      if is_required then inl (ValidationError path) else inr None
  | VStr s =>
      if (is_required && (s =? "")%string)%bool
      then inl (ValidationError path) else inr (Some s)
  | _ => inl (CastError path)
  end.

Definition path_enum (path : string) (allowed : list string) (s : string)
  : Error + string :=
  if mem s allowed then inr s else inl (ValidationError path).

Definition or_else {A B : Type} (x : Error + A) (k : A -> Error + B)
  : Error + B :=
  match x with
  | inl e => inl e
  | inr a => k a
  end.

Definition demand (path : string) (x : option string) : Error + string :=
  match x with
  | Some s => inr s
  | None => inl (ValidationError path)
  end.

(** [messageSchema], path by path. *)
Definition Message_paths (obj : Fields) (id : ObjectId)
    (timestamp : Error + Z) (created_at : Z) : Error + Message.t :=
  or_else (path_String "sim_id" true (prop obj "sim_id")) (fun sim_id =>
  or_else (demand "sim_id" sim_id) (fun sim_id =>
  or_else (path_String "type" true (prop obj "type")) (fun type =>
  or_else (demand "type" type) (fun type =>
  or_else (path_enum "type" ["sms"; "call"] type) (fun type =>
  or_else (path_String "from" true (prop obj "from")) (fun from =>
  or_else (demand "from" from) (fun from =>
  or_else (path_String "to" false (prop obj "to")) (fun to =>
  or_else (path_String "message" true (prop obj "message")) (fun message =>
  or_else (demand "message" message) (fun message =>
  or_else timestamp (fun timestamp =>
  inr (Message.mk id sim_id type from to message timestamp
         false                                       (* processed *)
         None                                        (* processed_at *)
         (match prop obj "metadata" with
          | VUndefined => VObj []
          | v => v
          end)
         created_at)))))))))))).

(** [new Message(obj)]. *)
Definition new_Message (obj : Fields) : M (Error + Message.t) :=
  id <- new_ObjectId ;;
  timestamp <- match prop obj "timestamp" with
               | VUndefined => t <- Date_now ;; ret (inr t)
               | VDate t => ret (inr t)
               | _ => ret (inl (CastError "timestamp"))
               end ;;
  created_at <- Date_now ;;
  ret (Message_paths obj id timestamp created_at).

Definition has_id (id : ObjectId) (m : Message.t) : bool :=
  (Message._id m =? id)%N.

(** [message.save()] of a new document: validation, then an insert that the
    unique index on [_id] can refuse (E11000). *)
Definition Message_save (doc : Error + Message.t) : M Message.t :=
  match doc with
  | inl e => throw e
  | inr m =>
      connection ;;;
      (fun w =>
         if existsb (has_id (Message._id m)) (messages w)
         then (Throw (MongoServerError 11000), w)
         else (Ok m, with_messages (messages w ++ [m]) w))
  end.

(** The cast of one condition [{ path: v }] of a filter, for a String path:
    a string asks for equality, an array of strings for one of its
    elements ([$in]). *)
Definition cast_value (path : string) (v : QVal)
  : Error + (string -> bool) :=
  let other :=
    match Filter_cast v with
    | Some p => inr p
    | None => inl (CastError path)
    end in
  match v with
  | QStr s => inr (fun x => (x =? s)%string)
  | QArr items =>
      match strings_of items with
      | Some l => inr (fun x => mem x l)
      | None => other
      end
  | QObj _ => other
  end.

Fixpoint cast_filter (filter : list (string * QVal))
  : Error + list (string * (string -> bool)) :=
  match filter with
  | [] => inr []
  | (path, v) :: rest =>
      match cast_value path v with
      | inl e => inl e
      | inr p =>
          match cast_filter rest with
          | inl e => inl e
          | inr conds => inr ((path, p) :: conds)
          end
      end
  end.

(** A record matches a filter when it meets every condition. *)
Definition matches (conds : list (string * (string -> bool)))
    (m : Message.t) : bool :=
  forallb (fun c : string * (string -> bool) =>
             match Message.string_path (fst c) m with
             | Some x => snd c x
             | None => false
             end) conds.

(** [.sort({ timestamp: -1 })]. *)
Fixpoint insert_desc (m : Message.t) (l : list Message.t) : list Message.t :=
  match l with
  | [] => [m]
  | x :: rest =>
      if Message.timestamp x <=? Message.timestamp m then m :: l
      else x :: insert_desc m rest
  end.

Definition sort_desc (l : list Message.t) : list Message.t :=
  fold_right insert_desc [] l.

(** A skip or a limit that every driver and server read as it stands. *)
Definition regular (n : Z) : bool := ((0 <=? n) && (n <? 2147483648))%bool.

(** [.skip(s).limit(l)]: the number of records to pass over and the length
    of the page; a limit of 0 is no limit. *)
Definition page_of (skip limit : Number) : option (nat * option nat) :=
  match skip, limit with
  | Finite s, Finite l =>
      if (regular s && regular l)%bool
      then Some (Z.to_nat s, if l =? 0 then None else Some (Z.to_nat l))
      else Cursor_page skip limit
  | _, _ => Cursor_page skip limit
  end.

Definition window {A : Type} (skip limit : Number) (docs : list A)
  : Error + list A :=
  match page_of skip limit with
  | Some (s, l) =>
      let rest := skipn s docs in
      inr (match l with
           | Some n => firstn n rest
           | None => rest
           end)
  | None => inl (MongoServerError 2)
  end.

(** [Message.find(filter).sort({timestamp: -1}).skip(s).limit(l)]. *)
Definition Message_find (filter : list (string * QVal))
    (skip limit : Number) : M (list Message.t) :=
  connection ;;;
  (fun w =>
     match cast_filter filter with
     | inl e => (Throw e, w)
     | inr conds =>
         match window skip limit
                 (sort_desc (List.filter (matches conds) (messages w))) with
         | inl e => (Throw e, w)
         | inr page => (Ok page, w)
         end
     end).

(** [Message.countDocuments(filter)]. *)
Definition Message_countDocuments (filter : list (string * QVal)) : M Z :=
  connection ;;;
  (fun w =>
     match cast_filter filter with
     | inl e => (Throw e, w)
     | inr conds =>
         (Ok (Z.of_nat (List.length (List.filter (matches conds)
                                                 (messages w)))),
          w)
     end).

Fixpoint update_first (id : ObjectId) (f : Message.t -> Message.t)
    (l : list Message.t) : list Message.t :=
  match l with
  | [] => []
  | m :: rest =>
      if has_id id m then f m :: rest else m :: update_first id f rest
  end.

(** [Message.findByIdAndUpdate(id, { processed: true, processed_at },
    { new: true })]: the id is cast first; [None] is JavaScript's [null]. *)
Definition Message_findByIdAndUpdate (id : string) (processed_at : Z)
  : M (option Message.t) :=
  match ObjectId_cast id with
  | None => throw (CastError "_id")
  | Some oid =>
      connection ;;;
      (fun w =>
         match find (has_id oid) (messages w) with
         | None => (Ok None, w)
         | Some m =>
             (Ok (Some (Message.set_processed processed_at m)),
              with_messages
                (update_first oid (Message.set_processed processed_at)
                              (messages w)) w)
         end)
  end.

(** [simCardSchema], path by path. *)
Definition SimCard_paths (obj : Fields) (id : ObjectId)
    (created_at last_seen : Z) : Error + SimCard.t :=
  or_else (path_String "sim_id" true (prop obj "sim_id")) (fun sim_id =>
  or_else (demand "sim_id" sim_id) (fun sim_id =>
  or_else (path_String "phone_number" true (prop obj "phone_number"))
          (fun phone_number =>
  or_else (demand "phone_number" phone_number) (fun phone_number =>
  or_else (path_String "carrier" false (prop obj "carrier")) (fun carrier =>
  or_else (match prop obj "is_active" with
           | VUndefined => inr true
           | VBool b => inr b
           | _ => inl (CastError "is_active")
           end) (fun is_active =>
  inr (SimCard.mk id sim_id phone_number carrier is_active
                  created_at last_seen))))))).

(** [new SimCard(value)]. *)
Definition new_SimCard (obj : Fields) : M (Error + SimCard.t) :=
  id <- new_ObjectId ;;
  created_at <- Date_now ;;
  last_seen <- Date_now ;;
  ret (SimCard_paths obj id created_at last_seen).

Definition has_sim_id (s : string) (c : SimCard.t) : bool :=
  (SimCard.sim_id c =? s)%string.

(** [SimCard.findOne({ sim_id })]. *)
Definition SimCard_findOne (sim_id : string) : M (option SimCard.t) :=
  connection ;;;
  (fun w => (Ok (find (has_sim_id sim_id) (sim_cards w)), w)).

(** [SimCard.find()]. *)
Definition SimCard_find : M (list SimCard.t) :=
  connection ;;; (fun w => (Ok (sim_cards w), w)).

(** [simCard.save()]: the unique indexes on [_id] and on [sim_id] refuse a
    duplicate (E11000). *)
Definition SimCard_save (doc : Error + SimCard.t) : M SimCard.t :=
  match doc with
  | inl e => throw e
  | inr c =>
      connection ;;;
      (fun w =>
         if (existsb (fun x => (SimCard._id x =? SimCard._id c)%N)
                     (sim_cards w)
             || existsb (has_sim_id (SimCard.sim_id c)) (sim_cards w))%bool
         then (Throw (MongoServerError 11000), w)
         else (Ok c, with_sim_cards (sim_cards w ++ [c]) w))
  end.

(** ** The route handlers *)

Definition internal_server_error (error : Error) : M Response :=
  res_status_json 500 [("error", VStr "Internal server error")].

(** [app.get('/health')] *)
Definition get_health : M Response :=
  now <- Date_now ;;
  (fun w =>
     res_json
       [("status", VStr "ok");
        ("service", VStr "Simako Node.js Backend");
        ("mongodb", VStr (if readyState w =? 1 then "connected"
                          else "disconnected"));
        (* [toISOString()]: the text [res.json] writes for a Date *)
        ("timestamp", VDate now)] w).

(** [app.post('/api/messages')] *)
Definition post_api_messages (req_body : Fields) : M Response :=
  try_catch
    (match Joi_validate messageValidation req_body with
     | inl error => res_status_json 400 [("error", VStr error)]
     | inr value =>
         timestamp <- (if truthy (prop value "timestamp")
                       then ret (prop value "timestamp")
                       else now <- Date_now ;; ret (VDate now)) ;;
         message <- new_Message (assign "timestamp" timestamp value) ;;
         savedMessage <- Message_save message ;;
         res_status_json 201
           [("status", VStr "ok");
            ("message_id", VObjectId (Message._id savedMessage));
            ("received", Message.toJSON savedMessage)]
     end)
    internal_server_error.

(** [if (p) query.path = p]: the condition a truthy parameter adds to the
    filter. *)
Definition condition (path : string) (p : option QVal)
  : list (string * QVal) :=
  match p with
  | Some v => if truthy_param v then [(path, v)] else []
  | None => []
  end.

Definition param_or (default : Z) (p : option QVal) : Param :=
  match p with
  | Some v => Given v
  | None => Default default
  end.

(** [app.get('/api/messages')] *)
Definition get_api_messages (req_query : Query) : M Response :=
  try_catch
    (let sim_id := lookup "sim_id" req_query in
     let type := lookup "type" req_query in
     let limit := param_or 100 (lookup "limit" req_query) in
     let skip := param_or 0 (lookup "skip" req_query) in
     let query := (condition "sim_id" sim_id ++ condition "type" type)%list in
     messages <- Message_find query (parseInt skip) (parseInt limit) ;;
     total <- Message_countDocuments query ;;
     res_json
       [("messages", VArr (map Message.toJSON messages));
        ("count", VNum (Z.of_nat (List.length messages)));
        ("total", VNum total)])
    internal_server_error.

(** [app.put('/api/messages/:messageId/processed')] *)
Definition put_api_messages_processed (messageId : string) : M Response :=
  try_catch
    (now <- Date_now ;;
     message <- Message_findByIdAndUpdate messageId now ;;
     match message with
     | None => res_status_json 404 [("error", VStr "Message not found")]
     | Some m =>
         res_json
           [("status", VStr "ok");
            ("message", VStr "Message marked as processed");
            ("data", Message.toJSON m)]
     end)
    internal_server_error.

(** [app.get('/api/sim-cards')] *)
Definition get_api_sim_cards : M Response :=
  try_catch
    (sim_Cards <- SimCard_find ;;
     res_json [("sim_cards", VArr (map SimCard.toJSON sim_Cards))])
    internal_server_error.

(** [app.post('/api/sim-cards')] *)
Definition post_api_sim_cards (req_body : Fields) : M Response :=
  try_catch
    (match Joi_validate simCardValidation req_body with
     | inl error => res_status_json 400 [("error", VStr error)]
     | inr value =>
         match prop value "sim_id" with
         | VStr sim_id =>
             existingSim <- SimCard_findOne sim_id ;;
             match existingSim with
             | Some _ =>
                 res_status_json 409
                   [("error", VStr "SIM card already registered")]
             | None =>
                 simCard <- new_SimCard value ;;
                 savedSimCard <- SimCard_save simCard ;;
                 res_status_json 201
                   [("status", VStr "ok");
                    ("sim_card", SimCard.toJSON savedSimCard)]
             end
         | _ => throw (CastError "sim_id")   (* no such value passes Joi *)
         end
     end)
    internal_server_error.

(** [app.get('/api/simakohost/status')] *)
Definition get_api_simakohost_status : M Response :=
  now <- Date_now ;;
  res_json
    [("status", VStr "ok");
     ("message", VStr "SimakoHost integration endpoint");
     ("timestamp", VDate now)].

(** [app.post('/api/simakohost/send-sms')].  The call to SimakoHost is a
    comment in the source: nothing is added to the outbox. *)
Definition post_api_simakohost_send_sms (req_body : Fields) : M Response :=
  try_catch
    (let sim_id := prop req_body "sim_id" in
     let to := prop req_body "to" in
     let message := prop req_body "message" in
     if (negb (truthy sim_id) || negb (truthy to) || negb (truthy message))%bool
     then
       res_status_json 400
         [("error", VStr "Missing required fields: sim_id, to, message")]
     else
       now <- Date_now ;;
       let smsRequest :=
         [("sim_id", sim_id);
          ("to", to);
          ("message", message);
          ("status", VStr "queued");
          ("created_at", VDate now)] in
       res_status_json 202
         [("status", VStr "ok");
          ("message", VStr "SMS queued for sending");
          ("request", VObj smsRequest)])
    internal_server_error.

(** The 404 handler at the end of the chain. *)
Definition endpoint_not_found : M Response :=
  res_status_json 404 [("error", VStr "Endpoint not found")].

(** ** The service as a transition system *)

Inductive Request : Type :=
| GET_health
| POST_api_messages (req_body : Fields)
| GET_api_messages (req_query : Query)
| PUT_api_messages_processed (messageId : string)
| GET_api_sim_cards
| POST_api_sim_cards (req_body : Fields)
| GET_api_simakohost_status
| POST_api_simakohost_send_sms (req_body : Fields)
| Unmatched.

Definition route (r : Request) : M Response :=
  match r with
  | GET_health => get_health
  | POST_api_messages b => post_api_messages b
  | GET_api_messages q => get_api_messages q
  | PUT_api_messages_processed id => put_api_messages_processed id
  | GET_api_sim_cards => get_api_sim_cards
  | POST_api_sim_cards b => post_api_sim_cards b
  | GET_api_simakohost_status => get_api_simakohost_status
  | POST_api_simakohost_send_sms b => post_api_simakohost_send_sms b
  | Unmatched => endpoint_not_found
  end.

(** What can happen to the world: a request is served, or the connection to
    MongoDB changes state. *)
Inductive Event : Type :=
| Serve (r : Request)
| Connection (state : Z).

Definition step (e : Event) (w : World) : World :=
  match e with
  | Serve r => snd (route r w)
  | Connection state => with_readyState state w
  end.

Definition run (trace : list Event) (w : World) : World :=
  fold_left (fun w e => step e w) trace w.

End Server.

(** ** Invariants of the store *)

Definition clock_monotone (w : World) : Prop :=
  forall i j, (i <= j)%nat -> clock w i <= clock w j.

(** The states the service can be in: the clock does not run backwards, the
    ids in the store were issued by the generator and are distinct, no
    record was created after the next clock reading, [processed_at] goes
    with [processed], and no two cards share a [sim_id]. *)
Record consistent (w : World) : Prop := mkConsistent {
  clock_mono : clock_monotone w;
  message_ids_fresh :
    forall m, In m (messages w) -> (Message._id m < next_oid w)%N;
  message_ids_unique : NoDup (map Message._id (messages w));
  card_ids_fresh :
    forall c, In c (sim_cards w) -> (SimCard._id c < next_oid w)%N;
  created_in_the_past :
    forall m, In m (messages w) ->
              Message.created_at m <= clock w (reads w);
  processed_at_iff_processed :
    forall m, In m (messages w) ->
              (Message.processed_at m <> None <-> Message.processed m = true);
  one_card_per_sim_id : NoDup (map SimCard.sim_id (sim_cards w))
}.

(** [processed_at] is set exactly when [processed] is true. *)
Definition flag_agrees (m : Message.t) : Prop :=
  Message.processed_at m <> None <-> Message.processed m = true.

Definition processed_inv (w : World) : Prop :=
  forall m, In m (messages w) -> flag_agrees m.

(** A document fresh from its constructor, seen from the world [w] in which
    it is about to be saved. *)
Definition fresh_doc (w : World) (m : Message.t) : Prop :=
  Message.processed m = false
  /\ Message.processed_at m = None
  /\ (Message._id m < next_oid w)%N
  /\ exists i, (i < reads w)%nat /\ Message.created_at m = clock w i.

(** The record [m] with a new [processed_at] and nothing else changed. *)
Definition restamp (t : Z) (m : Message.t) : Message.t :=
  Message.mk (Message._id m) (Message.sim_id m) (Message.type m)
    (Message.from m) (Message.to m) (Message.message m)
    (Message.timestamp m) (Message.processed m) (Some t)
    (Message.metadata m) (Message.created_at m).

(** The collection [l] in which the record with id [oid] has a new
    [processed_at] and nothing else has changed. *)
Definition restamped (oid : ObjectId) (t : Z) (l : list Message.t)
  : list Message.t :=
  map (fun x => if (Message._id x =? oid)%N then restamp t x else x) l.

(** The two requests that write to the collection of messages. *)
Definition writes_messages (r : Request) : bool :=
  match r with
  | POST_api_messages _ | PUT_api_messages_processed _ => true
  | _ => false
  end.

(** ** Hoare triples over the handler monad

    [triple P m Q E]: run from a world satisfying [P], the computation [m]
    either returns a value [a] in a world satisfying [Q a], or throws in a
    world satisfying [E]. *)

Definition triple {A : Type} (P : World -> Prop) (m : M A)
    (Q : A -> World -> Prop) (E : World -> Prop) : Prop :=
  forall w, P w ->
    match m w with
    | (Ok a, w') => Q a w'
    | (Throw _, w') => E w'
    end.

(** [keeps I m]: the computation [m] maintains [I], whether it returns or
    throws. *)
Definition keeps {A : Type} (I : World -> Prop) (m : M A) : Prop :=
  triple I m (fun _ => I) I.

(** An operation that only reads the store. *)
Definition reads_only {A : Type} (m : M A) : Prop :=
  forall w, snd (m w) = w.

(** ** Reading a response *)

(** [body.k] of a response. *)
Definition field (r : Response) (k : string) : JsVal :=
  match body r with
  | VObj o => prop o k
  | _ => VUndefined
  end.

(** The response of a handler that returned. *)
Definition answer (x : Result Response * World) : option Response :=
  match fst x with
  | Ok r => Some r
  | Throw _ => None
  end.

(** The page of messages that [GET /api/messages] answers with. *)
Definition messages_page (page : list Message.t) (total : nat) : Response :=
  mkResponse 200
    (VObj [("messages", VArr (map Message.toJSON page));
           ("count", VNum (Z.of_nat (List.length page)));
           ("total", VNum (Z.of_nat total))]).

(** ** Requests as the interface describes them

    These definitions follow the interface table of the specification, not
    the code: they say which payloads and queries a client is entitled to
    send, and which record a payload describes.  The theorems relate them to
    what Joi accepts and to what Mongoose stores. *)

(** A value that is a non-empty string. *)
Definition text_of (v : option JsVal) : option string :=
  match v with
  | Some (VStr s) => if (s =? "")%string then None else Some s
  | _ => None
  end.

Definition is_some {A : Type} (x : option A) : bool :=
  match x with
  | Some _ => true
  | None => false
  end.

Definition text (b : Fields) (k : string) : string :=
  match lookup k b with
  | Some (VStr s) => s
  | _ => ""
  end.

Section Payloads.

Variable Date_parse : string -> option Z.
Variable JSON_parse : string -> option JsVal.

(** The instant a payload value denotes: a number of milliseconds, or a
    string that reads as a date. *)
Definition instant (v : JsVal) : option Z :=
  match Joi_value Date_parse JSON_parse Joi_date "timestamp" v with
  | inr (VDate t) => Some t
  | _ => None
  end.

(** The payloads of [POST /api/messages]: [sim_id], [from] and [message]
    are non-empty strings, [type] is ["sms"] or ["call"], [to] if present
    is a non-empty string, [timestamp] if present denotes an instant,
    [metadata] if present is an object, and there is no other key. *)
Definition well_formed_message (b : Fields) : bool :=
  (is_some (text_of (lookup "sim_id" b))
   && match lookup "type" b with
      | Some (VStr ty) => mem ty ["sms"; "call"]
      | _ => false
      end
   && is_some (text_of (lookup "from" b))
   && match lookup "to" b with
      | None => true
      | v => is_some (text_of v)
      end
   && is_some (text_of (lookup "message" b))
   && match lookup "timestamp" b with
      | None => true
      | Some v => is_some (instant v)
      end
   && match lookup "metadata" b with
      | None | Some (VObj _) => true
      | _ => false
      end
   && forallb (fun k => mem k (keys messageValidation)) (keys b))%bool.

(** The value Joi hands back for a well-formed payload: the payload itself,
    with the timestamp converted to a Date. *)
Definition validated (b : Fields) : Fields :=
  match lookup "timestamp" b with
  | Some v =>
      match instant v with
      | Some t => assign "timestamp" (VDate t) b
      | None => b
      end
  | None => b
  end.

End Payloads.

(** The record that a well-formed payload describes, given the values the
    server supplies. *)
Definition described_message (b : Fields) (id : ObjectId)
    (timestamp created_at : Z) : Message.t :=
  Message.mk id (text b "sim_id") (text b "type") (text b "from")
    (match lookup "to" b with Some (VStr s) => Some s | _ => None end)
    (text b "message") timestamp false None
    (match lookup "metadata" b with Some v => v | None => VObj [] end)
    created_at.

(** The payloads of [POST /api/sim-cards]: [sim_id] and [phone_number] are
    non-empty strings, [carrier] if present is a non-empty string,
    [is_active] if present is a boolean, and there is no other key. *)
Definition well_formed_sim_card (b : Fields) : bool :=
  (is_some (text_of (lookup "sim_id" b))
   && is_some (text_of (lookup "phone_number" b))
   && match lookup "carrier" b with
      | None => true
      | v => is_some (text_of v)
      end
   && match lookup "is_active" b with
      | None | Some (VBool _) => true
      | _ => false
      end
   && forallb (fun k => mem k (keys simCardValidation)) (keys b))%bool.

(** The record that a well-formed payload describes. *)
Definition described_sim_card (b : Fields) (id : ObjectId)
    (created_at last_seen : Z) : SimCard.t :=
  SimCard.mk id (text b "sim_id") (text b "phone_number")
    (match lookup "carrier" b with Some (VStr s) => Some s | _ => None end)
    (match lookup "is_active" b with Some (VBool a) => a | _ => true end)
    created_at last_seen.

Section Queries.

Variable Filter_cast : QVal -> option (string -> bool).

(** What a filter parameter asks of the value of its path: nothing when it
    is absent or the empty string; to be that string when it is a string;
    to be one of them when it is an array of strings; what Mongoose and the
    store make of it when it is anything else, [None] if they make
    nothing of it. *)
Definition selects (p : option QVal) : option (string -> bool) :=
  match p with
  | None => Some (fun _ => true)
  | Some (QStr s) =>
      Some (fun x => if (s =? "")%string then true else (x =? s)%string)
  | Some (QArr items) =>
      match strings_of items with
      | Some l => Some (fun x => mem x l)
      | None => Filter_cast (QArr items)
      end
  | Some (QObj fields) => Filter_cast (QObj fields)
  end.

(** The records a query asks for: both parameters must select them. *)
Definition wanted (q : Query) : option (Message.t -> bool) :=
  match selects (lookup "sim_id" q), selects (lookup "type" q) with
  | Some f, Some g =>
      Some (fun m => (f (Message.sim_id m) && g (Message.type m))%bool)
  | _, _ => None
  end.

End Queries.

(** The page parameters: [limit] defaults to 100 and [skip] to 0. *)
Definition requested_limit (q : Query) : Number :=
  match lookup "limit" q with
  | Some v => parseInt_string (toString v)
  | None => Finite 100
  end.

Definition requested_skip (q : Query) : Number :=
  match lookup "skip" q with
  | Some v => parseInt_string (toString v)
  | None => Finite 0
  end.

(** Most recent first. *)
Definition newer_first (a b : Message.t) : Prop :=
  Message.timestamp b <= Message.timestamp a.

(** ** A concrete runtime and concrete requests, for running the handlers *)

Fixpoint hex_value (s : string) (acc : N) : option N :=
  match s with
  | EmptyString => Some acc
  | String c rest =>
      match digit_of 16 c with
      | Some d => hex_value rest (acc * 16 + Z.to_N d)%N
      | None => None
      end
  end.

(** The cast of bson 6: a string of 24 hexadecimal digits. *)
Definition hex24 (s : string) : option ObjectId :=
  if Nat.eqb (String.length s) 24 then hex_value s 0%N else None.

(** A parser that recognises no string. *)
Definition no_parse {A : Type} (s : string) : option A := None.

(** A Mongoose that casts no filter value beyond strings and arrays of
    strings, and a store that refuses every page it is free to refuse. *)
Definition no_cast (v : QVal) : option (string -> bool) := None.

Definition no_page (skip limit : Number) : option (nat * option nat) := None.

(** An empty, connected store; the clock advances by a millisecond at each
    reading. *)
Definition world0 : World :=
  mkWorld [] [] 1 0%N (fun i => 1700000000000 + Z.of_nat i) 0 [].

Definition hello_payload : Fields :=
  [("sim_id", VStr "SIM001"); ("type", VStr "sms");
   ("from", VStr "+1234567890"); ("message", VStr "hello")].

(** A call record, whose text is empty. *)
Definition call_payload : Fields :=
  [("sim_id", VStr "SIM001"); ("type", VStr "call");
   ("from", VStr "+1234567890"); ("message", VStr "")].

Definition no_type_payload : Fields :=
  [("sim_id", VStr "SIM001"); ("from", VStr "+1234567890");
   ("message", VStr "hello")].

Definition processed_payload : Fields :=
  [("sim_id", VStr "SIM001"); ("type", VStr "sms");
   ("from", VStr "+1234567890"); ("message", VStr "hello");
   ("processed", VBool true)].

Definition sim001_payload : Fields :=
  [("sim_id", VStr "SIM001"); ("phone_number", VStr "+1234567890")].

Definition sms_without_sim_id : Fields :=
  [("to", VStr "+1234567890"); ("message", VStr "hello")].

Definition sms_empty_sim_id : Fields :=
  [("sim_id", VStr ""); ("to", VStr "+1234567890");
   ("message", VStr "hello")].

Definition sms_payload : Fields :=
  [("sim_id", VStr "SIM001"); ("to", VStr "+1234567890");
   ("message", VStr "hello")].

Definition id0 : string := "000000000000000000000000".
Definition id1 : string := "000000000000000000000001".

(** The record that [hello_payload] becomes in [world0]. *)
Definition hello_message : Message.t :=
  Message.mk 0%N "SIM001" "sms" "+1234567890" None "hello"
    1700000000000 false None (VObj []) 1700000000001.

(** [world0] after the ingestion of [hello_payload], and after that record
    has been marked. *)
Definition world1 : World :=
  snd (post_api_messages no_parse no_parse hello_payload world0).

Definition world2 : World :=
  snd (put_api_messages_processed hex24 id0 world1).

(** ** Further vocabulary *)

(** What a value looks like once Joi has validated it against a schema:
    an allowed string, a non-empty string, a Date, an object or a
    boolean. *)
Definition conforms (s : JoiSchema) (v : JsVal) : bool :=
  match valid s with
  | _ :: _ =>
      match v with
      | VStr x => mem x (valid s)
      | _ => false
      end
  | [] =>
      match base s, v with
      | TString, VStr x => negb (x =? "")%string
      | TDate, VDate _ => true
      | TObject, VObj _ => true
      | TBoolean, VBool _ => true
      | _, _ => false
      end
  end.

Section Conversion.

Variable Date_parse : string -> option Z.
Variable JSON_parse : string -> option JsVal.

(** The value Joi hands back, key by key: an absent key stays absent, an
    undeclared key is not there (the validation would have failed), a
    declared key holds the conversion of what the payload held. *)
Definition converted (schema : list (string * JoiSchema)) (o : Fields)
    (k : string) : option JsVal :=
  match lookup k o with
  | None => None
  | Some v =>
      match lookup k schema with
      | Some s =>
          match Joi_value Date_parse JSON_parse s k v with
          | inr v' => Some v'
          | inl _ => None
          end
      | None => Some v
      end
  end.

End Conversion.

(** The record [m] once the record with id [oid] has been marked at time
    [t]: that record is stamped, every other is left alone. *)
Definition marked (oid : ObjectId) (t : Z) (m : Message.t) : Message.t :=
  if has_id oid m then Message.set_processed t m else m.

(** The record [m] as it was ingested, before any marking. *)
Definition unmarked (m : Message.t) : Message.t :=
  Message.mk (Message._id m) (Message.sim_id m) (Message.type m)
    (Message.from m) (Message.to m) (Message.message m)
    (Message.timestamp m) false None
    (Message.metadata m) (Message.created_at m).

(** What [messageSchema] demands of a record: the required strings are not
    empty and [type] is one of the enumerated values. *)
Definition schema_valid (m : Message.t) : bool :=
  (negb (Message.sim_id m =? "")%string
   && mem (Message.type m) ["sms"; "call"]
   && negb (Message.from m =? "")%string
   && negb (Message.message m =? "")%string)%bool.

Definition stored_valid (w : World) : Prop :=
  forall m, In m (messages w) -> schema_valid m = true.

(** No record was processed before it was created. *)
Definition chronological (w : World) : Prop :=
  forall m t, In m (messages w) -> Message.processed_at m = Some t ->
              Message.created_at m <= t.

(** The answer of a handler whose store operation failed. *)
Definition internal_error_response : Response :=
  mkResponse 500 (VObj [("error", VStr "Internal server error")]).

(** The record [m'] is the record [m], possibly marked since: nothing but
    [processed] and [processed_at] differs, and a record that was processed
    still is. *)
Definition flag_kept (m m' : Message.t) : Prop :=
  unmarked m' = unmarked m
  /\ (Message.processed m = true -> Message.processed m' = true).

(** The statuses with which each route answers. *)
Definition route_statuses (r : Request) : list Z :=
  match r with
  | GET_health => [200]
  | POST_api_messages _ => [201; 400; 500]
  | GET_api_messages _ => [200; 500]
  | PUT_api_messages_processed _ => [200; 404; 500]
  | GET_api_sim_cards => [200; 500]
  | POST_api_sim_cards _ => [201; 400; 409; 500]
  | GET_api_simakohost_status => [200]
  | POST_api_simakohost_send_sms _ => [202; 400]
  | Unmatched => [404]
  end.

(** A response with one of the statuses [allowed] that, if it reports a
    failure of the server, says nothing more. *)
Definition acceptable (allowed : list Z) (r : Response) : Prop :=
  In (status r) allowed
  /\ (status r = 500 -> r = internal_error_response).

(** Whatever the computation returns satisfies [P]. *)
Definition returns_only (P : Response -> Prop) (m : M Response) : Prop :=
  forall w,
    match fst (m w) with
    | Ok r => P r
    | Throw _ => True
    end.

(** ** The connection test

    [testConnection] tries four connection strings in turn.  The driver is
    a parameter: a state and, for each call, whether its promise resolves
    and the state it leaves. *)

Inductive Call : Type :=
| Call_connect (uri : string)
| Call_listCollections
| Call_disconnect.

Section ConnectionTest.

Variable Driver : Type.
Variable connect : string -> Driver -> bool * Driver.
Variable listCollections : Driver -> bool * Driver.
Variable disconnect : Driver -> bool * Driver.

(** The candidates; [env] is [process.env.MONGO_URI]. *)
Definition connectionStrings (env : option string) : list string :=
  [match env with
   | Some uri => if truthy (VStr uri) then uri
                 else "mongodb://localhost:27017/simako_db"
   | None => "mongodb://localhost:27017/simako_db"
   end;
   "mongodb://127.0.0.1:27017/simako_db";
   "mongodb://localhost:27017/simako_db?authSource=admin";
   "mongodb://localhost:27017/simako_db?directConnection=true"].

(** The [catch] block: the disconnection is silent. *)
Definition after_failure (d : Driver) : Driver := snd (disconnect d).

(** The loop over the candidates: the URI it recommends, if any, the state
    of the driver and the calls made to it, in order. *)
Fixpoint test_loop (uris : list string) (d : Driver)
  : option string * Driver * list Call :=
  match uris with
  | [] => (None, d, [])
  | uri :: rest =>
      let later (made : list Call) (d' : Driver) :=
        let '(found, d'', calls) := test_loop rest (after_failure d') in
        (found, d'', (made ++ Call_disconnect :: calls)%list) in
      let (connected, d1) := connect uri d in
      if connected then
        let (listed, d2) := listCollections d1 in
        if listed then
          let (closed, d3) := disconnect d2 in
          if closed then
            (Some uri, d3,
             [Call_connect uri; Call_listCollections; Call_disconnect])
          else
            later [Call_connect uri; Call_listCollections; Call_disconnect]
                  d3
        else later [Call_connect uri; Call_listCollections] d2
      else later [Call_connect uri] d1
  end.

Definition testConnection (env : option string) (d : Driver)
  : option string * Driver * list Call :=
  test_loop (connectionStrings env) d.

End ConnectionTest.

(** The connection strings tried, read off the calls. *)
Fixpoint connections (calls : list Call) : list string :=
  match calls with
  | [] => []
  | Call_connect uri :: rest => uri :: connections rest
  | _ :: rest => connections rest
  end.

(** What the loop over the candidates [uris] comes to: it has connected to
    the first [n] of them; if it recommends a URI, that is the [n]-th and
    the calls end with its successful test; if it recommends none, every
    candidate was tried; and the last call, if any, is a disconnection. *)
Definition loop_outcome {Driver : Type} (uris : list string)
    (x : option string * Driver * list Call) : Prop :=
  let '(found, _, calls) := x in
  exists n,
    (n <= List.length uris)%nat
    /\ connections calls = firstn n uris
    /\ (found = None -> n = List.length uris)
    /\ (forall uri, found = Some uri ->
          nth_error uris (pred n) = Some uri /\ (1 <= n)%nat
          /\ exists before,
               calls = (before ++ [Call_connect uri; Call_listCollections;
                                   Call_disconnect])%list)
    /\ ((uris = [] /\ calls = [])
        \/ exists before, calls = (before ++ [Call_disconnect])%list).

(** ** Further concrete requests and stores *)

(** The card that [sim001_payload] becomes in [world0]. *)
Definition sim001_card : SimCard.t :=
  SimCard.mk 0%N "SIM001" "+1234567890" None true
    1700000000000 1700000000001.

Definition missed_call : Message.t :=
  Message.mk 1%N "SIM002" "call" "+1987654321" None "missed call"
    1700000000005 false None (VObj []) 1700000000006.

(** Two stores with the same two records, inserted in opposite orders. *)
Definition world_hello_first : World :=
  with_messages [hello_message; missed_call] world0.

Definition world_call_first : World :=
  with_messages [missed_call; hello_message] world0.

(** A driver that counts the calls made to it and reaches only the server
    at 127.0.0.1. *)
Definition loopback_connect (uri : string) (d : nat) : bool * nat :=
  ((uri =? "mongodb://127.0.0.1:27017/simako_db")%string, S d).

Definition counted_call (d : nat) : bool * nat := (true, S d).

(** ** Objects: reading after writing *)

Lemma lookup_assign_same (k : string) (v : JsVal) (o : Fields) :
  lookup k (assign k v o) = Some v.
Proof.
  induction o as [|[k' v'] o IH]; simpl.
  - now rewrite String.eqb_refl.
  - destruct (k' =? k)%string eqn:E; simpl.
    + now rewrite String.eqb_refl.
    + now rewrite E.
Qed.

Lemma lookup_assign_other (k k' : string) (v : JsVal) (o : Fields) :
  k <> k' -> lookup k' (assign k v o) = lookup k' o.
Proof.
  intros Hk.
  induction o as [|[k0 v0] o IH]; simpl.
  - destruct (k =? k')%string eqn:E; [apply String.eqb_eq in E|]; congruence.
  - destruct (k0 =? k)%string eqn:E; simpl.
    + apply String.eqb_eq in E; subst k0.
      destruct (k =? k')%string eqn:E'; [apply String.eqb_eq in E'|];
        congruence.
    + destruct (k0 =? k')%string; congruence.
Qed.

Lemma assign_unchanged (k : string) (v : JsVal) (o : Fields) :
  lookup k o = Some v -> assign k v o = o.
Proof.
  induction o as [|[k' v'] o IH]; simpl; [discriminate|].
  destruct (k' =? k)%string eqn:E.
  - apply String.eqb_eq in E; subst k'. now intros [= ->].
  - intros H. now rewrite IH.
Qed.


Lemma prop_assign_same (k : string) (v : JsVal) (o : Fields) :
  prop (assign k v o) k = v.
Proof. unfold prop. now rewrite lookup_assign_same. Qed.

Lemma prop_assign_other (k k' : string) (v : JsVal) (o : Fields) :
  k <> k' -> prop (assign k v o) k' = prop o k'.
Proof. intros H. unfold prop. now rewrite lookup_assign_other. Qed.

Lemma mem_In (k : string) (l : list string) : mem k l = true <-> In k l.
Proof.
  unfold mem. rewrite existsb_exists. split.
  - intros (x & Hx & E). apply String.eqb_eq in E. now subst x.
  - intros H. exists k. split; [assumption | apply String.eqb_refl].
Qed.



(** ** Documents built by the constructors *)

Ltac break_match :=
  match goal with
  | |- context [match ?x with _ => _ end] => destruct x eqn:?
  | H : context [match ?x with _ => _ end] |- _ => destruct x eqn:?
  end.

Lemma Message_paths_built (obj : Fields) (id : ObjectId) (ts : Error + Z)
    (created : Z) (m : Message.t) :
  Message_paths obj id ts created = inr m ->
  Message._id m = id /\ Message.processed m = false
  /\ Message.processed_at m = None /\ Message.created_at m = created
  /\ ts = inr (Message.timestamp m).
Proof.
  unfold Message_paths, or_else.
  repeat (break_match; try discriminate);
    intros [= <-]; simpl; subst; repeat split; reflexivity.
Qed.

Lemma SimCard_paths_built (obj : Fields) (id : ObjectId) (c1 c2 : Z)
    (c : SimCard.t) :
  SimCard_paths obj id c1 c2 = inr c ->
  SimCard._id c = id
  /\ prop obj "sim_id" = VStr (SimCard.sim_id c)
  /\ prop obj "phone_number" = VStr (SimCard.phone_number c).
Proof.
  unfold SimCard_paths, or_else, path_String, demand.
  repeat (break_match; try discriminate);
    intros [= <-]; simpl; repeat split; congruence.
Qed.

(** ** The rules of the triples *)

Lemma triple_ret {A : Type} (P : World -> Prop) (a : A)
    (Q : A -> World -> Prop) (E : World -> Prop) :
  (forall w, P w -> Q a w) -> triple P (ret a) Q E.
Proof. intros H w Hw. simpl. auto. Qed.

Lemma triple_throw {A : Type} (P : World -> Prop) (e : Error)
    (Q : A -> World -> Prop) (E : World -> Prop) :
  (forall w, P w -> E w) -> triple P (throw e) Q E.
Proof. intros H w Hw. simpl. auto. Qed.

Lemma triple_bind {A B : Type} (P : World -> Prop) (m : M A) (k : A -> M B)
    (Q1 : A -> World -> Prop) (Q : B -> World -> Prop) (E : World -> Prop) :
  triple P m Q1 E ->
  (forall a, triple (Q1 a) (k a) Q E) ->
  triple P (bind m k) Q E.
Proof.
  intros Hm Hk w Hw. unfold bind. specialize (Hm w Hw).
  destruct (m w) as [[a|e] w1]; [now apply Hk | assumption].
Qed.

Lemma triple_try_catch {A : Type} (P : World -> Prop) (m : M A)
    (h : Error -> M A) (Q : A -> World -> Prop) (E1 E : World -> Prop) :
  triple P m Q E1 ->
  (forall e, triple E1 (h e) Q E) ->
  triple P (try_catch m h) Q E.
Proof.
  intros Hm Hh w Hw. unfold try_catch. specialize (Hm w Hw).
  destruct (m w) as [[a|e] w1]; [assumption|].
  specialize (Hh e w1 Hm). now destruct (h e w1) as [[a|e'] w2].
Qed.


(** A triple gives the final world of a handler, whatever it answers. *)
Lemma triple_final {A : Type} (P : World -> Prop) (m : M A)
    (I : World -> Prop) (w : World) :
  triple P m (fun _ => I) I -> P w -> I (snd (m w)).
Proof.
  intros H Hw. specialize (H w Hw). now destruct (m w) as [[a|e] w1].
Qed.

(** The primitive operations, in weakest-precondition form. *)

Lemma triple_Date_now (P : World -> Prop) (Q : Z -> World -> Prop)
    (E : World -> Prop) :
  (forall w, P w -> Q (clock w (reads w)) (with_reads (S (reads w)) w)) ->
  triple P Date_now Q E.
Proof. intros H w Hw. simpl. auto. Qed.

Lemma triple_new_ObjectId (P : World -> Prop) (Q : ObjectId -> World -> Prop)
    (E : World -> Prop) :
  (forall w, P w -> Q (next_oid w) (with_next_oid (N.succ (next_oid w)) w)) ->
  triple P new_ObjectId Q E.
Proof. intros H w Hw. simpl. auto. Qed.

Lemma triple_connection (P : World -> Prop) (Q : unit -> World -> Prop)
    (E : World -> Prop) :
  (forall w, P w -> readyState w = 1 -> Q tt w) ->
  (forall w, P w -> E w) ->
  triple P connection Q E.
Proof.
  intros HQ HE w Hw. unfold connection.
  destruct (readyState w =? 1) eqn:R; [apply Z.eqb_eq in R|]; auto.
Qed.

Lemma triple_Message_save (P : World -> Prop) (doc : Error + Message.t)
    (Q : Message.t -> World -> Prop) (E : World -> Prop) :
  (forall w m, P w -> doc = inr m ->
               existsb (has_id (Message._id m)) (messages w) = false ->
               Q m (with_messages (messages w ++ [m]) w)) ->
  (forall w, P w -> E w) ->
  triple P (Message_save doc) Q E.
Proof.
  intros HQ HE. unfold Message_save. destruct doc as [e|m].
  - now apply triple_throw.
  - eapply triple_bind with (Q1 := fun _ => P).
    + apply triple_connection; auto.
    + intros _ w Hw.
      destruct (existsb _ _) eqn:D; [now apply HE | now apply HQ].
Qed.

Lemma triple_SimCard_save (P : World -> Prop) (doc : Error + SimCard.t)
    (Q : SimCard.t -> World -> Prop) (E : World -> Prop) :
  (forall w c, P w -> doc = inr c ->
               existsb (has_sim_id (SimCard.sim_id c)) (sim_cards w) = false ->
               Q c (with_sim_cards (sim_cards w ++ [c]) w)) ->
  (forall w, P w -> E w) ->
  triple P (SimCard_save doc) Q E.
Proof.
  intros HQ HE. unfold SimCard_save. destruct doc as [e|c].
  - now apply triple_throw.
  - eapply triple_bind with (Q1 := fun _ => P).
    + apply triple_connection; auto.
    + intros _ w Hw.
      destruct (existsb _ _ || existsb _ _)%bool eqn:D; [now apply HE|].
      apply orb_false_iff in D. now apply HQ.
Qed.

Lemma triple_reads_only {A : Type} (I : World -> Prop) (m : M A) :
  reads_only m -> triple I m (fun _ => I) I.
Proof.
  intros H w Hw. specialize (H w).
  destruct (m w) as [[a|e] w1]; simpl in H; now subst.
Qed.

Lemma reads_only_connection : reads_only connection.
Proof. intros w. unfold connection. now destruct (readyState w =? 1). Qed.

Lemma reads_only_bind_state {A : Type} (f : World -> Result A) :
  reads_only (bind connection (fun _ w => (f w, w))).
Proof.
  intros w. unfold bind, connection. now destruct (readyState w =? 1).
Qed.

Lemma keeps_ret {A : Type} (I : World -> Prop) (a : A) : keeps I (ret a).
Proof. now apply triple_ret. Qed.

Lemma keeps_throw {A : Type} (I : World -> Prop) (e : Error) :
  keeps I (@throw A e).
Proof. now apply triple_throw. Qed.

Lemma keeps_respond (I : World -> Prop) (code : Z) (obj : Fields) :
  keeps I (res_status_json code obj).
Proof. apply keeps_ret. Qed.

Lemma keeps_bind {A B : Type} (I : World -> Prop) (m : M A) (k : A -> M B) :
  keeps I m -> (forall a, keeps I (k a)) -> keeps I (bind m k).
Proof. intros Hm Hk. eapply triple_bind; [exact Hm | exact Hk]. Qed.

Lemma keeps_try_catch {A : Type} (I : World -> Prop) (m : M A)
    (h : Error -> M A) :
  keeps I m -> (forall e, keeps I (h e)) -> keeps I (try_catch m h).
Proof. intros Hm Hh. eapply triple_try_catch; [exact Hm | exact Hh]. Qed.

Lemma keeps_reads_only {A : Type} (I : World -> Prop) (m : M A) :
  reads_only m -> keeps I m.
Proof. apply triple_reads_only. Qed.

(** ** The processed flag and its instant *)

Lemma flag_agrees_new (m : Message.t) :
  Message.processed m = false -> Message.processed_at m = None ->
  flag_agrees m.
Proof. unfold flag_agrees. intros -> ->. split; [tauto | discriminate]. Qed.

Lemma flag_agrees_set_processed (t : Z) (m : Message.t) :
  flag_agrees (Message.set_processed t m).
Proof. unfold flag_agrees. simpl. split; [reflexivity | discriminate]. Qed.

Lemma In_update_first (id : ObjectId) (f : Message.t -> Message.t)
    (l : list Message.t) (x : Message.t) :
  In x (update_first id f l) -> In x l \/ exists m, In m l /\ x = f m.
Proof.
  induction l as [|m l IH]; simpl; [tauto|].
  destruct (has_id id m).
  - intros [<- | H]; [right; exists m; auto | auto].
  - intros [<- | H]; [auto|].
    destruct (IH H) as [H1 | (m' & H1 & H2)]; [auto|].
    right. exists m'. auto.
Qed.

(** ** Invariants of the service

    An invariant [I] that survives the five ways in which a handler changes
    the world survives every handler. *)

Section Invariant.

Variable Date_parse : string -> option Z.
Variable JSON_parse : string -> option JsVal.
Variable ObjectId_cast : string -> option ObjectId.
Variable Filter_cast : QVal -> option (string -> bool).
Variable Cursor_page : Number -> Number -> option (nat * option nat).

Variable I : World -> Prop.

Hypothesis I_tick : forall w, I w -> I (with_reads (S (reads w)) w).
Hypothesis I_oid : forall w, I w -> I (with_next_oid (N.succ (next_oid w)) w).
Hypothesis I_insert_message :
  forall w m, I w -> fresh_doc w m ->
    existsb (has_id (Message._id m)) (messages w) = false ->
    I (with_messages (messages w ++ [m]) w).
Hypothesis I_set_processed :
  forall w oid t, I w ->
    I (with_messages (update_first oid (Message.set_processed t) (messages w))
                     w).
Hypothesis I_insert_sim_card :
  forall w c, I w -> (SimCard._id c < next_oid w)%N ->
    existsb (has_sim_id (SimCard.sim_id c)) (sim_cards w) = false ->
    I (with_sim_cards (sim_cards w ++ [c]) w).

Lemma keeps_Date_now : keeps I Date_now.
Proof. apply triple_Date_now. exact I_tick. Qed.

Lemma new_Message_fresh (obj : Fields) :
  triple I (new_Message obj)
    (fun doc w => I w /\ forall m, doc = inr m -> fresh_doc w m) I.
Proof.
  unfold new_Message.
  eapply triple_bind
    with (Q1 := fun id w => I w /\ (id < next_oid w)%N).
  { apply triple_new_ObjectId. intros w Hw. split; [now apply I_oid|].
    simpl. lia. }
  intros id.
  eapply triple_bind
    with (Q1 := fun _ w => I w /\ (id < next_oid w)%N).
  { destruct (prop obj "timestamp"); try (now apply triple_ret).
    eapply triple_bind
      with (Q1 := fun _ w => I w /\ (id < next_oid w)%N);
      [|intros; now apply triple_ret].
    apply triple_Date_now. intros w [Hw Hid]. split; [now apply I_tick|].
    exact Hid. }
  intros ts.
  eapply triple_bind
    with (Q1 := fun created w =>
                  I w /\ (id < next_oid w)%N
                  /\ exists i, (i < reads w)%nat /\ created = clock w i).
  { apply triple_Date_now. intros w [Hw Hid].
    split; [now apply I_tick|]. split; [exact Hid|].
    exists (reads w). simpl. split; [lia | reflexivity]. }
  intros created. apply triple_ret. intros w (Hw & Hid & Hc).
  split; [assumption|]. intros m Hm.
  apply Message_paths_built in Hm.
  destruct Hm as (E1 & E2 & E3 & E4 & _).
  unfold fresh_doc. rewrite E1, E2, E3, E4. auto.
Qed.

Lemma keeps_post_api_messages (b : Fields) :
  keeps I (post_api_messages Date_parse JSON_parse b).
Proof.
  unfold post_api_messages.
  apply keeps_try_catch; [|intros; apply keeps_respond].
  destruct (Joi_validate _ _ _ _) as [e|value]; [apply keeps_respond|].
  apply keeps_bind.
  { destruct (truthy _); [apply keeps_ret|].
    apply keeps_bind; [apply keeps_Date_now | intros; apply keeps_ret]. }
  intros ts.
  eapply triple_bind; [apply new_Message_fresh|].
  intros doc.
  eapply triple_bind with (Q1 := fun _ => I);
    [|intros; apply keeps_respond].
  apply triple_Message_save; [|tauto].
  intros w m [Hw Hdoc] -> D. apply I_insert_message; auto.
Qed.

Lemma keeps_put_api_messages_processed (id : string) :
  keeps I (put_api_messages_processed ObjectId_cast id).
Proof.
  unfold put_api_messages_processed.
  apply keeps_try_catch; [|intros; apply keeps_respond].
  apply keeps_bind; [apply keeps_Date_now|]. intros now.
  apply keeps_bind;
    [|intros [m|]; apply keeps_respond].
  unfold Message_findByIdAndUpdate.
  destruct (ObjectId_cast id) as [oid|]; [|apply keeps_throw].
  apply keeps_bind; [apply keeps_reads_only, reads_only_connection|].
  intros _ w Hw. destruct (find _ _); [|assumption].
  now apply I_set_processed.
Qed.

Lemma new_SimCard_fresh (obj : Fields) :
  triple I (new_SimCard obj)
    (fun doc w => I w /\ forall c, doc = inr c ->
                           (SimCard._id c < next_oid w)%N) I.
Proof.
  unfold new_SimCard.
  eapply triple_bind
    with (Q1 := fun id w => I w /\ (id < next_oid w)%N).
  { apply triple_new_ObjectId. intros w Hw. split; [now apply I_oid|].
    simpl. lia. }
  intros id.
  eapply triple_bind
    with (Q1 := fun _ w => I w /\ (id < next_oid w)%N).
  { apply triple_Date_now. intros w [Hw Hid]. split; [now apply I_tick|].
    exact Hid. }
  intros c1.
  eapply triple_bind
    with (Q1 := fun _ w => I w /\ (id < next_oid w)%N).
  { apply triple_Date_now. intros w [Hw Hid]. split; [now apply I_tick|].
    exact Hid. }
  intros c2. apply triple_ret. intros w [Hw Hid]. split; [assumption|].
  intros c Hc. apply SimCard_paths_built in Hc.
  destruct Hc as (-> & _). exact Hid.
Qed.

Lemma keeps_post_api_sim_cards (b : Fields) :
  keeps I (post_api_sim_cards Date_parse JSON_parse b).
Proof.
  unfold post_api_sim_cards.
  apply keeps_try_catch; [|intros; apply keeps_respond].
  destruct (Joi_validate _ _ _ _) as [e|value]; [apply keeps_respond|].
  destruct (prop value "sim_id"); try apply keeps_throw.
  apply keeps_bind.
  { apply keeps_reads_only. unfold SimCard_findOne.
    apply reads_only_bind_state
      with (f := fun w => Ok (find _ (sim_cards w))). }
  intros [c|]; [apply keeps_respond|].
  eapply triple_bind; [apply new_SimCard_fresh|]. intros doc.
  eapply triple_bind with (Q1 := fun _ => I); [|intros; apply keeps_respond].
  apply triple_SimCard_save; [|tauto].
  intros w c [Hw Hdoc] -> D. apply I_insert_sim_card; auto.
Qed.

Lemma keeps_get_health : keeps I get_health.
Proof.
  unfold get_health.
  apply keeps_bind; [apply keeps_Date_now|].
  intros now w Hw. exact Hw.
Qed.

Lemma keeps_get_api_messages (q : Query) :
  keeps I (get_api_messages Filter_cast Cursor_page q).
Proof.
  unfold get_api_messages. cbv zeta.
  apply keeps_try_catch; [|intros; apply keeps_respond].
  apply keeps_bind.
  { apply keeps_reads_only. unfold Message_find.
    intros w. unfold bind, connection.
    destruct (readyState w =? 1); [|reflexivity].
    destruct (cast_filter _ _); [reflexivity|].
    now destruct (window _ _ _ _). }
  intros msgs. apply keeps_bind; [|intros; apply keeps_respond].
  apply keeps_reads_only. unfold Message_countDocuments.
  intros w. unfold bind, connection.
  destruct (readyState w =? 1); [|reflexivity].
  now destruct (cast_filter _ _).
Qed.

Lemma keeps_get_api_sim_cards : keeps I get_api_sim_cards.
Proof.
  unfold get_api_sim_cards.
  apply keeps_try_catch; [|intros; apply keeps_respond].
  apply keeps_bind; [|intros; apply keeps_respond].
  apply keeps_reads_only. unfold SimCard_find.
  apply reads_only_bind_state with (f := fun w => Ok (sim_cards w)).
Qed.

Lemma keeps_get_api_simakohost_status : keeps I get_api_simakohost_status.
Proof.
  unfold get_api_simakohost_status.
  apply keeps_bind; [apply keeps_Date_now | intros; apply keeps_respond].
Qed.

Lemma keeps_post_api_simakohost_send_sms (b : Fields) :
  keeps I (post_api_simakohost_send_sms b).
Proof.
  unfold post_api_simakohost_send_sms. cbv zeta.
  apply keeps_try_catch; [|intros; apply keeps_respond].
  destruct (_ || _ || _)%bool; [apply keeps_respond|].
  apply keeps_bind; [apply keeps_Date_now | intros; apply keeps_respond].
Qed.

Lemma keeps_route (r : Request) :
  keeps I (route Date_parse JSON_parse ObjectId_cast Filter_cast Cursor_page r).
Proof.
  destruct r; simpl.
  - apply keeps_get_health.
  - apply keeps_post_api_messages.
  - apply keeps_get_api_messages.
  - apply keeps_put_api_messages_processed.
  - apply keeps_get_api_sim_cards.
  - apply keeps_post_api_sim_cards.
  - apply keeps_get_api_simakohost_status.
  - apply keeps_post_api_simakohost_send_sms.
  - apply keeps_respond.
Qed.

(** The connection may change state at any time. *)
Hypothesis I_connection : forall w r, I w -> I (with_readyState r w).

Lemma invariant_step (e : Event) (w : World) :
  I w -> I (step Date_parse JSON_parse ObjectId_cast
        Filter_cast Cursor_page e w).
Proof.
  destruct e as [r|state]; simpl; [|auto].
  apply (triple_final I). apply keeps_route.
Qed.

Lemma invariant_run (trace : list Event) (w : World) :
  I w -> I (run Date_parse JSON_parse ObjectId_cast
        Filter_cast Cursor_page trace w).
Proof.
  unfold run. revert w.
  induction trace as [|e trace IH]; simpl; intros w Hw; [assumption|].
  apply IH. now apply invariant_step.
Qed.

End Invariant.

(** ** The two invariants *)

Section Service.

Variable Date_parse : string -> option Z.
Variable JSON_parse : string -> option JsVal.
Variable ObjectId_cast : string -> option ObjectId.
Variable Filter_cast : QVal -> option (string -> bool).
Variable Cursor_page : Number -> Number -> option (nat * option nat).

Lemma processed_inv_run (trace : list Event) (w : World) :
  processed_inv w ->
  processed_inv (run Date_parse JSON_parse ObjectId_cast
        Filter_cast Cursor_page trace w).
Proof.
  apply invariant_run; try (intros; assumption).
  - intros w0 m H (F1 & F2 & _) _ x Hx. simpl in Hx.
    apply in_app_or in Hx.
    destruct Hx as [Hx | [<- | []]];
      [now apply H | now apply flag_agrees_new].
  - intros w0 oid t H x Hx. simpl in Hx. apply In_update_first in Hx.
    destruct Hx as [Hx | (m & _ & ->)];
      [now apply H | apply flag_agrees_set_processed].
Qed.

Lemma NoDup_snoc {A : Type} (l : list A) (x : A) :
  NoDup l -> ~ In x l -> NoDup (l ++ [x]).
Proof.
  intros Hl Hx. apply (Permutation_NoDup (l := x :: l)).
  - apply Permutation_cons_append.
  - now constructor.
Qed.

Lemma map_id_update_first (id : ObjectId) (f : Message.t -> Message.t)
    (l : list Message.t) :
  (forall m, Message._id (f m) = Message._id m) ->
  map Message._id (update_first id f l) = map Message._id l.
Proof.
  intros Hf. induction l as [|m l IH]; simpl; [reflexivity|].
  destruct (has_id id m); simpl; [now rewrite Hf | now rewrite IH].
Qed.

Lemma has_id_absent (id : ObjectId) (l : list Message.t) :
  existsb (has_id id) l = false -> ~ In id (map Message._id l).
Proof.
  intros D H. apply in_map_iff in H. destruct H as (m & E & Hm).
  assert (existsb (has_id id) l = true); [|congruence].
  apply existsb_exists. exists m. split; [assumption|].
  unfold has_id. now apply N.eqb_eq.
Qed.

Lemma has_sim_id_absent (s : string) (l : list SimCard.t) :
  existsb (has_sim_id s) l = false -> ~ In s (map SimCard.sim_id l).
Proof.
  intros D H. apply in_map_iff in H. destruct H as (c & E & Hc).
  assert (existsb (has_sim_id s) l = true); [|congruence].
  apply existsb_exists. exists c. split; [assumption|].
  unfold has_sim_id. now apply String.eqb_eq.
Qed.

Lemma consistent_run (trace : list Event) (w : World) :
  consistent w ->
  consistent (run Date_parse JSON_parse ObjectId_cast
        Filter_cast Cursor_page trace w).
Proof.
  apply invariant_run.
  - (* a clock reading *)
    intros w0 [H1 H2 H3 H4 H5 H6 H7]. constructor; simpl; auto.
    intros m Hm. specialize (H5 m Hm).
    specialize (H1 (reads w0) (S (reads w0))). lia.
  - (* an ObjectId *)
    intros w0 [H1 H2 H3 H4 H5 H6 H7]. constructor; simpl; auto.
    + intros m Hm. specialize (H2 m Hm). lia.
    + intros c Hc. specialize (H4 c Hc). lia.
  - (* a message is inserted *)
    intros w0 m [H1 H2 H3 H4 H5 H6 H7] (F1 & F2 & F3 & i & Fi & F4) D.
    constructor; simpl; auto.
    + intros x Hx. apply in_app_or in Hx.
      destruct Hx as [Hx | [<- | []]]; auto.
    + rewrite map_app. simpl. apply NoDup_snoc; [assumption|].
      now apply has_id_absent.
    + intros x Hx. apply in_app_or in Hx.
      destruct Hx as [Hx | [<- | []]]; auto.
      rewrite F4. apply H1. lia.
    + intros x Hx. apply in_app_or in Hx.
      destruct Hx as [Hx | [<- | []]]; auto.
      now apply flag_agrees_new.
  - (* a message is marked *)
    intros w0 oid t [H1 H2 H3 H4 H5 H6 H7]. constructor; simpl; auto.
    + intros x Hx. apply In_update_first in Hx.
      destruct Hx as [Hx | (m & Hm & ->)]; auto. simpl. now apply H2.
    + now rewrite map_id_update_first.
    + intros x Hx. apply In_update_first in Hx.
      destruct Hx as [Hx | (m & Hm & ->)]; auto. simpl. now apply H5.
    + intros x Hx. apply In_update_first in Hx.
      destruct Hx as [Hx | (m & Hm & ->)]; auto.
      apply flag_agrees_set_processed.
  - (* a SIM card is inserted *)
    intros w0 c [H1 H2 H3 H4 H5 H6 H7] F D. constructor; simpl; auto.
    + intros x Hx. apply in_app_or in Hx.
      destruct Hx as [Hx | [<- | []]]; auto.
    + rewrite map_app. simpl. apply NoDup_snoc; [assumption|].
      now apply has_sim_id_absent.
  - (* the connection changes state *)
    intros w0 r [H1 H2 H3 H4 H5 H6 H7]. constructor; simpl; auto.
Qed.

End Service.

(** ** What the handlers answer *)

Section Claims.

Variable Date_parse : string -> option Z.
Variable JSON_parse : string -> option JsVal.
Variable ObjectId_cast : string -> option ObjectId.
Variable Filter_cast : QVal -> option (string -> bool).
Variable Cursor_page : Number -> Number -> option (nat * option nat).

#[local] Set Default Proof Using "Type".

(** C8, as amended.  [GET /health] always answers 200 with exactly the keys
    [status], [service], [mongodb] and [timestamp]: the status is ["ok"],
    the service name is ["Simako Node.js Backend"], the value under
    [mongodb] is ["connected"] when the ready state of the connection is 1
    and ["disconnected"] otherwise, the timestamp is the clock reading; the
    collections are not touched. *)
Theorem get_health_answer (w : World) :
  exists r,
    fst (get_health w) = Ok r
    /\ status r = 200
    /\ (exists o, body r = VObj o
                  /\ keys o = ["status"; "service"; "mongodb"; "timestamp"])
    /\ field r "status" = VStr "ok"
    /\ field r "service" = VStr "Simako Node.js Backend"
    /\ (readyState w = 1 -> field r "mongodb" = VStr "connected")
    /\ (readyState w <> 1 -> field r "mongodb" = VStr "disconnected")
    /\ field r "timestamp" = VDate (clock w (reads w))
    /\ messages (snd (get_health w)) = messages w
    /\ sim_cards (snd (get_health w)) = sim_cards w.
Proof.
  unfold get_health, bind, Date_now, res_json, res_status_json, ret.
  eexists. split; [reflexivity|]. simpl.
  split; [reflexivity|]. split; [eexists; split; reflexivity|].
  unfold field, prop. simpl.
  repeat split; try reflexivity.
  - intros ->. reflexivity.
  - intros H. apply Z.eqb_neq in H. now rewrite H.
Qed.

(** C6, as amended.  [POST /api/simakohost/send-sms]: when one of [sim_id],
    [to], [message] is missing or falsy (empty string, [null], [0],
    [false]) the answer is 400 and the world is unchanged; when the three
    are truthy the answer is 202 with the queued record holding the three
    values, status ["queued"] and [created_at] the clock reading, and the
    two collections and the outbox are unchanged. *)
Theorem send_sms_answer (b : Fields) (w : World) :
  (forall k, In k ["sim_id"; "to"; "message"] ->
             truthy (prop b k) = false ->
             post_api_simakohost_send_sms b w =
               (Ok (mkResponse 400
                      (VObj [("error",
                              VStr "Missing required fields: sim_id, to, message")])),
                w))
  /\ (truthy (prop b "sim_id") = true ->
      truthy (prop b "to") = true ->
      truthy (prop b "message") = true ->
      post_api_simakohost_send_sms b w =
        (Ok (mkResponse 202
               (VObj [("status", VStr "ok");
                      ("message", VStr "SMS queued for sending");
                      ("request",
                       VObj [("sim_id", prop b "sim_id");
                             ("to", prop b "to");
                             ("message", prop b "message");
                             ("status", VStr "queued");
                             ("created_at", VDate (clock w (reads w)))])])),
         with_reads (S (reads w)) w)
      /\ messages (snd (post_api_simakohost_send_sms b w)) = messages w
      /\ sim_cards (snd (post_api_simakohost_send_sms b w)) = sim_cards w
      /\ outbox (snd (post_api_simakohost_send_sms b w)) = outbox w).
Proof.
  unfold post_api_simakohost_send_sms, try_catch. cbv zeta. split.
  - intros k Hk F.
    assert ((negb (truthy (prop b "sim_id")) || negb (truthy (prop b "to"))
             || negb (truthy (prop b "message")))%bool = true) as ->;
      [|reflexivity].
    rewrite !orb_true_iff, !negb_true_iff.
    simpl in Hk. destruct Hk as [<- | [<- | [<- | []]]]; auto.
  - intros -> -> ->. simpl. auto.
Qed.

(** *** Marking a message as processed *)

Lemma put_malformed (id : string) (w : World) :
  ObjectId_cast id = None ->
  put_api_messages_processed ObjectId_cast id w =
    (Ok (mkResponse 500 (VObj [("error", VStr "Internal server error")])),
     with_reads (S (reads w)) w).
Proof.
  intros H. unfold put_api_messages_processed, try_catch, bind, Date_now,
    Message_findByIdAndUpdate.
  now rewrite H.
Qed.

Lemma put_disconnected (id : string) (oid : ObjectId) (w : World) :
  ObjectId_cast id = Some oid -> readyState w <> 1 ->
  put_api_messages_processed ObjectId_cast id w =
    (Ok (mkResponse 500 (VObj [("error", VStr "Internal server error")])),
     with_reads (S (reads w)) w).
Proof.
  intros H R. apply Z.eqb_neq in R.
  unfold put_api_messages_processed, try_catch, bind, Date_now,
    Message_findByIdAndUpdate.
  rewrite H. unfold bind, connection. simpl. now rewrite R.
Qed.

Lemma put_unknown (id : string) (oid : ObjectId) (w : World) :
  ObjectId_cast id = Some oid -> readyState w = 1 ->
  find (has_id oid) (messages w) = None ->
  put_api_messages_processed ObjectId_cast id w =
    (Ok (mkResponse 404 (VObj [("error", VStr "Message not found")])),
     with_reads (S (reads w)) w).
Proof.
  intros H R F.
  unfold put_api_messages_processed, try_catch, bind, Date_now,
    Message_findByIdAndUpdate.
  rewrite H. unfold bind, connection. simpl. rewrite R. simpl.
  now rewrite F.
Qed.

Lemma put_known (id : string) (oid : ObjectId) (m : Message.t) (w : World) :
  ObjectId_cast id = Some oid -> readyState w = 1 ->
  find (has_id oid) (messages w) = Some m ->
  put_api_messages_processed ObjectId_cast id w =
    (Ok (mkResponse 200
           (VObj [("status", VStr "ok");
                  ("message", VStr "Message marked as processed");
                  ("data",
                   Message.toJSON
                     (Message.set_processed (clock w (reads w)) m))])),
     with_messages
       (update_first oid (Message.set_processed (clock w (reads w)))
                     (messages w))
       (with_reads (S (reads w)) w)).
Proof.
  intros H R F.
  unfold put_api_messages_processed, try_catch, bind, Date_now,
    Message_findByIdAndUpdate.
  rewrite H. unfold bind, connection. simpl. rewrite R. simpl.
  now rewrite F.
Qed.

(** C10.  A message id that does not cast to an ObjectId makes the lookup
    throw: the answer is the generic 500 and the collections are unchanged.
    An answer 404 is given only for an id that casts and matches no
    record. *)
Theorem put_processed_malformed_id (id : string) (w : World) :
  (ObjectId_cast id = None ->
   exists r,
     answer (put_api_messages_processed ObjectId_cast id w) = Some r
     /\ status r = 500
     /\ field r "error" = VStr "Internal server error"
     /\ messages (snd (put_api_messages_processed ObjectId_cast id w))
        = messages w
     /\ sim_cards (snd (put_api_messages_processed ObjectId_cast id w))
        = sim_cards w)
  /\ (forall r,
        answer (put_api_messages_processed ObjectId_cast id w) = Some r ->
        status r = 404 ->
        exists oid,
          ObjectId_cast id = Some oid
          /\ forall m, In m (messages w) -> Message._id m <> oid).
Proof.
  split.
  - intros H. rewrite (put_malformed id w H). eexists. repeat split.
  - intros r Hr S404.
    destruct (ObjectId_cast id) as [oid|] eqn:C.
    2:{ rewrite (put_malformed id w C) in Hr. injection Hr as <-.
        discriminate. }
    exists oid. split; [reflexivity|].
    destruct (Z.eq_dec (readyState w) 1) as [R|R].
    2:{ rewrite (put_disconnected id oid w C R) in Hr. injection Hr as <-.
        discriminate. }
    destruct (find (has_id oid) (messages w)) as [m0|] eqn:F.
    { rewrite (put_known id oid m0 w C R F) in Hr. injection Hr as <-.
      discriminate. }
    intros m Hm E. apply (find_none _ _ F) in Hm.
    unfold has_id in Hm. apply N.eqb_neq in Hm. contradiction.
Qed.

Lemma find_by_unique_id (l : list Message.t) (m : Message.t) :
  NoDup (map Message._id l) -> In m l ->
  find (has_id (Message._id m)) l = Some m.
Proof.
  induction l as [|x l IH]; simpl; [tauto|].
  intros Hnd [<- | Hm].
  - unfold has_id. now rewrite N.eqb_refl.
  - inversion Hnd as [|? ? Hx Hl]; subst.
    destruct (has_id (Message._id m) x) eqn:E; [|now apply IH].
    unfold has_id in E. apply N.eqb_eq in E.
    exfalso. apply Hx. rewrite E. now apply in_map.
Qed.

Lemma update_first_found (id : ObjectId) (f : Message.t -> Message.t)
    (l : list Message.t) (m : Message.t) :
  find (has_id id) l = Some m -> In (f m) (update_first id f l).
Proof.
  induction l as [|x l IH]; simpl; [discriminate|].
  destruct (has_id id x).
  - intros [= ->]. now left.
  - intros H. right. now apply IH.
Qed.

Lemma update_first_others (id : ObjectId) (f : Message.t -> Message.t)
    (l : list Message.t) (x : Message.t) :
  In x l -> Message._id x <> id -> In x (update_first id f l).
Proof.
  induction l as [|y l IH]; simpl; [tauto|].
  intros [-> | Hx] Hid.
  - destruct (has_id id x) eqn:E; [|now left].
    unfold has_id in E. apply N.eqb_eq in E. contradiction.
  - destruct (has_id id y); right; auto.
Qed.

Lemma find_update_first (id : ObjectId) (f : Message.t -> Message.t)
    (l : list Message.t) (m : Message.t) :
  (forall x, Message._id (f x) = Message._id x) ->
  find (has_id id) l = Some m ->
  find (has_id id) (update_first id f l) = Some (f m).
Proof.
  intros Hf. induction l as [|x l IH]; simpl; [discriminate|].
  destruct (has_id id x) eqn:E.
  - intros [= ->]. simpl. unfold has_id in *. now rewrite Hf, E.
  - intros H. simpl. rewrite E. now apply IH.
Qed.

Lemma update_first_twice (id : ObjectId) (f g : Message.t -> Message.t)
    (l : list Message.t) :
  (forall x, Message._id (g x) = Message._id x) ->
  update_first id f (update_first id g l)
  = update_first id (fun x => f (g x)) l.
Proof.
  intros Hg. induction l as [|x l IH]; simpl; [reflexivity|].
  destruct (has_id id x) eqn:E; simpl.
  - unfold has_id in *. now rewrite Hg, E.
  - now rewrite E, IH.
Qed.

(** With distinct ids, updating the first record that has the id is
    updating every record that has it. *)
Lemma update_first_map (id : ObjectId) (f : Message.t -> Message.t)
    (l : list Message.t) :
  NoDup (map Message._id l) ->
  update_first id f l = map (fun x => if has_id id x then f x else x) l.
Proof.
  induction l as [|m l IH]; simpl; intros H; [reflexivity|].
  inversion H as [|? ? Hm Hl]; subst.
  destruct (has_id id m) eqn:E.
  - f_equal. symmetry. rewrite <- (map_id l) at 2. apply map_ext_in.
    intros x Hx. destruct (has_id id x) eqn:Ex; [|reflexivity].
    unfold has_id in *. apply N.eqb_eq in E. apply N.eqb_eq in Ex.
    exfalso. apply Hm. rewrite E, <- Ex. now apply in_map.
  - f_equal. now apply IH.
Qed.

Lemma In_map_if (id : ObjectId) (f : Message.t -> Message.t)
    (l : list Message.t) (x : Message.t) :
  (forall y, Message._id (f y) = Message._id y) ->
  NoDup (map Message._id l) ->
  In x (map (fun y => if has_id id y then f y else y) l) ->
  Message._id x = id ->
  forall m, In m l -> Message._id m = id -> x = f m.
Proof.
  intros Hf Hnd Hx Hid m Hm E.
  apply in_map_iff in Hx. destruct Hx as (y & Hy & Hin).
  assert (Message._id y = id) as Ey.
  { destruct (has_id id y) eqn:Ey.
    - unfold has_id in Ey. now apply N.eqb_eq in Ey.
    - now subst x. }
  assert (y = m) as ->.
  { clear - Hnd Hin Hm E Ey. induction l as [|z l IH]; [contradiction|].
    simpl in Hnd. apply NoDup_cons_iff in Hnd. destruct Hnd as [Hz Hl].
    destruct Hin as [-> | Hin], Hm as [-> | Hm]; try reflexivity.
    - exfalso. apply Hz. rewrite Ey, <- E. now apply in_map.
    - exfalso. apply Hz. rewrite E, <- Ey. now apply in_map.
    - now apply IH. }
  unfold has_id in Hy. rewrite E, N.eqb_refl in Hy. now symmetry.
Qed.

(** The empty store under a clock that does not run backwards is
    consistent; so is, by [consistent_run], every state reached from it. *)
Lemma consistent_empty (w : World) :
  messages w = [] -> sim_cards w = [] -> clock_monotone w -> consistent w.
Proof.
  intros Hm Hs Hc.
  constructor; rewrite ?Hm, ?Hs; simpl; try tauto; constructor.
Qed.

(** C2, as amended.  An id that does not cast to an ObjectId is answered
    500, and so is every id when the store is not connected; the
    collections are then unchanged.  On a connected store in a consistent
    state, for an id that casts: if no record has that id the answer is 404
    and the collections are unchanged; if a record has it, the answer is
    200 with the updated record, which is the record of that id in the
    store, with [processed] true and [processed_at] the instant of the
    request, not earlier than its [created_at]; the other records are
    untouched.  Every state reached from an empty store under a clock that
    does not run backwards is consistent. *)
Theorem put_processed_answer (id : string) (w : World) :
  let w' := snd (put_api_messages_processed ObjectId_cast id w) in
  (ObjectId_cast id = None \/ readyState w <> 1 ->
   exists r,
     answer (put_api_messages_processed ObjectId_cast id w) = Some r
     /\ status r = 500
     /\ messages w' = messages w /\ sim_cards w' = sim_cards w)
  /\ (forall oid,
        ObjectId_cast id = Some oid -> readyState w = 1 -> consistent w ->
        ((forall m, In m (messages w) -> Message._id m <> oid) ->
         exists r,
           answer (put_api_messages_processed ObjectId_cast id w) = Some r
           /\ status r = 404
           /\ messages w' = messages w /\ sim_cards w' = sim_cards w)
        /\ (forall m, In m (messages w) -> Message._id m = oid ->
            exists r m',
              answer (put_api_messages_processed ObjectId_cast id w)
              = Some r
              /\ status r = 200
              /\ field r "data" = Message.toJSON m'
              /\ In m' (messages w')
              /\ (forall x, In x (messages w') -> Message._id x = oid ->
                            x = m')
              /\ m' = Message.set_processed (clock w (reads w)) m
              /\ Message.processed m' = true
              /\ Message.processed_at m' = Some (clock w (reads w))
              /\ Message.created_at m' <= clock w (reads w)
              /\ (forall x, Message._id x <> oid ->
                            (In x (messages w') <-> In x (messages w)))
              /\ List.length (messages w') = List.length (messages w)
              /\ sim_cards w' = sim_cards w))
  /\ (forall trace w0,
        messages w0 = [] -> sim_cards w0 = [] -> clock_monotone w0 ->
        consistent
          (run Date_parse JSON_parse ObjectId_cast Filter_cast Cursor_page
               trace w0)).
Proof.
  intros w'. split; [|split].
  - intros H. subst w'.
    destruct (ObjectId_cast id) as [oid|] eqn:C.
    + destruct H as [H | H]; [discriminate|].
      rewrite (put_disconnected id oid w C H). eexists. repeat split.
    + rewrite (put_malformed id w C). eexists. repeat split.
  - intros oid C R Hc. split.
    + intros Hnone.
      assert (find (has_id oid) (messages w) = None) as F.
      { destruct (find (has_id oid) (messages w)) as [m|] eqn:F;
          [|reflexivity].
        apply find_some in F. destruct F as [Hm E].
        unfold has_id in E. apply N.eqb_eq in E. now apply Hnone in Hm. }
      subst w'. rewrite (put_unknown id oid w C R F). eexists. repeat split.
    + intros m Hm E.
      assert (find (has_id oid) (messages w) = Some m) as F.
      { rewrite <- E. apply find_by_unique_id; [apply Hc | assumption]. }
      pose proof (message_ids_unique w Hc) as Hnd.
      subst w'. rewrite (put_known id oid m w C R F).
      cbn [snd messages sim_cards with_messages with_reads].
      rewrite (update_first_map oid _ _ Hnd).
      eexists. eexists. split; [reflexivity|].
      split; [reflexivity|]. split; [reflexivity|].
      split.
      { apply in_map_iff. exists m. split; [|exact Hm].
        unfold has_id. now rewrite E, N.eqb_refl. }
      split.
      { intros x Hx Hid.
        now apply (In_map_if oid
                     (Message.set_processed (clock w (reads w)))
                     (messages w) x (fun _ => eq_refl) Hnd Hx Hid m). }
      split; [reflexivity|]. split; [reflexivity|].
      split; [reflexivity|].
      split; [exact (created_in_the_past w Hc m Hm)|].
      split; [|split; [apply length_map | reflexivity]].
      intros x Hx. rewrite in_map_iff. split.
      * intros (y & Hy & Hin).
        destruct (has_id oid y) eqn:Ey; [|now subst y].
        exfalso. apply Hx. subst x. unfold has_id in Ey.
        apply N.eqb_eq in Ey. exact Ey.
      * intros Hin. exists x. split; [|exact Hin].
        destruct (has_id oid x) eqn:Ex; [|reflexivity].
        exfalso. apply Hx. unfold has_id in Ex. now apply N.eqb_eq in Ex.
  - intros trace w0 Hm Hs Hclock.
    apply consistent_run. now apply consistent_empty.
Qed.

(** C7.  Marking a record that is already processed succeeds: the answer is
    200 with the record re-stamped; the record of that id in the store is
    then that re-stamped record, [processed] still true and [processed_at]
    the instant of this invocation, and nothing else in the record or in
    the store has changed.  A second invocation re-stamps it again, with
    the next clock reading: the two invocations leave the store as the
    second one alone would, and the three stores agree on everything but
    [processed_at]. *)
Theorem put_processed_again (id : string) (oid : ObjectId) (m : Message.t)
    (w : World) :
  consistent w -> readyState w = 1 -> ObjectId_cast id = Some oid ->
  In m (messages w) -> Message._id m = oid -> Message.processed m = true ->
  let now := clock w (reads w) in
  let later := clock w (S (reads w)) in
  let w1 := snd (put_api_messages_processed ObjectId_cast id w) in
  let w2 := snd (put_api_messages_processed ObjectId_cast id w1) in
  (exists r,
     answer (put_api_messages_processed ObjectId_cast id w) = Some r
     /\ status r = 200
     /\ field r "data" = Message.toJSON (restamp now m))
  /\ Message.processed (restamp now m) = true
  /\ Message.processed_at (restamp now m) = Some now
  /\ In (restamp now m) (messages w1)
  /\ (forall x, In x (messages w1) -> Message._id x = oid ->
                x = restamp now m)
  /\ messages w1 = restamped oid now (messages w)
  /\ sim_cards w1 = sim_cards w
  /\ (exists r,
        answer (put_api_messages_processed ObjectId_cast id w1) = Some r
        /\ status r = 200
        /\ field r "data" = Message.toJSON (restamp later m))
  /\ In (restamp later m) (messages w2)
  /\ (forall x, In x (messages w2) -> Message._id x = oid ->
                x = restamp later m)
  /\ messages w2 = restamped oid later (messages w)
  /\ map (restamp 0) (messages w1) = map (restamp 0) (messages w)
  /\ map (restamp 0) (messages w2) = map (restamp 0) (messages w)
  /\ now <= later.
Proof.
  intros Hc R C Hm E P now later w1 w2.
  assert (find (has_id oid) (messages w) = Some m) as F.
  { rewrite <- E. apply find_by_unique_id; [apply Hc | assumption]. }
  pose proof (message_ids_unique w Hc) as Hnd.
  assert (forall t, Message.set_processed t m = restamp t m) as Hre.
  { intros t. unfold Message.set_processed, restamp. now rewrite P. }
  assert (forall t, update_first oid (Message.set_processed t) (messages w)
                    = update_first oid (restamp t) (messages w)) as Hup.
  { intros t. clear - F P. induction (messages w) as [|x l IH]; simpl in *;
      [reflexivity|].
    destruct (has_id oid x).
    - injection F as ->. unfold Message.set_processed, restamp.
      now rewrite P.
    - now rewrite IH. }
  assert (forall t, update_first oid (restamp t) (messages w)
                    = restamped oid t (messages w)) as Hmap.
  { intros t. now rewrite (update_first_map oid _ _ Hnd). }
  assert (forall t, In (restamp t m) (restamped oid t (messages w))) as Hin.
  { intros t. apply in_map_iff. exists m. split; [|exact Hm].
    now rewrite E, N.eqb_refl. }
  assert (forall t x, In x (restamped oid t (messages w)) ->
                      Message._id x = oid -> x = restamp t m) as Huniq.
  { intros t x Hx Hid.
    now apply (In_map_if oid (restamp t) (messages w) x
                 (fun _ => eq_refl) Hnd Hx Hid m). }
  assert (forall t, map (restamp 0) (restamped oid t (messages w))
                    = map (restamp 0) (messages w)) as Hsame.
  { intros t. unfold restamped. rewrite map_map. apply map_ext.
    intros x. now destruct (Message._id x =? oid)%N. }
  assert (find (has_id oid) (messages w1)
          = Some (Message.set_processed now m)) as F1.
  { subst w1. rewrite (put_known id oid m w C R F). simpl.
    now apply find_update_first. }
  assert (readyState w1 = 1) as R1.
  { subst w1. now rewrite (put_known id oid m w C R F). }
  assert (clock w1 (reads w1) = later) as T1.
  { subst w1. now rewrite (put_known id oid m w C R F). }
  assert (messages w2 = restamped oid later (messages w)) as M2.
  { subst w2. rewrite (put_known id oid _ w1 C R1 F1), T1.
    subst w1. rewrite (put_known id oid m w C R F).
    cbn [snd messages with_messages with_reads].
    rewrite update_first_twice; [|reflexivity].
    rewrite <- Hmap, <- Hup. clear.
    induction (messages w) as [|x l IH]; simpl; [reflexivity|].
    destruct (has_id oid x); [reflexivity | now rewrite IH]. }
  assert (messages w1 = restamped oid now (messages w)) as M1.
  { subst w1. rewrite (put_known id oid m w C R F).
    cbn [snd messages with_messages with_reads].
    now rewrite Hup, Hmap. }
  split.
  { subst w1. rewrite (put_known id oid m w C R F), Hre.
    eexists. repeat split. }
  split; [exact P|]. split; [reflexivity|].
  split; [rewrite M1; apply Hin|].
  split; [rewrite M1; apply Huniq|].
  split; [exact M1|].
  split; [subst w1; now rewrite (put_known id oid m w C R F)|].
  split.
  { rewrite (put_known id oid _ w1 C R1 F1), T1.
    eexists. split; [reflexivity|]. split; [reflexivity|].
    unfold field, prop. simpl. f_equal.
    unfold Message.set_processed, restamp. simpl. now rewrite P. }
  split; [rewrite M2; apply Hin|].
  split; [rewrite M2; apply Huniq|].
  split; [exact M2|].
  split; [rewrite M1; apply Hsame|].
  split; [rewrite M2; apply Hsame|].
  apply (clock_mono w Hc). lia.
Qed.

(** *** Validation *)

Lemma Joi_keys_rejects (schema : list (string * JoiSchema)) (o : Fields)
    (k : string) (s : JoiSchema) :
  NoDup (keys schema) -> In (k, s) schema ->
  match lookup k o with
  | None => required s = true
  | Some v => exists e, Joi_value Date_parse JSON_parse s k v = inl e
  end ->
  exists e, Joi_keys Date_parse JSON_parse schema o = inl e.
Proof.
  clear ObjectId_cast.
  revert o. induction schema as [|[k0 s0] schema IH]; simpl; [tauto|].
  intros o Hnd Hin Hbad. inversion Hnd as [|? ? Hk0 Hrest]; subst.
  destruct Hin as [[= -> ->] | Hin].
  - destruct (lookup k o) as [v|].
    + destruct Hbad as [e ->]. now exists e.
    + rewrite Hbad. eexists. reflexivity.
  - assert (k0 <> k) as Hne.
    { intros ->. apply Hk0. change k with (fst (k, s)). now apply in_map. }
    destruct (lookup k0 o) as [v0|].
    + destruct (Joi_value _ _ s0 k0 v0) as [e|v'] eqn:E;
        [now exists e|].
      apply IH; [assumption | assumption |].
      now rewrite lookup_assign_other.
    + destruct (required s0); [eexists; reflexivity | now apply IH].
Qed.

Lemma Joi_validate_rejects (schema : list (string * JoiSchema)) (o : Fields)
    (k : string) (s : JoiSchema) :
  NoDup (keys schema) -> In (k, s) schema ->
  match lookup k o with
  | None => required s = true
  | Some v => exists e, Joi_value Date_parse JSON_parse s k v = inl e
  end ->
  exists e, Joi_validate Date_parse JSON_parse schema o = inl e.
Proof.
  intros Hnd Hin Hbad. unfold Joi_validate.
  destruct (Joi_keys_rejects schema o k s Hnd Hin Hbad) as [e ->].
  now exists e.
Qed.

Lemma Joi_validate_unknown (schema : list (string * JoiSchema)) (o : Fields)
    (k : string) :
  In k (keys o) -> ~ In k (keys schema) ->
  exists e, Joi_validate Date_parse JSON_parse schema o = inl e.
Proof.
  intros Hk Hun. unfold Joi_validate.
  destruct (Joi_keys _ _ schema o) as [e|value]; [now exists e|].
  destruct (find _ (keys o)) as [k'|] eqn:F; [eexists; reflexivity|].
  exfalso. apply (find_none _ _ F) in Hk.
  apply negb_false_iff, mem_In in Hk. contradiction.
Qed.

Lemma post_api_messages_invalid (b : Fields) (e : string) (w : World) :
  Joi_validate Date_parse JSON_parse messageValidation b = inl e ->
  post_api_messages Date_parse JSON_parse b w =
    (Ok (mkResponse 400 (VObj [("error", VStr e)])), w).
Proof. intros H. unfold post_api_messages, try_catch. now rewrite H. Qed.

Lemma post_api_sim_cards_invalid (b : Fields) (e : string) (w : World) :
  Joi_validate Date_parse JSON_parse simCardValidation b = inl e ->
  post_api_sim_cards Date_parse JSON_parse b w =
    (Ok (mkResponse 400 (VObj [("error", VStr e)])), w).
Proof. intros H. unfold post_api_sim_cards, try_catch. now rewrite H. Qed.

(** Whatever the payload, what [POST /api/messages] stores is at most one
    new record, whose server-managed paths come from the generator, the
    defaults and the clock. *)
Lemma post_api_messages_inserts (b : Fields) (w : World) :
  let w' := snd (post_api_messages Date_parse JSON_parse b w) in
  sim_cards w' = sim_cards w
  /\ (messages w' = messages w
      \/ exists m,
           messages w' = (messages w ++ [m])%list
           /\ Message._id m = next_oid w
           /\ Message.processed m = false
           /\ Message.processed_at m = None
           /\ (Message.created_at m = clock w (reads w)
               \/ Message.created_at m = clock w (S (reads w)))).
Proof.
  unfold post_api_messages, try_catch.
  destruct (Joi_validate _ _ _ _) as [e|value]; [simpl; auto|].
  unfold bind at 1.
  destruct (truthy (prop value "timestamp")); simpl.
  - unfold new_Message, bind, new_ObjectId, Date_now, ret.
    rewrite prop_assign_same.
    destruct (prop value "timestamp"); simpl;
      match goal with
      | |- context [Message_save (Message_paths ?o ?i ?t ?c)] =>
          destruct (Message_paths o i t c) as [err|m] eqn:P
      end; simpl; auto;
      apply Message_paths_built in P; destruct P as (P1 & P2 & P3 & P4 & _);
      unfold bind, connection; simpl;
      destruct (readyState w =? 1); simpl; auto;
      destruct (existsb _ _); simpl; auto;
      (split; [reflexivity|]); right; exists m; auto 10.
  - unfold new_Message, bind, new_ObjectId, Date_now, ret.
    rewrite prop_assign_same. simpl.
    match goal with
    | |- context [Message_save (Message_paths ?o ?i ?t ?c)] =>
        destruct (Message_paths o i t c) as [err|m] eqn:P
    end; simpl; auto.
    apply Message_paths_built in P. destruct P as (P1 & P2 & P3 & P4 & _).
    unfold bind, connection; simpl.
    destruct (readyState w =? 1); simpl; auto.
    destruct (existsb _ _); simpl; auto.
    split; [reflexivity|]. right. exists m. auto 10.
Qed.

(** *** Payloads that pass *)

Lemma Joi_keys_keep (k : string) (s : JoiSchema)
    (rest : list (string * JoiSchema)) (o : Fields) (v : JsVal) :
  lookup k o = Some v ->
  Joi_value Date_parse JSON_parse s k v = inr v ->
  Joi_keys Date_parse JSON_parse ((k, s) :: rest) o
  = Joi_keys Date_parse JSON_parse rest o.
Proof. intros H1 H2. simpl. now rewrite H1, H2, assign_unchanged. Qed.

Lemma Joi_keys_skip (k : string) (s : JoiSchema)
    (rest : list (string * JoiSchema)) (o : Fields) :
  lookup k o = None -> required s = false ->
  Joi_keys Date_parse JSON_parse ((k, s) :: rest) o
  = Joi_keys Date_parse JSON_parse rest o.
Proof. intros H1 H2. simpl. now rewrite H1, H2. Qed.

Lemma Joi_keys_convert (k : string) (s : JoiSchema)
    (rest : list (string * JoiSchema)) (o : Fields) (v v' : JsVal) :
  lookup k o = Some v ->
  Joi_value Date_parse JSON_parse s k v = inr v' ->
  Joi_keys Date_parse JSON_parse ((k, s) :: rest) o
  = Joi_keys Date_parse JSON_parse rest (assign k v' o).
Proof. intros H1 H2. simpl. now rewrite H1, H2. Qed.

Lemma text_of_Some (v : option JsVal) (s : string) :
  text_of v = Some s -> v = Some (VStr s) /\ (s =? "")%string = false.
Proof.
  unfold text_of. destruct v as [[]|]; try discriminate.
  destruct (s0 =? "")%string eqn:E; [discriminate|]. now intros [= <-].
Qed.

Lemma Joi_string_accepts (sch : JoiSchema) (k s : string) :
  base sch = TString -> valid sch = [] -> (s =? "")%string = false ->
  Joi_value Date_parse JSON_parse sch k (VStr s) = inr (VStr s).
Proof. intros H1 H2 H3. unfold Joi_value. now rewrite H1, H2, H3. Qed.

Lemma instant_Some (v : JsVal) (t : Z) :
  instant Date_parse JSON_parse v = Some t ->
  Joi_value Date_parse JSON_parse Joi_date "timestamp" v = inr (VDate t).
Proof.
  unfold instant.
  destruct (Joi_value _ _ Joi_date "timestamp" v) as [e|[]];
    try discriminate.
  now intros [= ->].
Qed.

Lemma no_undeclared_key (declared : list string) (o : Fields) :
  forallb (fun k => mem k declared) (keys o) = true ->
  find (fun k => negb (mem k declared)) (keys o) = None.
Proof.
  intros H. induction (keys o) as [|k l IH]; simpl in *; [reflexivity|].
  apply andb_prop in H. destruct H as [H1 H2].
  rewrite H1. simpl. now apply IH.
Qed.

Lemma well_formed_message_parts (b : Fields) :
  well_formed_message Date_parse JSON_parse b = true ->
  (exists sid, lookup "sim_id" b = Some (VStr sid)
               /\ (sid =? "")%string = false)
  /\ (exists ty, lookup "type" b = Some (VStr ty)
                 /\ mem ty ["sms"; "call"] = true)
  /\ (exists fr, lookup "from" b = Some (VStr fr)
                 /\ (fr =? "")%string = false)
  /\ (lookup "to" b = None
      \/ exists x, lookup "to" b = Some (VStr x) /\ (x =? "")%string = false)
  /\ (exists ms, lookup "message" b = Some (VStr ms)
                 /\ (ms =? "")%string = false)
  /\ (lookup "timestamp" b = None
      \/ exists v t, lookup "timestamp" b = Some v
                     /\ instant Date_parse JSON_parse v = Some t)
  /\ (lookup "metadata" b = None
      \/ exists o, lookup "metadata" b = Some (VObj o))
  /\ forallb (fun k => mem k (keys messageValidation)) (keys b) = true.
Proof.
  unfold well_formed_message. intros H.
  apply andb_prop in H. destruct H as [H Hkeys].
  apply andb_prop in H. destruct H as [H Hmd].
  apply andb_prop in H. destruct H as [H Hts].
  apply andb_prop in H. destruct H as [H Hms].
  apply andb_prop in H. destruct H as [H Hto].
  apply andb_prop in H. destruct H as [H Hfr].
  apply andb_prop in H. destruct H as [Hsid Hty].
  repeat split.
  - destruct (text_of (lookup "sim_id" b)) as [x|] eqn:E; [|discriminate].
    apply text_of_Some in E. now exists x.
  - destruct (lookup "type" b) as [[| | | |ty| | | |]|]; try discriminate.
    now exists ty.
  - destruct (text_of (lookup "from" b)) as [x|] eqn:E; [|discriminate].
    apply text_of_Some in E. now exists x.
  - destruct (lookup "to" b) as [v|]; [right | now left].
    destruct (text_of (Some v)) as [x|] eqn:E; [|discriminate].
    apply text_of_Some in E. destruct E as [[= ->] E]. now exists x.
  - destruct (text_of (lookup "message" b)) as [x|] eqn:E; [|discriminate].
    apply text_of_Some in E. now exists x.
  - destruct (lookup "timestamp" b) as [v|]; [right | now left].
    destruct (instant Date_parse JSON_parse v) as [t|] eqn:E;
      [|discriminate].
    now exists v, t.
  - destruct (lookup "metadata" b) as [[]|]; try discriminate;
      [right; eexists; reflexivity | now left].
  - exact Hkeys.
Qed.

Lemma messageValidation_accepts (b : Fields) :
  well_formed_message Date_parse JSON_parse b = true ->
  Joi_validate Date_parse JSON_parse messageValidation b
  = inr (validated Date_parse JSON_parse b).
Proof.
  intros H. apply well_formed_message_parts in H.
  destruct H as ((sid & Es & Es') & (ty & Et & Et') & (fr & Ef & Ef')
                 & Hto & (ms & Em & Em') & Hts & Hmd & Hkeys).
  unfold Joi_validate. rewrite (no_undeclared_key _ _ Hkeys).
  unfold messageValidation, validated.
  rewrite (Joi_keys_keep _ _ _ _ _ Es); [|now apply Joi_string_accepts].
  rewrite (Joi_keys_keep "type" _ _ _ (VStr ty) Et);
    [|unfold Joi_value; simpl valid; cbv iota; now rewrite Et'].
  rewrite (Joi_keys_keep _ _ _ _ _ Ef); [|now apply Joi_string_accepts].
  assert (forall rest,
             Joi_keys Date_parse JSON_parse (("to", Joi_string) :: rest) b
             = Joi_keys Date_parse JSON_parse rest b) as ->.
  { intros rest. destruct Hto as [Eto | (x & Eto & Ex)].
    - now apply Joi_keys_skip.
    - apply (Joi_keys_keep _ _ _ _ _ Eto). now apply Joi_string_accepts. }
  rewrite (Joi_keys_keep _ _ _ _ _ Em); [|now apply Joi_string_accepts].
  destruct Hts as [Ets | (v & t & Ets & Ei)]; rewrite Ets.
  - rewrite (Joi_keys_skip _ _ _ _ Ets); [|reflexivity].
    destruct Hmd as [Emd | (o & Emd)].
    + now rewrite Joi_keys_skip.
    + now rewrite (Joi_keys_keep "metadata" _ _ _ (VObj o)).
  - rewrite Ei.
    rewrite (Joi_keys_convert _ _ _ _ _ _ Ets (instant_Some _ _ Ei)).
    destruct Hmd as [Emd | (o & Emd)].
    + rewrite Joi_keys_skip;
        [reflexivity | now rewrite lookup_assign_other | reflexivity].
    + rewrite (Joi_keys_keep "metadata" _ _ _ (VObj o));
        [reflexivity | now rewrite lookup_assign_other | reflexivity].
Qed.

Lemma Message_paths_described (obj b : Fields) (id : ObjectId)
    (ts created : Z) :
  well_formed_message Date_parse JSON_parse b = true ->
  (forall k, k <> "timestamp" -> prop obj k = prop b k) ->
  Message_paths obj id (inr ts) created
  = inr (described_message b id ts created).
Proof.
  intros H Hobj. apply well_formed_message_parts in H.
  destruct H as ((sid & Es & Es') & (ty & Et & Et') & (fr & Ef & Ef')
                 & Hto & (ms & Em & Em') & _ & Hmd & _).
  unfold Message_paths, described_message, text.
  rewrite !Hobj by discriminate. unfold prop.
  rewrite Es, Et, Ef, Em. simpl. rewrite Es', Ef', Em'. simpl.
  assert ((ty =? "")%string = false) as ->.
  { destruct ty; [discriminate | reflexivity]. }
  simpl. unfold path_enum. rewrite Et'. simpl.
  destruct Hto as [-> | (x & -> & Ex)]; simpl;
    destruct Hmd as [-> | (o & ->)]; reflexivity.
Qed.

Lemma next_oid_is_fresh (w : World) :
  consistent w -> existsb (has_id (next_oid w)) (messages w) = false.
Proof.
  intros Hc. destruct (existsb _ _) eqn:E; [|reflexivity].
  apply existsb_exists in E. destruct E as (m & Hm & E).
  unfold has_id in E. apply N.eqb_eq in E.
  pose proof (message_ids_fresh w Hc m Hm). lia.
Qed.

Lemma post_api_messages_accepts (b : Fields) (w : World) :
  consistent w -> readyState w = 1 ->
  well_formed_message Date_parse JSON_parse b = true ->
  let m :=
    match lookup "timestamp" b with
    | Some v =>
        described_message b (next_oid w)
          (match instant Date_parse JSON_parse v with
           | Some t => t
           | None => 0
           end)
          (clock w (reads w))
    | None =>
        described_message b (next_oid w) (clock w (reads w))
          (clock w (S (reads w)))
    end in
  exists w',
    post_api_messages Date_parse JSON_parse b w
    = (Ok (mkResponse 201
             (VObj [("status", VStr "ok");
                    ("message_id", VObjectId (Message._id m));
                    ("received", Message.toJSON m)])),
       w')
    /\ messages w' = (messages w ++ [m])%list
    /\ sim_cards w' = sim_cards w.
Proof.
  intros Hc R H m.
  pose proof (messageValidation_accepts b H) as V.
  pose proof (next_oid_is_fresh w Hc) as Fr.
  pose proof (well_formed_message_parts b H) as P.
  destruct P as (_ & _ & _ & _ & _ & Hts & _).
  unfold post_api_messages, try_catch. rewrite V. unfold validated.
  unfold bind at 1.
  destruct Hts as [Ets | (v & t & Ets & Ei)].
  - (* no timestamp in the payload: the handler reads the clock *)
    subst m. rewrite Ets. unfold prop at 1. rewrite Ets. simpl.
    unfold new_Message, bind, new_ObjectId, Date_now, ret.
    rewrite prop_assign_same. simpl.
    rewrite (Message_paths_described _ b);
      [|assumption | intros k Hk; apply prop_assign_other; congruence].
    unfold Message_save, bind, connection. simpl.
    rewrite R. simpl. rewrite Fr. simpl.
    eexists. split; [reflexivity|]. simpl. auto.
  - (* the timestamp of the payload *)
    subst m. rewrite Ets, Ei. rewrite prop_assign_same. simpl.
    unfold new_Message, bind, new_ObjectId, Date_now, ret.
    rewrite prop_assign_same. simpl.
    rewrite (Message_paths_described _ b);
      [|assumption
       |intros k Hk; rewrite !prop_assign_other by congruence; reflexivity].
    unfold Message_save, bind, connection. simpl.
    rewrite R. simpl. rewrite Fr. simpl.
    eexists. split; [reflexivity|]. simpl. auto.
Qed.

Lemma described_message_reads_payload (b : Fields) (id : ObjectId)
    (ts created : Z) :
  well_formed_message Date_parse JSON_parse b = true ->
  let m := described_message b id ts created in
  lookup "sim_id" b = Some (VStr (Message.sim_id m))
  /\ lookup "type" b = Some (VStr (Message.type m))
  /\ lookup "from" b = Some (VStr (Message.from m))
  /\ lookup "to" b = option_map VStr (Message.to m)
  /\ lookup "message" b = Some (VStr (Message.message m))
  /\ Message.metadata m
     = match lookup "metadata" b with Some v => v | None => VObj [] end.
Proof.
  intros H. apply well_formed_message_parts in H.
  destruct H as ((sid & Es & _) & (ty & Et & _) & (fr & Ef & _)
                 & Hto & (ms & Em & _) & _).
  unfold described_message, text. simpl. rewrite Es, Et, Ef, Em.
  destruct Hto as [-> | (x & -> & _)]; repeat split.
Qed.

Lemma type_not_allowed (v : JsVal) :
  v <> VStr "sms" -> v <> VStr "call" ->
  exists e,
    Joi_value Date_parse JSON_parse
      (Joi_required (Joi_valid ["sms"; "call"] Joi_string)) "type" v
    = inl e.
Proof.
  intros H1 H2. unfold Joi_value. simpl valid. cbv iota.
  destruct v; try (eexists; reflexivity).
  assert (mem s ["sms"; "call"] = false) as ->; [|eexists; reflexivity].
  assert (("sms" =? s)%string = false) as E1.
  { apply String.eqb_neq. congruence. }
  assert (("call" =? s)%string = false) as E2.
  { apply String.eqb_neq. congruence. }
  unfold mem. cbn [existsb]. now rewrite E1, E2.
Qed.

Lemma messageValidation_keys_NoDup : NoDup (keys messageValidation).
Proof.
  unfold messageValidation, keys. simpl.
  repeat (constructor; [simpl; intuition discriminate|]). constructor.
Qed.

Lemma simCardValidation_keys_NoDup : NoDup (keys simCardValidation).
Proof.
  unfold simCardValidation, keys. simpl.
  repeat (constructor; [simpl; intuition discriminate|]). constructor.
Qed.

(** What [res.json] sends of [metadata]: the value minimized, and no key
    when nothing is left of it. *)
Lemma toJSON_metadata (m : Message.t) :
  exists o,
    Message.toJSON m = VObj o
    /\ lookup "metadata" o
       = match clone false (Message.metadata m) with
         | VUndefined => None
         | v => Some v
         end.
Proof.
  unfold Message.toJSON. eexists. split; [reflexivity|].
  unfold Message.minimized.
  destruct (Message.to m), (Message.processed_at m);
    destruct (clone false (Message.metadata m)); reflexivity.
Qed.

(** A required key that holds the empty string is refused. *)
Lemma empty_not_allowed (k : string) (s : JoiSchema) :
  In (k, s) messageValidation -> required s = true ->
  exists e, Joi_value Date_parse JSON_parse s k (VStr "") = inl e.
Proof.
  unfold messageValidation. simpl.
  intros [H | [H | [H | [H | [H | [H | [H | []]]]]]]] Hreq;
    injection H as <- <-; try discriminate; eexists; reflexivity.
Qed.

(** C1, as amended.  [POST /api/messages] on a consistent, connected store:
    a payload whose [sim_id], [from] and [message] are non-empty strings,
    whose [type] is ["sms"] or ["call"], whose optional [to], [timestamp]
    and [metadata] are a non-empty string, an instant and an object, and
    which has no other key, is answered 201 with [message_id] and the
    record that was appended to the collection; the record repeats the
    payload, [processed] is false, [processed_at] is unset, [created_at] is
    set from the clock and [timestamp] is the instant of the payload or,
    without one, the clock reading of the handler; of [metadata] the body
    holds what is left once empty objects are dropped, and no key when
    nothing is.  In every state of the store, a payload that lacks a
    required key, or holds the empty string under one, or whose [type] is
    neither ["sms"] nor ["call"], is answered 400 with a validation message
    and the world is unchanged. *)
Theorem post_messages_answer (b : Fields) (w : World) :
  (consistent w -> readyState w = 1 ->
   well_formed_message Date_parse JSON_parse b = true ->
   exists r m,
     answer (post_api_messages Date_parse JSON_parse b w) = Some r
     /\ status r = 201
     /\ field r "message_id" = VObjectId (Message._id m)
     /\ field r "received" = Message.toJSON m
     /\ messages (snd (post_api_messages Date_parse JSON_parse b w))
        = (messages w ++ [m])%list
     /\ sim_cards (snd (post_api_messages Date_parse JSON_parse b w))
        = sim_cards w
     /\ lookup "sim_id" b = Some (VStr (Message.sim_id m))
     /\ lookup "type" b = Some (VStr (Message.type m))
     /\ lookup "from" b = Some (VStr (Message.from m))
     /\ lookup "to" b = option_map VStr (Message.to m)
     /\ lookup "message" b = Some (VStr (Message.message m))
     /\ Message.metadata m
        = match lookup "metadata" b with Some v => v | None => VObj [] end
     /\ Message.processed m = false
     /\ Message.processed_at m = None
     /\ match lookup "timestamp" b with
        | Some v => instant Date_parse JSON_parse v = Some (Message.timestamp m)
                    /\ Message.created_at m = clock w (reads w)
        | None => Message.timestamp m = clock w (reads w)
                  /\ Message.created_at m = clock w (S (reads w))
        end
     /\ exists o,
          field r "received" = VObj o
          /\ lookup "metadata" o
             = match lookup "metadata" b with
               | Some v =>
                   match clone false v with
                   | VUndefined => None
                   | v' => Some v'
                   end
               | None => None
               end)
  /\ ((exists k, In k ["sim_id"; "type"; "from"; "message"]
                 /\ (lookup k b = None \/ lookup k b = Some (VStr "")))
      \/ (exists v, lookup "type" b = Some v
                    /\ v <> VStr "sms" /\ v <> VStr "call") ->
      exists e,
        post_api_messages Date_parse JSON_parse b w
        = (Ok (mkResponse 400 (VObj [("error", VStr e)])), w)).
Proof.
  split.
  - intros Hc R H.
    pose proof (post_api_messages_accepts b w Hc R H) as A. cbv zeta in A.
    pose proof (well_formed_message_parts b H) as P.
    destruct P as (_ & _ & _ & _ & _ & Hts & _).
    assert (forall m,
              Message.metadata m
              = match lookup "metadata" b with
                | Some v => v
                | None => VObj []
                end ->
              exists o,
                Message.toJSON m = VObj o
                /\ lookup "metadata" o
                   = match lookup "metadata" b with
                     | Some v =>
                         match clone false v with
                         | VUndefined => None
                         | v' => Some v'
                         end
                     | None => None
                     end) as Meta.
    { intros m Hm. destruct (toJSON_metadata m) as (o & Ho & Hl).
      exists o. split; [exact Ho|]. rewrite Hl, Hm.
      now destruct (lookup "metadata" b). }
    destruct Hts as [Ets | (v & t & Ets & Ei)]; rewrite Ets in A |- *.
    + destruct A as (w' & E & Hm & Hs). rewrite E. cbn [snd].
      pose proof (described_message_reads_payload b (next_oid w)
                    (clock w (reads w)) (clock w (S (reads w))) H) as D.
      cbv zeta in D.
      eexists. eexists.
      split; [reflexivity|]. split; [reflexivity|].
      split; [reflexivity|]. split; [reflexivity|].
      split; [exact Hm|]. split; [exact Hs|].
      repeat (split; [simpl; tauto|]).
      apply Meta. tauto.
    + rewrite Ei in A |- *.
      destruct A as (w' & E & Hm & Hs). rewrite E. cbn [snd].
      pose proof (described_message_reads_payload b (next_oid w) t
                    (clock w (reads w)) H) as D.
      cbv zeta in D.
      eexists. eexists.
      split; [reflexivity|]. split; [reflexivity|].
      split; [reflexivity|]. split; [reflexivity|].
      split; [exact Hm|]. split; [exact Hs|].
      repeat (split; [simpl; tauto|]).
      apply Meta. tauto.
  - intros Hbad.
    assert (exists e, Joi_validate Date_parse JSON_parse messageValidation b
                      = inl e) as [e He].
    { destruct Hbad as [(k & Hk & Hnone) | (v & Hv & H1 & H2)].
      - assert (exists s, In (k, s) messageValidation
                          /\ required s = true) as (s & Hs & Hreq).
        { simpl in Hk. unfold messageValidation.
          destruct Hk as [<- | [<- | [<- | [<- | []]]]];
            eexists; (split; [simpl; auto 10 | reflexivity]). }
        apply (Joi_validate_rejects messageValidation b k s);
          [apply messageValidation_keys_NoDup | exact Hs|].
        destruct Hnone as [-> | ->]; [exact Hreq|].
        now apply empty_not_allowed.
      - eapply Joi_validate_rejects with (k := "type");
          [apply messageValidation_keys_NoDup
          |unfold messageValidation; simpl; eauto 10
          |rewrite Hv; now apply type_not_allowed]. }
    exists e. now apply post_api_messages_invalid.
Qed.

(** C9.  A payload of [POST /api/messages] or [POST /api/sim-cards] with a
    key that the validation schema does not declare is answered 400 with a
    validation message, and the world is left as it was.  Hence the
    server-managed paths of a stored message never come from the client:
    whatever the payload, a record that [POST /api/messages] stores has its
    [_id] from the generator, [processed] false, [processed_at] unset and
    [created_at] read from the clock. *)
Theorem undeclared_key_rejected (b : Fields) (w : World) :
  (forall k, In k (keys b) -> ~ In k (keys messageValidation) ->
   exists e,
     post_api_messages Date_parse JSON_parse b w =
       (Ok (mkResponse 400 (VObj [("error", VStr e)])), w))
  /\ (forall k, In k (keys b) -> ~ In k (keys simCardValidation) ->
      exists e,
        post_api_sim_cards Date_parse JSON_parse b w =
          (Ok (mkResponse 400 (VObj [("error", VStr e)])), w))
  /\ (forall m,
        messages (snd (post_api_messages Date_parse JSON_parse b w))
        = (messages w ++ [m])%list ->
        Message._id m = next_oid w
        /\ Message.processed m = false
        /\ Message.processed_at m = None
        /\ (Message.created_at m = clock w (reads w)
            \/ Message.created_at m = clock w (S (reads w)))).
Proof.
  split; [|split].
  - intros k Hk Hun.
    destruct (Joi_validate_unknown messageValidation b k Hk Hun) as [e He].
    exists e. now apply post_api_messages_invalid.
  - intros k Hk Hun.
    destruct (Joi_validate_unknown simCardValidation b k Hk Hun) as [e He].
    exists e. now apply post_api_sim_cards_invalid.
  - intros m Hm.
    destruct (post_api_messages_inserts b w) as [_ [Hsame | (m0 & H0 & Hrest)]].
    + rewrite Hsame in Hm. apply (f_equal (@List.length _)) in Hm.
      rewrite length_app in Hm. simpl in Hm. lia.
    + rewrite H0 in Hm. apply app_inv_head in Hm. injection Hm as ->.
      exact Hrest.
Qed.

(** *** Registering a SIM card *)

Lemma well_formed_sim_card_parts (b : Fields) :
  well_formed_sim_card b = true ->
  (exists sid, lookup "sim_id" b = Some (VStr sid)
               /\ (sid =? "")%string = false)
  /\ (exists ph, lookup "phone_number" b = Some (VStr ph)
                 /\ (ph =? "")%string = false)
  /\ (lookup "carrier" b = None
      \/ exists x, lookup "carrier" b = Some (VStr x)
                   /\ (x =? "")%string = false)
  /\ (lookup "is_active" b = None
      \/ exists a, lookup "is_active" b = Some (VBool a))
  /\ forallb (fun k => mem k (keys simCardValidation)) (keys b) = true.
Proof.
  unfold well_formed_sim_card. intros H.
  apply andb_prop in H. destruct H as [H Hkeys].
  apply andb_prop in H. destruct H as [H Hact].
  apply andb_prop in H. destruct H as [H Hcar].
  apply andb_prop in H. destruct H as [Hsid Hph].
  repeat split.
  - destruct (text_of (lookup "sim_id" b)) as [x|] eqn:E; [|discriminate].
    apply text_of_Some in E. now exists x.
  - destruct (text_of (lookup "phone_number" b)) as [x|] eqn:E;
      [|discriminate].
    apply text_of_Some in E. now exists x.
  - destruct (lookup "carrier" b) as [v|]; [right | now left].
    destruct (text_of (Some v)) as [x|] eqn:E; [|discriminate].
    apply text_of_Some in E. destruct E as [[= ->] E]. now exists x.
  - destruct (lookup "is_active" b) as [[]|]; try discriminate;
      [right; eexists; reflexivity | now left].
  - exact Hkeys.
Qed.

Lemma simCardValidation_accepts (b : Fields) :
  well_formed_sim_card b = true ->
  Joi_validate Date_parse JSON_parse simCardValidation b = inr b.
Proof.
  intros H. apply well_formed_sim_card_parts in H.
  destruct H as ((sid & Es & Es') & (ph & Ep & Ep') & Hcar & Hact & Hkeys).
  unfold Joi_validate. rewrite (no_undeclared_key _ _ Hkeys).
  unfold simCardValidation.
  rewrite (Joi_keys_keep _ _ _ _ _ Es); [|now apply Joi_string_accepts].
  rewrite (Joi_keys_keep _ _ _ _ _ Ep); [|now apply Joi_string_accepts].
  assert (forall rest,
             Joi_keys Date_parse JSON_parse (("carrier", Joi_string) :: rest) b
             = Joi_keys Date_parse JSON_parse rest b) as ->.
  { intros rest. destruct Hcar as [Ec | (x & Ec & Ex)].
    - now apply Joi_keys_skip.
    - apply (Joi_keys_keep _ _ _ _ _ Ec). now apply Joi_string_accepts. }
  destruct Hact as [Ea | (a & Ea)].
  - now rewrite Joi_keys_skip.
  - now rewrite (Joi_keys_keep "is_active" _ _ _ (VBool a)).
Qed.

Lemma SimCard_paths_described (b : Fields) (id : ObjectId) (c1 c2 : Z) :
  well_formed_sim_card b = true ->
  SimCard_paths b id c1 c2 = inr (described_sim_card b id c1 c2).
Proof.
  intros H. apply well_formed_sim_card_parts in H.
  destruct H as ((sid & Es & Es') & (ph & Ep & Ep') & Hcar & Hact & _).
  unfold SimCard_paths, described_sim_card, text, prop.
  rewrite Es, Ep. simpl. rewrite Es', Ep'. simpl.
  destruct Hcar as [-> | (x & -> & Ex)]; simpl;
    destruct Hact as [-> | (a & ->)]; reflexivity.
Qed.

Lemma next_oid_is_fresh_card (w : World) :
  consistent w ->
  existsb (fun x => (SimCard._id x =? next_oid w)%N) (sim_cards w) = false.
Proof.
  intros Hc. destruct (existsb _ _) eqn:E; [|reflexivity].
  apply existsb_exists in E. destruct E as (c & Hin & E).
  apply N.eqb_eq in E.
  pose proof (card_ids_fresh w Hc c Hin). lia.
Qed.

Lemma post_api_sim_cards_registers (b : Fields) (sid : string) (w : World) :
  consistent w -> readyState w = 1 -> well_formed_sim_card b = true ->
  lookup "sim_id" b = Some (VStr sid) ->
  (forall c, In c (sim_cards w) -> SimCard.sim_id c <> sid) ->
  let c := described_sim_card b (next_oid w) (clock w (reads w))
             (clock w (S (reads w))) in
  exists w',
    post_api_sim_cards Date_parse JSON_parse b w
    = (Ok (mkResponse 201
             (VObj [("status", VStr "ok");
                    ("sim_card", SimCard.toJSON c)])),
       w')
    /\ sim_cards w' = (sim_cards w ++ [c])%list
    /\ messages w' = messages w
    /\ readyState w' = 1
    /\ SimCard.sim_id c = sid.
Proof.
  intros Hc R H Es Hnew c.
  assert (existsb (has_sim_id sid) (sim_cards w) = false) as Ex.
  { destruct (existsb _ _) eqn:E; [|reflexivity].
    apply existsb_exists in E. destruct E as (x & Hx & E).
    unfold has_sim_id in E. apply String.eqb_eq in E.
    now apply Hnew in Hx. }
  assert (find (has_sim_id sid) (sim_cards w) = None) as F.
  { destruct (find _ _) as [x|] eqn:F; [|reflexivity].
    apply find_some in F. destruct F as [Hx E].
    unfold has_sim_id in E. apply String.eqb_eq in E.
    now apply Hnew in Hx. }
  assert (text b "sim_id" = sid) as Hsid.
  { unfold text. now rewrite Es. }
  unfold post_api_sim_cards, try_catch.
  rewrite (simCardValidation_accepts b H). unfold prop. rewrite Es.
  unfold SimCard_findOne, bind, connection. rewrite R. simpl. rewrite F.
  unfold new_SimCard, bind, new_ObjectId, Date_now, ret. simpl.
  rewrite (SimCard_paths_described b _ _ _ H). fold c.
  unfold SimCard_save, bind, connection. simpl. rewrite R. simpl.
  rewrite (next_oid_is_fresh_card w Hc), Hsid, Ex. simpl.
  eexists. split; [reflexivity|]. simpl. auto.
Qed.

Lemma post_api_sim_cards_conflict (b : Fields) (sid : string) (c : SimCard.t)
    (w : World) :
  readyState w = 1 -> well_formed_sim_card b = true ->
  lookup "sim_id" b = Some (VStr sid) ->
  In c (sim_cards w) -> SimCard.sim_id c = sid ->
  post_api_sim_cards Date_parse JSON_parse b w
  = (Ok (mkResponse 409
           (VObj [("error", VStr "SIM card already registered")])),
     w).
Proof.
  intros R H Es Hin Hsid.
  assert (exists x, find (has_sim_id sid) (sim_cards w) = Some x) as [x F].
  { destruct (find _ _) as [x|] eqn:F; [now exists x|].
    apply (find_none _ _ F) in Hin. unfold has_sim_id in Hin.
    apply String.eqb_neq in Hin. contradiction. }
  unfold post_api_sim_cards, try_catch.
  rewrite (simCardValidation_accepts b H). unfold prop. rewrite Es.
  unfold SimCard_findOne, bind, connection. rewrite R. simpl. now rewrite F.
Qed.

Lemma sim_card_stays (c : SimCard.t) (trace : list Event) (w : World) :
  In c (sim_cards w) ->
  In c (sim_cards (run Date_parse JSON_parse ObjectId_cast
        Filter_cast Cursor_page trace w)).
Proof.
  apply (invariant_run Date_parse JSON_parse ObjectId_cast
        Filter_cast Cursor_page
           (fun x => In c (sim_cards x))); simpl; auto.
  intros w0 c0 H _ _. apply in_or_app. now left.
Qed.

Lemma filter_none {A : Type} (f : A -> bool) (l : list A) :
  (forall x, In x l -> f x = false) -> List.filter f l = [].
Proof.
  induction l as [|x l IH]; simpl; [reflexivity|].
  intros H. rewrite (H x) by now left. apply IH. auto.
Qed.

Lemma exactly_one_card (l : list SimCard.t) (c : SimCard.t) :
  NoDup (map SimCard.sim_id l) -> In c l ->
  List.filter (has_sim_id (SimCard.sim_id c)) l = [c].
Proof.
  induction l as [|x l IH]; simpl; [tauto|].
  intros Hnd Hin. inversion Hnd as [|? ? Hx Hl]; subst.
  destruct Hin as [-> | Hin].
  - unfold has_sim_id at 1. rewrite String.eqb_refl. f_equal.
    apply filter_none. intros y Hy. unfold has_sim_id.
    apply String.eqb_neq. intros E. apply Hx. rewrite <- E.
    now apply in_map.
  - assert (has_sim_id (SimCard.sim_id c) x = false) as ->.
    { unfold has_sim_id. apply String.eqb_neq. intros E. apply Hx.
      rewrite E. now apply in_map. }
    now apply IH.
Qed.

(** C3.  On a consistent, connected store without a card for [sid], a
    well-formed registration of [sid] is answered 201 with the stored
    record.  After it, whatever else the service does, a well-formed
    registration of the same [sid] is answered 409 with the body
    [{"error": "SIM card already registered"}], writes nothing, and the
    collection holds exactly one card for [sid]; in every state the service
    reaches, no two cards share a [sim_id]. *)
Theorem register_twice (b1 b2 : Fields) (sid : string) (trace : list Event)
    (w : World) :
  consistent w -> readyState w = 1 ->
  well_formed_sim_card b1 = true -> lookup "sim_id" b1 = Some (VStr sid) ->
  well_formed_sim_card b2 = true -> lookup "sim_id" b2 = Some (VStr sid) ->
  (forall c, In c (sim_cards w) -> SimCard.sim_id c <> sid) ->
  let w1 := snd (post_api_sim_cards Date_parse JSON_parse b1 w) in
  let w2 := run Date_parse JSON_parse ObjectId_cast
        Filter_cast Cursor_page trace w1 in
  readyState w2 = 1 ->
  exists c,
    fst (post_api_sim_cards Date_parse JSON_parse b1 w)
    = Ok (mkResponse 201
            (VObj [("status", VStr "ok"); ("sim_card", SimCard.toJSON c)]))
    /\ sim_cards w1 = (sim_cards w ++ [c])%list
    /\ SimCard.sim_id c = sid
    /\ lookup "phone_number" b1 = Some (VStr (SimCard.phone_number c))
    /\ post_api_sim_cards Date_parse JSON_parse b2 w2
       = (Ok (mkResponse 409
                (VObj [("error", VStr "SIM card already registered")])),
          w2)
    /\ List.filter (has_sim_id sid) (sim_cards w2) = [c]
    /\ NoDup (map SimCard.sim_id (sim_cards w2)).
Proof.
  intros Hc R H1 E1 H2 E2 Hnew w1 w2 R2.
  destruct (post_api_sim_cards_registers b1 sid w Hc R H1 E1 Hnew)
    as (w' & E & Hcards & Hmsgs & R' & Hsid).
  set (c := described_sim_card b1 (next_oid w) (clock w (reads w))
              (clock w (S (reads w)))) in *.
  assert (w1 = w') as Hw1 by (subst w1; now rewrite E).
  assert (consistent w1) as Hc1.
  { subst w1.
    apply (consistent_run Date_parse JSON_parse ObjectId_cast
          Filter_cast Cursor_page
             [Serve (POST_api_sim_cards b1)] w Hc). }
  assert (consistent w2) as Hc2 by now apply consistent_run.
  assert (In c (sim_cards w2)) as Hin.
  { apply sim_card_stays. rewrite Hw1, Hcards. apply in_or_app.
    right. now left. }
  exists c. rewrite E. cbn [fst]. split; [reflexivity|].
  split; [now rewrite Hw1|]. split; [exact Hsid|]. split.
  { apply well_formed_sim_card_parts in H1.
    destruct H1 as (_ & (ph & Ep & _) & _).
    subst c. unfold described_sim_card, text. simpl. now rewrite Ep. }
  split; [now apply (post_api_sim_cards_conflict b2 sid c)|].
  split; [|apply Hc2].
  rewrite <- Hsid. apply exactly_one_card; [apply Hc2 | exact Hin].
Qed.

(** *** Listing the messages *)

Lemma cast_filter_app (a b : list (string * QVal)) :
  cast_filter Filter_cast (a ++ b)
  = match cast_filter Filter_cast a with
    | inl e => inl e
    | inr ca =>
        match cast_filter Filter_cast b with
        | inl e => inl e
        | inr cb => inr (ca ++ cb)%list
        end
    end.
Proof.
  induction a as [|[path v] a IH]; simpl.
  - now destruct (cast_filter Filter_cast b).
  - destruct (cast_value Filter_cast path v) as [e|p]; [reflexivity|].
    rewrite IH. destruct (cast_filter Filter_cast a) as [e|ca];
      [reflexivity|].
    now destruct (cast_filter Filter_cast b).
Qed.

(** The condition that a parameter adds to the filter is what the
    parameter selects. *)
Lemma cast_condition (path : string) (p : option QVal) :
  match selects Filter_cast p with
  | Some f =>
      exists conds,
        cast_filter Filter_cast (condition path p) = inr conds
        /\ forall m x, Message.string_path path m = Some x ->
                       matches conds m = f x
  | None =>
      exists e, cast_filter Filter_cast (condition path p) = inl e
  end.
Proof.
  assert (forall (f : string -> bool) m x,
            Message.string_path path m = Some x ->
            matches [(path, f)] m = f x) as One.
  { intros f m x H. unfold matches. cbn [forallb fst snd].
    rewrite H. apply andb_true_r. }
  unfold selects, condition.
  destruct p as [[s|items|fields]|]; cbn [truthy_param].
  - destruct (s =? "")%string eqn:E; cbn [negb].
    + exists []. split; [reflexivity|]. intros m x _. reflexivity.
    + eexists. split; [reflexivity|]. intros m x H.
      now rewrite (One _ m x H).
  - cbn [cast_filter cast_value].
    destruct (strings_of items) as [l|].
    + eexists. split; [reflexivity|]. intros m x H.
      exact (One _ m x H).
    + destruct (Filter_cast (QArr items)) as [f|].
      * eexists. split; [reflexivity|]. intros m x H.
      exact (One _ m x H).
      * eexists. reflexivity.
  - cbn [cast_filter cast_value].
    destruct (Filter_cast (QObj fields)) as [f|].
    + eexists. split; [reflexivity|]. intros m x H.
      exact (One _ m x H).
    + eexists. reflexivity.
  - exists []. split; [reflexivity|]. intros m x _. reflexivity.
Qed.

(** The filter that the handler builds selects the records the query asks
    for, when Mongoose can read it. *)
Lemma cast_query (q : Query) :
  match wanted Filter_cast q with
  | Some sel =>
      exists conds,
        cast_filter Filter_cast
          (condition "sim_id" (lookup "sim_id" q)
           ++ condition "type" (lookup "type" q))
        = inr conds
        /\ forall l : list Message.t,
             List.filter (matches conds) l = List.filter sel l
  | None =>
      exists e,
        cast_filter Filter_cast
          (condition "sim_id" (lookup "sim_id" q)
           ++ condition "type" (lookup "type" q))
        = inl e
  end.
Proof.
  unfold wanted. rewrite cast_filter_app.
  pose proof (cast_condition "sim_id" (lookup "sim_id" q)) as H1.
  pose proof (cast_condition "type" (lookup "type" q)) as H2.
  destruct (selects Filter_cast (lookup "sim_id" q)) as [f|].
  - destruct H1 as (c1 & -> & M1).
    destruct (selects Filter_cast (lookup "type" q)) as [g|].
    + destruct H2 as (c2 & -> & M2). eexists. split; [reflexivity|].
      intros l. apply filter_ext. intros m. unfold matches.
      rewrite forallb_app. fold (matches c1 m). fold (matches c2 m).
      now rewrite (M1 m _ eq_refl), (M2 m _ eq_refl).
    + destruct H2 as (e & ->). now exists e.
  - destruct H1 as (e & ->). exists e.
    now destruct (selects Filter_cast (lookup "type" q)).
Qed.

Lemma insert_desc_perm (m : Message.t) (l : list Message.t) :
  Permutation (insert_desc m l) (m :: l).
Proof.
  induction l as [|x l IH]; simpl; [reflexivity|].
  destruct (Message.timestamp x <=? Message.timestamp m); [reflexivity|].
  rewrite IH. apply perm_swap.
Qed.

Lemma sort_desc_perm (l : list Message.t) : Permutation (sort_desc l) l.
Proof.
  induction l as [|m l IH]; simpl; [reflexivity|].
  rewrite insert_desc_perm. now constructor.
Qed.

Lemma insert_desc_sorted (m : Message.t) (l : list Message.t) :
  StronglySorted newer_first l -> StronglySorted newer_first (insert_desc m l).
Proof.
  induction l as [|x l IH]; simpl; intros Hs.
  - repeat constructor.
  - apply StronglySorted_inv in Hs. destruct Hs as [Hl Hx].
    destruct (Message.timestamp x <=? Message.timestamp m) eqn:E.
    + apply Z.leb_le in E. constructor; [now constructor|].
      constructor; [exact E|].
      eapply Forall_impl; [|exact Hx].
      unfold newer_first. intros y Hy. lia.
    + apply Z.leb_gt in E. constructor; [now apply IH|].
      apply (Permutation_Forall (x := m :: l)).
      * symmetry. apply insert_desc_perm.
      * constructor; [unfold newer_first; lia | exact Hx].
Qed.

Lemma sort_desc_sorted (l : list Message.t) :
  StronglySorted newer_first (sort_desc l).
Proof.
  induction l as [|m l IH]; simpl; [constructor|].
  now apply insert_desc_sorted.
Qed.

Lemma firstn_incl {A : Type} (n : nat) (l : list A) : incl (firstn n l) l.
Proof.
  intros x Hx. rewrite <- (firstn_skipn n l). apply in_or_app. now left.
Qed.

Lemma skipn_incl {A : Type} (n : nat) (l : list A) : incl (skipn n l) l.
Proof.
  intros x Hx. rewrite <- (firstn_skipn n l). apply in_or_app. now right.
Qed.

Lemma skipn_sorted (n : nat) (l : list Message.t) :
  StronglySorted newer_first l -> StronglySorted newer_first (skipn n l).
Proof.
  revert l. induction n as [|n IH]; intros [|x l] Hs; simpl; auto.
  apply IH. now apply StronglySorted_inv in Hs.
Qed.

Lemma firstn_sorted (n : nat) (l : list Message.t) :
  StronglySorted newer_first l -> StronglySorted newer_first (firstn n l).
Proof.
  revert l. induction n as [|n IH]; intros [|x l] Hs; simpl;
    try constructor.
  - apply IH. now apply StronglySorted_inv in Hs.
  - apply StronglySorted_inv in Hs. destruct Hs as [_ Hx].
    rewrite Forall_forall in *. intros y Hy. apply Hx.
    now apply (firstn_incl n l).
Qed.

Lemma window_sorted (s l : Number) (docs page : list Message.t) :
  StronglySorted newer_first docs ->
  window Cursor_page s l docs = inr page ->
  StronglySorted newer_first page /\ incl page docs.
Proof.
  intros Hs. unfold window.
  destruct (page_of Cursor_page s l) as [[n [k|]]|]; [| |discriminate];
    intros [= <-].
  - split; [now apply firstn_sorted, skipn_sorted|].
    intros x Hx. eapply skipn_incl, firstn_incl. exact Hx.
  - split; [now apply skipn_sorted | apply skipn_incl].
Qed.

(** A skip and a limit that are natural numbers below 2^31, the limit not
    0, are read as they stand. *)
Lemma window_regular {A : Type} (s l : Z) (docs : list A) :
  0 <= s < 2147483648 -> 0 < l < 2147483648 ->
  window Cursor_page (Finite s) (Finite l) docs
  = inr (firstn (Z.to_nat l) (skipn (Z.to_nat s) docs)).
Proof.
  intros Hs Hl. unfold window, page_of, regular.
  assert ((0 <=? s) = true) as -> by now apply Z.leb_le.
  assert ((s <? 2147483648) = true) as -> by now apply Z.ltb_lt.
  assert ((0 <=? l) = true) as -> by (apply Z.leb_le; lia).
  assert ((l <? 2147483648) = true) as -> by now apply Z.ltb_lt.
  assert ((l =? 0) = false) as -> by (apply Z.eqb_neq; lia).
  reflexivity.
Qed.

Lemma get_api_messages_eval (q : Query) (w : World) :
  get_api_messages Filter_cast Cursor_page q w =
    (Ok (match (if readyState w =? 1 then wanted Filter_cast q
                else None) with
         | Some sel =>
             match window Cursor_page (requested_skip q) (requested_limit q)
                     (sort_desc (List.filter sel (messages w))) with
             | inr page =>
                 messages_page page
                   (List.length (List.filter sel (messages w)))
             | inl _ => internal_error_response
             end
         | None => internal_error_response
         end), w).
Proof.
  unfold get_api_messages, try_catch, Message_find, Message_countDocuments.
  cbv zeta. unfold bind, connection.
  assert (parseInt (param_or 0 (lookup "skip" q)) = requested_skip q) as ->.
  { unfold requested_skip. now destruct (lookup "skip" q). }
  assert (parseInt (param_or 100 (lookup "limit" q)) = requested_limit q)
    as ->.
  { unfold requested_limit. now destruct (lookup "limit" q). }
  destruct (readyState w =? 1) eqn:R; [|reflexivity].
  cbn beta iota. pose proof (cast_query q) as C.
  destruct (wanted Filter_cast q) as [sel|].
  - destruct C as (conds & -> & F). rewrite !F.
    destruct (window _ _ _ _); cbn beta iota; [reflexivity|].
    rewrite R. cbn beta iota. now rewrite F.
  - destruct C as (e & ->). reflexivity.
Qed.

(** C4.  [GET /api/messages] never changes the world and always answers,
    200 or 500.  [limit] defaults to 100 and [skip] to 0.  A filter
    parameter that is absent or empty selects every record, one that is a
    string selects the records that hold that string, one that is an array
    of strings those that hold one of them; the records asked for are those
    that both [sim_id] and [type] select.  On a connected store, with a
    skip [s] and a limit [l > 0] below 2^31, the answer is 200 and lists
    the [l] records that follow the first [s] in the order of descending
    timestamp, [count] is the number of records listed and [total] the
    number of records asked for.  Every answer 200, whatever the
    parameters, lists records asked for in descending timestamp order with
    the same [count] and [total]. *)
Theorem get_messages_answer (q : Query) (w : World) :
  snd (get_api_messages Filter_cast Cursor_page q w) = w
  /\ (exists r,
        answer (get_api_messages Filter_cast Cursor_page q w) = Some r
        /\ (status r = 200 \/ r = internal_error_response))
  /\ (lookup "limit" q = None -> requested_limit q = Finite 100)
  /\ (lookup "skip" q = None -> requested_skip q = Finite 0)
  /\ (forall k f,
        lookup k q = None \/ lookup k q = Some (QStr "") ->
        selects Filter_cast (lookup k q) = Some f ->
        forall x, f x = true)
  /\ (forall k s f,
        lookup k q = Some (QStr s) -> s <> "" ->
        selects Filter_cast (lookup k q) = Some f ->
        forall x, f x = true <-> x = s)
  /\ (forall k items l f,
        lookup k q = Some (QArr items) -> strings_of items = Some l ->
        selects Filter_cast (lookup k q) = Some f ->
        forall x, f x = true <-> In x l)
  /\ (forall f g,
        selects Filter_cast (lookup "sim_id" q) = Some f ->
        selects Filter_cast (lookup "type" q) = Some g ->
        let asked :=
          List.filter (fun m => (f (Message.sim_id m)
                                 && g (Message.type m))%bool)
                      (messages w) in
        (forall m, In m asked <->
                   In m (messages w)
                   /\ f (Message.sim_id m) = true
                   /\ g (Message.type m) = true)
        /\ Permutation (sort_desc asked) asked
        /\ StronglySorted newer_first (sort_desc asked)
        /\ (forall s l,
              readyState w = 1 ->
              requested_skip q = Finite s -> 0 <= s < 2147483648 ->
              requested_limit q = Finite l -> 0 < l < 2147483648 ->
              fst (get_api_messages Filter_cast Cursor_page q w)
              = Ok (messages_page
                      (firstn (Z.to_nat l)
                         (skipn (Z.to_nat s) (sort_desc asked)))
                      (List.length asked)))
        /\ (forall r,
              answer (get_api_messages Filter_cast Cursor_page q w) = Some r ->
              status r = 200 ->
              exists page,
                r = messages_page page (List.length asked)
                /\ StronglySorted newer_first page
                /\ incl page asked))
  /\ (forall r,
        answer (get_api_messages Filter_cast Cursor_page q w) = Some r ->
        status r = 200 ->
        readyState w = 1
        /\ exists f g,
             selects Filter_cast (lookup "sim_id" q) = Some f
             /\ selects Filter_cast (lookup "type" q) = Some g).
Proof.
  rewrite get_api_messages_eval. unfold answer. cbn [fst snd].
  split; [reflexivity|].
  split.
  { eexists. split; [reflexivity|].
    destruct (if readyState w =? 1 then _ else _) as [sel|];
      [|now right].
    destruct (window _ _ _ _); [now right | now left]. }
  split; [unfold requested_limit; now intros ->|].
  split; [unfold requested_skip; now intros ->|].
  split.
  { intros k f [-> | ->]; intros [= <-] x; reflexivity. }
  split.
  { intros k s f -> Hs [= <-] x.
    apply String.eqb_neq in Hs. rewrite Hs. apply String.eqb_eq. }
  split.
  { intros k items l f -> Hl. cbn [selects]. rewrite Hl.
    intros [= <-] x. apply mem_In. }
  split.
  - intros f g Hf Hg. unfold wanted. rewrite Hf, Hg.
    set (asked := List.filter _ (messages w)).
    split.
    { intros m. subst asked. rewrite filter_In, andb_true_iff. tauto. }
    split; [apply sort_desc_perm|].
    split; [apply sort_desc_sorted|].
    split.
    + intros s l R Hs Hs0 Hl Hl0. rewrite R, Hs, Hl.
      cbn [Z.eqb Pos.eqb]. now rewrite window_regular.
    + intros r Hr S200.
      destruct (readyState w =? 1); [|injection Hr as <-; discriminate].
      destruct (window _ _ _ _) as [e|page] eqn:W;
        injection Hr as <-; [discriminate|].
      exists page. split; [reflexivity|].
      destruct (window_sorted _ _ _ _ (sort_desc_sorted asked) W)
        as [H1 H2].
      split; [exact H1|].
      intros x Hx. apply H2 in Hx.
      now apply (Permutation_in _ (sort_desc_perm asked)).
  - intros r Hr S200.
    destruct (readyState w =? 1) eqn:R;
      [|injection Hr as <-; discriminate].
    split; [now apply Z.eqb_eq|].
    unfold wanted in Hr.
    destruct (selects Filter_cast (lookup "sim_id" q)) as [f|];
      [|injection Hr as <-; discriminate].
    destruct (selects Filter_cast (lookup "type" q)) as [g|];
      [|injection Hr as <-; discriminate].
    now exists f, g.
Qed.

(** *** The processed flag along the life of the service *)

Lemma put_api_messages_processed_marks (id : string) (w : World) :
  let w' := snd (put_api_messages_processed ObjectId_cast id w) in
  messages w' = messages w
  \/ exists oid,
       messages w'
       = update_first oid (Message.set_processed (clock w (reads w)))
                      (messages w).
Proof.
  destruct (ObjectId_cast id) as [oid|] eqn:C.
  2:{ rewrite (put_malformed id w C). now left. }
  destruct (Z.eq_dec (readyState w) 1) as [R|R].
  2:{ rewrite (put_disconnected id oid w C R). now left. }
  destruct (find (has_id oid) (messages w)) as [m|] eqn:F.
  - rewrite (put_known id oid m w C R F). right. now exists oid.
  - rewrite (put_unknown id oid w C R F). now left.
Qed.

Lemma other_requests_keep_messages (r : Request) (w : World) :
  writes_messages r = false ->
  messages (snd (route Date_parse JSON_parse ObjectId_cast
        Filter_cast Cursor_page r w)) = messages w.
Proof.
  intros Hr.
  apply (triple_final (fun x => messages x = messages w)
           (route Date_parse JSON_parse ObjectId_cast Filter_cast Cursor_page r)
           (fun x => messages x = messages w) w); [|reflexivity].
  destruct r; try discriminate; simpl.
  - now apply keeps_get_health.
  - apply keeps_get_api_messages.
  - apply keeps_get_api_sim_cards.
  - now apply keeps_post_api_sim_cards.
  - now apply keeps_get_api_simakohost_status.
  - now apply keeps_post_api_simakohost_send_sms.
  - apply keeps_respond.
Qed.

(** C5.  In every record, [processed_at] is set exactly when [processed] is
    true: the property is kept by every request and by every change of the
    connection, so it holds after every sequence of them.  The ingestion
    stores [processed] false with [processed_at] unset, marking a record
    sets the two together, and no other request changes a record. *)
Theorem processed_flag_invariant (trace : list Event) (w : World) :
  processed_inv w ->
  (forall m,
     In m (messages (run Date_parse JSON_parse ObjectId_cast
           Filter_cast Cursor_page trace w)) ->
     (Message.processed_at m <> None <-> Message.processed m = true))
  /\ (forall b,
        let w' := snd (post_api_messages Date_parse JSON_parse b w) in
        messages w' = messages w
        \/ exists m, messages w' = (messages w ++ [m])%list
                     /\ Message.processed m = false
                     /\ Message.processed_at m = None)
  /\ (forall id,
        let w' := snd (put_api_messages_processed ObjectId_cast id w) in
        messages w' = messages w
        \/ exists oid t,
             messages w'
             = update_first oid (Message.set_processed t) (messages w)
             /\ forall x, Message.processed (Message.set_processed t x) = true
                          /\ Message.processed_at (Message.set_processed t x)
                             = Some t)
  /\ (forall r,
        writes_messages r = false ->
        messages (snd (route Date_parse JSON_parse ObjectId_cast
              Filter_cast Cursor_page r w))
        = messages w).
Proof.
  intros Hw. split; [|split; [|split]].
  - apply (processed_inv_run Date_parse JSON_parse ObjectId_cast
        Filter_cast Cursor_page trace w Hw).
  - intros b.
    destruct (post_api_messages_inserts b w)
      as [_ [H | (m & H1 & _ & H2 & H3 & _)]]; [now left|].
    right. now exists m.
  - intros id.
    destruct (put_api_messages_processed_marks id w) as [H | (oid & H)];
      [now left|].
    right. exists oid, (clock w (reads w)). split; [exact H|].
    intros x. split; reflexivity.
  - intros r Hr. now apply other_requests_keep_messages.
Qed.

End Claims.

(** ** The handlers on concrete requests *)

Lemma consistent_world0 : consistent world0.
Proof.
  constructor; simpl; try tauto; try constructor.
  intros i j H. unfold world0. cbn [clock]. lia.
Qed.

Lemma consistent_world1 : consistent world1.
Proof.
  exact (consistent_run no_parse no_parse hex24 no_cast no_page
           [Serve (POST_api_messages hello_payload)] world0
           consistent_world0).
Qed.

Lemma consistent_world2 : consistent world2.
Proof.
  exact (consistent_run no_parse no_parse hex24 no_cast no_page
           [Serve (PUT_api_messages_processed id0)] world1
           consistent_world1).
Qed.

(** C1: a payload with the four required keys, a call whose [message] is
    the empty string, is answered 400. *)
Lemma post_messages_rejects_empty_message :
  lookup "sim_id" call_payload = Some (VStr "SIM001")
  /\ lookup "type" call_payload = Some (VStr "call")
  /\ lookup "from" call_payload = Some (VStr "+1234567890")
  /\ lookup "message" call_payload = Some (VStr "")
  /\ option_map status
       (answer (post_api_messages no_parse no_parse call_payload world0))
     = Some 400.
Proof. repeat split. Qed.

Lemma post_messages_answer_witness :
  (consistent world0 /\ readyState world0 = 1
   /\ well_formed_message no_parse no_parse hello_payload = true
   /\ exists r,
        answer (post_api_messages no_parse no_parse hello_payload world0)
        = Some r
        /\ status r = 201
        /\ field r "received" = Message.toJSON hello_message)
  /\ (lookup "type" no_type_payload = None
      /\ exists e,
           post_api_messages no_parse no_parse no_type_payload world0
           = (Ok (mkResponse 400 (VObj [("error", VStr e)])), world0)).
Proof.
  split.
  - split; [exact consistent_world0|]. split; [reflexivity|].
    split; [reflexivity|].
    destruct (proj1 (post_messages_answer no_parse no_parse hello_payload
                       world0) consistent_world0 eq_refl eq_refl)
      as (r & m & H1 & H2 & _ & H3 & H4 & _).
    exists r. split; [exact H1|]. split; [exact H2|].
    rewrite H3. f_equal.
    assert (In m (messages world1)) as Hm.
    { unfold world1. rewrite H4. apply in_or_app. right. now left. }
    simpl in Hm. destruct Hm as [<- | []]. reflexivity.
  - split; [reflexivity|].
    apply (proj2 (post_messages_answer no_parse no_parse no_type_payload
                    world0)).
    left. exists "type". split; [simpl; auto | left; reflexivity].
Defined.

(** C2: the store holds no record at all, the id ["abc"] is not a
    well-formed ObjectId, and the answer is 500, not 404. *)
Lemma put_processed_malformed_is_500 :
  messages world0 = []
  /\ hex24 "abc" = None
  /\ option_map status (answer (put_api_messages_processed hex24 "abc" world0))
     = Some 500.
Proof. repeat split. Qed.

Lemma put_processed_answer_witness :
  consistent world1 /\ readyState world1 = 1
  /\ hex24 id0 = Some 0%N /\ hex24 id1 = Some 1%N /\ hex24 "abc" = None
  /\ (exists r,
        answer (put_api_messages_processed hex24 "abc" world1) = Some r
        /\ status r = 500)
  /\ (exists r,
        answer (put_api_messages_processed hex24 id1 world1) = Some r
        /\ status r = 404)
  /\ (exists r m',
        answer (put_api_messages_processed hex24 id0 world1) = Some r
        /\ status r = 200
        /\ In m' (messages world2)
        /\ Message.processed m' = true
        /\ Message.created_at m' <= 1700000000002).
Proof.
  split; [exact consistent_world1|]. split; [reflexivity|].
  split; [reflexivity|]. split; [reflexivity|]. split; [reflexivity|].
  split; [|split].
  - destruct (proj1 (put_processed_answer no_parse no_parse hex24 no_cast
                       no_page "abc" world1) (or_introl eq_refl))
      as (r & H1 & H2 & _).
    exists r. auto.
  - destruct (proj1 (proj1 (proj2 (put_processed_answer no_parse no_parse
                                     hex24 no_cast no_page id1 world1))
                       1%N eq_refl eq_refl consistent_world1))
      as (r & H1 & H2 & _).
    + intros m [<- | []]. discriminate.
    + exists r. auto.
  - destruct (proj2 (proj1 (proj2 (put_processed_answer no_parse no_parse
                                     hex24 no_cast no_page id0 world1))
                       0%N eq_refl eq_refl consistent_world1)
                hello_message (or_introl eq_refl) eq_refl)
      as (r & m' & H1 & H2 & _ & H3 & _ & _ & H4 & _ & H5 & _).
    exists r, m'. auto.
Defined.

Lemma register_twice_witness :
  consistent world0 /\ readyState world0 = 1
  /\ well_formed_sim_card sim001_payload = true
  /\ exists c,
       sim_cards (snd (post_api_sim_cards no_parse no_parse sim001_payload
                         world0)) = [c]
       /\ post_api_sim_cards no_parse no_parse sim001_payload
            (run no_parse no_parse hex24 no_cast no_page
               [Serve (POST_api_messages hello_payload)]
               (snd (post_api_sim_cards no_parse no_parse sim001_payload
                       world0)))
          = (Ok (mkResponse 409
                   (VObj [("error", VStr "SIM card already registered")])),
             run no_parse no_parse hex24 no_cast no_page
               [Serve (POST_api_messages hello_payload)]
               (snd (post_api_sim_cards no_parse no_parse sim001_payload
                       world0))).
Proof.
  split; [exact consistent_world0|]. split; [reflexivity|].
  split; [reflexivity|].
  destruct (register_twice no_parse no_parse hex24
        no_cast no_page sim001_payload
              sim001_payload "SIM001"
              [Serve (POST_api_messages hello_payload)] world0
              consistent_world0 eq_refl eq_refl eq_refl eq_refl eq_refl)
    as (c & _ & H2 & _ & _ & H5 & _).
  - intros c [].
  - reflexivity.
  - exists c. split; [exact H2 | exact H5].
Defined.

Lemma get_messages_answer_witness :
  readyState world1 = 1
  /\ requested_skip [("sim_id", QStr "SIM001"); ("limit", QStr "1")]
     = Finite 0
  /\ requested_limit [("sim_id", QStr "SIM001"); ("limit", QStr "1")]
     = Finite 1
  /\ fst (get_api_messages no_cast no_page
            [("sim_id", QStr "SIM001"); ("limit", QStr "1")] world1)
     = Ok (messages_page [hello_message] 1)
  /\ fst (get_api_messages no_cast no_page
            [("type", QArr [QStr "call"; QStr "sms"])] world1)
     = Ok (messages_page [hello_message] 1).
Proof.
  split; [reflexivity|]. split; [reflexivity|]. split; [reflexivity|].
  split.
  - destruct (get_messages_answer no_cast no_page
                [("sim_id", QStr "SIM001"); ("limit", QStr "1")] world1)
      as (_ & _ & _ & _ & _ & _ & _ & H & _).
    destruct (H _ _ eq_refl eq_refl) as (_ & _ & _ & P & _).
    rewrite (P 0 1 eq_refl eq_refl (conj (Z.le_refl 0) eq_refl) eq_refl
               (conj eq_refl eq_refl)).
    reflexivity.
  - destruct (get_messages_answer no_cast no_page
                [("type", QArr [QStr "call"; QStr "sms"])] world1)
      as (_ & _ & _ & _ & _ & _ & _ & H & _).
    destruct (H _ _ eq_refl eq_refl) as (_ & _ & _ & P & _).
    rewrite (P 0 100 eq_refl eq_refl (conj (Z.le_refl 0) eq_refl) eq_refl
               (conj eq_refl eq_refl)).
    reflexivity.
Defined.

Lemma processed_inv_world0 : processed_inv world0.
Proof. intros m []. Qed.

Lemma processed_flag_invariant_witness :
  processed_inv world0
  /\ forall m,
       In m (messages (run no_parse no_parse hex24 no_cast no_page
                         [Serve (POST_api_messages hello_payload);
                          Serve (PUT_api_messages_processed id0)] world0)) ->
       (Message.processed_at m <> None <-> Message.processed m = true).
Proof.
  split; [exact processed_inv_world0|].
  exact (proj1 (processed_flag_invariant no_parse no_parse hex24 no_cast no_page
                  [Serve (POST_api_messages hello_payload);
                   Serve (PUT_api_messages_processed id0)] world0
                  processed_inv_world0)).
Defined.

(** C6: the three fields are present, [sim_id] with an empty value, and the
    answer is 400. *)
Lemma send_sms_present_but_empty :
  lookup "sim_id" sms_empty_sim_id = Some (VStr "")
  /\ lookup "to" sms_empty_sim_id = Some (VStr "+1234567890")
  /\ lookup "message" sms_empty_sim_id = Some (VStr "hello")
  /\ option_map status
       (answer (post_api_simakohost_send_sms sms_empty_sim_id world0))
     = Some 400.
Proof. repeat split. Qed.

Lemma send_sms_answer_witness :
  (truthy (prop sms_without_sim_id "sim_id") = false
   /\ option_map status
        (answer (post_api_simakohost_send_sms sms_without_sim_id world0))
      = Some 400)
  /\ (truthy (prop sms_payload "sim_id") = true
      /\ truthy (prop sms_payload "to") = true
      /\ truthy (prop sms_payload "message") = true
      /\ option_map status
           (answer (post_api_simakohost_send_sms sms_payload world0))
         = Some 202).
Proof.
  split.
  - split; [reflexivity|].
    rewrite (proj1 (send_sms_answer sms_without_sim_id world0) "sim_id");
      [reflexivity | simpl; auto | reflexivity].
  - split; [reflexivity|]. split; [reflexivity|]. split; [reflexivity|].
    destruct (proj2 (send_sms_answer sms_payload world0)) as (E & _);
      [reflexivity | reflexivity | reflexivity |].
    rewrite E. reflexivity.
Defined.

Lemma put_processed_again_witness :
  consistent world2 /\ readyState world2 = 1 /\ hex24 id0 = Some 0%N
  /\ In (Message.set_processed 1700000000002 hello_message) (messages world2)
  /\ (exists r,
        answer (put_api_messages_processed hex24 id0 world2) = Some r
        /\ status r = 200
        /\ field r "data"
           = Message.toJSON (restamp 1700000000003
                               (Message.set_processed 1700000000002
                                                      hello_message)))
  /\ In (restamp 1700000000003
           (Message.set_processed 1700000000002 hello_message))
        (messages (snd (put_api_messages_processed hex24 id0 world2))).
Proof.
  split; [exact consistent_world2|]. split; [reflexivity|].
  split; [reflexivity|]. split; [now left|].
  destruct (put_processed_again hex24 id0 0%N
              (Message.set_processed 1700000000002 hello_message) world2
              consistent_world2 eq_refl eq_refl (or_introl eq_refl)
              eq_refl eq_refl)
    as ((r & H1 & H2 & H3) & _ & _ & H4 & _).
  split; [exists r; auto | exact H4].
Defined.

(** C8: the answer of [GET /health] has no key [store]; the connectivity
    flag is under [mongodb]. *)
Lemma get_health_has_no_store_key :
  option_map status (answer (get_health world0)) = Some 200
  /\ option_map (fun r => field r "store") (answer (get_health world0))
     = Some VUndefined
  /\ option_map (fun r => field r "mongodb") (answer (get_health world0))
     = Some (VStr "connected").
Proof. repeat split. Qed.

Lemma get_health_answer_witness :
  exists r,
    fst (get_health (with_readyState 0 world0)) = Ok r
    /\ status r = 200
    /\ field r "mongodb" = VStr "disconnected".
Proof.
  destruct (get_health_answer (with_readyState 0 world0))
    as (r & H1 & H2 & _ & _ & _ & _ & H3 & _).
  exists r. split; [exact H1|]. split; [exact H2|].
  apply H3. discriminate.
Defined.

Lemma undeclared_key_rejected_witness :
  In "processed" (keys processed_payload)
  /\ ~ In "processed" (keys messageValidation)
  /\ exists e,
       post_api_messages no_parse no_parse processed_payload world0
       = (Ok (mkResponse 400 (VObj [("error", VStr e)])), world0).
Proof.
  assert (In "processed" (keys processed_payload)) as H1
    by (simpl; auto 10).
  assert (~ In "processed" (keys messageValidation)) as H2
    by (simpl; intuition discriminate).
  split; [exact H1|]. split; [exact H2|].
  exact (proj1 (undeclared_key_rejected no_parse no_parse processed_payload
                  world0) "processed" H1 H2).
Defined.

Lemma put_processed_malformed_id_witness :
  hex24 "abc" = None
  /\ (exists r,
        answer (put_api_messages_processed hex24 "abc" world1) = Some r
        /\ status r = 500
        /\ messages (snd (put_api_messages_processed hex24 "abc" world1))
           = messages world1)
  /\ (exists oid, hex24 id1 = Some oid
                  /\ forall m, In m (messages world1) ->
                               Message._id m <> oid).
Proof.
  split; [reflexivity|]. split.
  - destruct (proj1 (put_processed_malformed_id hex24 "abc" world1) eq_refl)
      as (r & H1 & H2 & _ & H3 & _).
    exists r. auto.
  - exact (proj2 (put_processed_malformed_id hex24 id1 world1)
             (mkResponse 404 (VObj [("error", VStr "Message not found")]))
             eq_refl eq_refl).
Defined.

(** ** Further properties of the handlers *)

Section Further.

Variable Date_parse : string -> option Z.
Variable JSON_parse : string -> option JsVal.

#[local] Set Default Proof Using "Type".

(** *** What Joi lets through *)

Lemma Joi_value_conforms (s : JoiSchema) (k : string) (v v' : JsVal) :
  Joi_value Date_parse JSON_parse s k v = inr v' -> conforms s v' = true.
Proof.
  unfold Joi_value, conforms.
  destruct (valid s) as [|x xs].
  - destruct (base s), v; try discriminate;
      repeat (break_match; try discriminate);
      intros [= <-]; try reflexivity.
    now rewrite Heqb.
  - destruct v; try discriminate.
    destruct (mem s0 (x :: xs)) eqn:E; [|discriminate].
    now intros [= <-].
Qed.

Lemma Joi_keys_sound (schema : list (string * JoiSchema)) (o value : Fields) :
  NoDup (keys schema) ->
  Joi_keys Date_parse JSON_parse schema o = inr value ->
  (forall k s, In (k, s) schema ->
     match lookup k value with
     | Some v => conforms s v = true
     | None => required s = false
     end)
  /\ (forall k, ~ In k (keys schema) -> lookup k value = lookup k o).
Proof.
  revert o. induction schema as [|[k0 s0] schema IH]; simpl; intros o Hnd H.
  - injection H as <-. split; [tauto | reflexivity].
  - inversion Hnd as [|? ? Hk0 Hrest]; subst.
    destruct (lookup k0 o) as [v0|] eqn:L.
    + destruct (Joi_value _ _ s0 k0 v0) as [e|v'] eqn:V; [discriminate|].
      destruct (IH _ Hrest H) as [IH1 IH2]. split.
      * intros k s [[= -> ->] | Hin]; [|now apply IH1].
        rewrite (IH2 k Hk0), lookup_assign_same.
        now apply (Joi_value_conforms _ _ _ _ V).
      * intros k Hk. rewrite IH2 by tauto.
        apply lookup_assign_other. tauto.
    + destruct (required s0) eqn:R; [discriminate|].
      destruct (IH _ Hrest H) as [IH1 IH2]. split.
      * intros k s [[= -> ->] | Hin]; [|now apply IH1].
        now rewrite (IH2 k Hk0), L.
      * intros k Hk. apply IH2. tauto.
Qed.

Lemma Joi_validate_sound (schema : list (string * JoiSchema))
    (o value : Fields) :
  NoDup (keys schema) ->
  Joi_validate Date_parse JSON_parse schema o = inr value ->
  forall k s, In (k, s) schema ->
    match lookup k value with
    | Some v => conforms s v = true
    | None => required s = false
    end.
Proof.
  unfold Joi_validate. intros Hnd H.
  destruct (Joi_keys _ _ schema o) as [e|value'] eqn:K; [discriminate|].
  destruct (find _ _); [discriminate|]. injection H as <-.
  now apply (Joi_keys_sound schema o value' Hnd K).
Qed.


Lemma lookup_undeclared {A : Type} (k : string) (l : list (string * A)) :
  ~ In k (keys l) -> lookup k l = None.
Proof.
  clear Date_parse JSON_parse.
  induction l as [|[k' v] l IH]; simpl; [reflexivity|].
  intros H. destruct (k' =? k)%string eqn:E.
  - apply String.eqb_eq in E. tauto.
  - apply IH. tauto.
Qed.

Lemma Joi_keys_lookup (schema : list (string * JoiSchema)) (o value : Fields) :
  NoDup (keys schema) ->
  Joi_keys Date_parse JSON_parse schema o = inr value ->
  forall k, lookup k value = converted Date_parse JSON_parse schema o k.
Proof.
  unfold converted.
  revert o. induction schema as [|[k0 s0] schema IH]; simpl; intros o Hnd H k.
  - injection H as <-. now destruct (lookup k o).
  - inversion Hnd as [|? ? Hk0 Hrest]; subst.
    destruct (lookup k0 o) as [v0|] eqn:L.
    + destruct (Joi_value _ _ s0 k0 v0) as [e|v'] eqn:V; [discriminate|].
      rewrite (IH _ Hrest H k).
      destruct (k0 =? k)%string eqn:E.
      * apply String.eqb_eq in E. subst k.
        rewrite lookup_assign_same, L, V.
        now rewrite (lookup_undeclared k0 schema Hk0).
      * apply String.eqb_neq in E. now rewrite lookup_assign_other.
    + destruct (required s0); [discriminate|].
      rewrite (IH _ Hrest H k).
      destruct (k0 =? k)%string eqn:E; [|reflexivity].
      apply String.eqb_eq in E. subst k. now rewrite L.
Qed.

Lemma Joi_validate_lookup (schema : list (string * JoiSchema))
    (o value : Fields) :
  NoDup (keys schema) ->
  Joi_validate Date_parse JSON_parse schema o = inr value ->
  forall k, lookup k value = converted Date_parse JSON_parse schema o k.
Proof.
  unfold Joi_validate. intros Hnd H.
  destruct (Joi_keys _ _ schema o) as [e|value'] eqn:K; [discriminate|].
  destruct (find _ _); [discriminate|]. injection H as <-.
  now apply Joi_keys_lookup.
Qed.

(** The paths of a validated message payload. *)
Lemma validated_message_paths (b value : Fields) :
  Joi_validate Date_parse JSON_parse messageValidation b = inr value ->
  (exists x, prop value "sim_id" = VStr x /\ (x =? "")%string = false)
  /\ (exists x, prop value "type" = VStr x /\ mem x ["sms"; "call"] = true)
  /\ (exists x, prop value "from" = VStr x /\ (x =? "")%string = false)
  /\ (prop value "to" = VUndefined \/ exists x, prop value "to" = VStr x)
  /\ (exists x, prop value "message" = VStr x /\ (x =? "")%string = false)
  /\ (prop value "timestamp" = VUndefined
      \/ exists t, prop value "timestamp" = VDate t).
Proof.
  intros V.
  pose proof (Joi_validate_sound _ _ _ messageValidation_keys_NoDup V) as S.
  assert (forall k, In (k, Joi_required Joi_string) messageValidation ->
            exists x, prop value k = VStr x /\ (x =? "")%string = false) as R.
  { intros k Hk. specialize (S _ _ Hk). unfold prop.
    destruct (lookup k value) as [v|]; [|discriminate].
    unfold conforms in S. simpl in S. destruct v; try discriminate.
    exists s. split; [reflexivity | now apply negb_true_iff]. }
  split; [apply R; unfold messageValidation; simpl; auto 10|].
  split.
  { specialize (S "type" _ (or_intror (or_introl eq_refl))). unfold prop.
    destruct (lookup "type" value) as [v|]; [|discriminate].
    unfold conforms in S. simpl valid in S. cbv iota in S.
    destruct v; try discriminate. now exists s. }
  split; [apply R; unfold messageValidation; simpl; auto 10|].
  split.
  { assert (In ("to", Joi_string) messageValidation) as Hk
      by (unfold messageValidation; simpl; auto 10).
    specialize (S _ _ Hk). unfold prop.
    destruct (lookup "to" value) as [v|]; [right | now left].
    unfold conforms in S. simpl in S. destruct v; try discriminate.
    now exists s. }
  split; [apply R; unfold messageValidation; simpl; auto 10|].
  assert (In ("timestamp", Joi_date) messageValidation) as Hk
    by (unfold messageValidation; simpl; auto 10).
  specialize (S _ _ Hk). unfold prop.
  destruct (lookup "timestamp" value) as [v|]; [right | now left].
  unfold conforms in S. simpl in S. destruct v; try discriminate.
  now exists t.
Qed.

Lemma Message_paths_succeeds (obj : Fields) (id : ObjectId) (ts created : Z) :
  (exists x, prop obj "sim_id" = VStr x /\ (x =? "")%string = false) ->
  (exists x, prop obj "type" = VStr x /\ mem x ["sms"; "call"] = true) ->
  (exists x, prop obj "from" = VStr x /\ (x =? "")%string = false) ->
  (prop obj "to" = VUndefined \/ exists x, prop obj "to" = VStr x) ->
  (exists x, prop obj "message" = VStr x /\ (x =? "")%string = false) ->
  exists m, Message_paths obj id (inr ts) created = inr m.
Proof.
  clear Date_parse JSON_parse.
  intros (sid & Hs & Es) (ty & Ht & Et) (fr & Hf & Ef) Hto (ms & Hm & Em).
  unfold Message_paths. rewrite Hs, Ht, Hf, Hm. simpl.
  rewrite Es, Ef, Em. simpl.
  assert ((ty =? "")%string = false) as ->.
  { destruct ty; [discriminate | reflexivity]. }
  simpl. unfold path_enum. rewrite Et. simpl.
  destruct Hto as [Hto | (x & Hto)]; rewrite Hto; simpl; eexists;
    reflexivity.
Qed.

Lemma post_api_messages_stores (b value : Fields) (w : World) :
  Joi_validate Date_parse JSON_parse messageValidation b = inr value ->
  consistent w -> readyState w = 1 ->
  exists m w',
    post_api_messages Date_parse JSON_parse b w
    = (Ok (mkResponse 201
             (VObj [("status", VStr "ok");
                    ("message_id", VObjectId (Message._id m));
                    ("received", Message.toJSON m)])),
       w')
    /\ messages w' = (messages w ++ [m])%list
    /\ sim_cards w' = sim_cards w
    /\ Message._id m = next_oid w
    /\ readyState w' = readyState w
    /\ exists ts created,
         Message_paths (assign "timestamp" (VDate ts) value) (next_oid w)
           (inr ts) created = inr m.
Proof.
  intros V Hc R.
  pose proof (next_oid_is_fresh w Hc) as Fr.
  destruct (validated_message_paths b value V)
    as (Hsid & Hty & Hfr & Hto & Hms & Hts).
  unfold post_api_messages, try_catch. rewrite V. unfold bind at 1.
  destruct Hts as [Ets | (t & Ets)]; rewrite Ets; simpl.
  - unfold new_Message, bind, new_ObjectId, Date_now, ret.
    rewrite prop_assign_same. simpl.
    destruct (Message_paths_succeeds
                (assign "timestamp" (VDate (clock w (reads w))) value)
                (next_oid w) (clock w (reads w)) (clock w (S (reads w))))
      as [m Hm];
      try (rewrite prop_assign_other by discriminate; assumption).
    rewrite Hm. pose proof (Message_paths_built _ _ _ _ _ Hm) as (Hid & _).
    unfold Message_save, bind, connection. simpl.
    rewrite R. simpl. rewrite Hid, Fr. simpl.
    eexists. eexists. split; [reflexivity|]. simpl. rewrite Hid.
    repeat (split; [reflexivity || (simpl; congruence)|]).
    eexists. eexists. exact Hm.
  - unfold new_Message, bind, new_ObjectId, Date_now, ret.
    rewrite prop_assign_same. simpl.
    destruct (Message_paths_succeeds
                (assign "timestamp" (VDate t) value)
                (next_oid w) t (clock w (reads w)))
      as [m Hm];
      try (rewrite prop_assign_other by discriminate; assumption).
    rewrite Hm. pose proof (Message_paths_built _ _ _ _ _ Hm) as (Hid & _).
    unfold Message_save, bind, connection. simpl.
    rewrite R. simpl. rewrite Hid, Fr. simpl.
    eexists. eexists. split; [reflexivity|]. simpl. rewrite Hid.
    repeat (split; [reflexivity || (simpl; congruence)|]).
    eexists. eexists. exact Hm.
Qed.

Lemma post_api_messages_store_down (b value : Fields) (w : World) :
  Joi_validate Date_parse JSON_parse messageValidation b = inr value ->
  readyState w <> 1 ->
  exists w',
    post_api_messages Date_parse JSON_parse b w
    = (Ok (mkResponse 500 (VObj [("error", VStr "Internal server error")])),
       w')
    /\ messages w' = messages w
    /\ sim_cards w' = sim_cards w.
Proof.
  intros V R.
  set (P := fun x : World => readyState x <> 1 /\ messages x = messages w
                             /\ sim_cards x = sim_cards w).
  set (Q := fun (r : Response) (x : World) =>
              r = mkResponse 500
                    (VObj [("error", VStr "Internal server error")])
              /\ P x).
  assert (triple P (post_api_messages Date_parse JSON_parse b) Q
            (fun _ => False)) as T.
  { unfold post_api_messages. rewrite V.
    apply triple_try_catch with (E1 := P).
    - eapply triple_bind with (Q1 := fun _ => P).
      { destruct (truthy _); [now apply triple_ret|].
        eapply triple_bind with (Q1 := fun _ => P);
          [|intros; now apply triple_ret].
        apply triple_Date_now. intros x Hx. exact Hx. }
      intros ts.
      eapply triple_bind.
      { apply (new_Message_fresh P); intros x Hx; exact Hx. }
      intros doc.
      eapply triple_bind with (Q1 := fun _ _ => False);
        [|intros a x []].
      unfold Message_save. destruct doc as [e|m].
      + apply triple_throw. tauto.
      + eapply triple_bind with (Q1 := fun _ _ => False);
          [|intros a x []].
        apply triple_connection; [|tauto].
        intros x [(Hx & _) _] Hr. contradiction.
    - intros e. apply triple_ret. intros x Hx.
      split; [reflexivity | exact Hx]. }
  specialize (T w (conj R (conj eq_refl eq_refl))).
  destruct (post_api_messages Date_parse JSON_parse b w) as [[r|e] w'];
    [|contradiction].
  destruct T as (-> & _ & H1 & H2). now exists w'.
Qed.

(** X1.  The decision table of [POST /api/messages] on a consistent store.
    A payload that Joi rejects is answered 400 with Joi's message and the
    world is unchanged, whether or not the store is connected.  A payload
    that Joi accepts is answered 201 when the store is connected, with one
    record appended under an id that no stored record has: the 500 branch
    is then not reachable.  When the store is not connected it is answered
    500 and neither collection changes. *)
Theorem post_api_messages_table (b : Fields) (w : World) :
  consistent w ->
  match Joi_validate Date_parse JSON_parse messageValidation b with
  | inl e =>
      post_api_messages Date_parse JSON_parse b w
      = (Ok (mkResponse 400 (VObj [("error", VStr e)])), w)
  | inr _ =>
      if readyState w =? 1 then
        exists m w',
          post_api_messages Date_parse JSON_parse b w
          = (Ok (mkResponse 201
                   (VObj [("status", VStr "ok");
                          ("message_id", VObjectId (Message._id m));
                          ("received", Message.toJSON m)])),
             w')
          /\ messages w' = (messages w ++ [m])%list
          /\ sim_cards w' = sim_cards w
          /\ ~ In (Message._id m) (map Message._id (messages w))
      else
        exists w',
          post_api_messages Date_parse JSON_parse b w
          = (Ok (mkResponse 500
                   (VObj [("error", VStr "Internal server error")])),
             w')
          /\ messages w' = messages w
          /\ sim_cards w' = sim_cards w
  end.
Proof.
  intros Hc.
  destruct (Joi_validate _ _ messageValidation b) as [e|value] eqn:V.
  - now apply post_api_messages_invalid.
  - destruct (readyState w =? 1) eqn:R.
    + apply Z.eqb_eq in R.
      destruct (post_api_messages_stores b value w V Hc R)
        as (m & w' & E & H1 & H2 & H3 & _).
      exists m, w'. repeat split; try assumption.
      rewrite H3. apply has_id_absent. now apply next_oid_is_fresh.
    + apply Z.eqb_neq in R. now apply (post_api_messages_store_down b value).
Qed.

(** *** The decision table of the registration *)

Lemma validated_sim_card_paths (b value : Fields) :
  Joi_validate Date_parse JSON_parse simCardValidation b = inr value ->
  (exists x, prop value "sim_id" = VStr x /\ (x =? "")%string = false)
  /\ (exists x, prop value "phone_number" = VStr x
                /\ (x =? "")%string = false)
  /\ (prop value "carrier" = VUndefined
      \/ exists x, prop value "carrier" = VStr x)
  /\ (prop value "is_active" = VUndefined
      \/ exists a, prop value "is_active" = VBool a).
Proof.
  intros V.
  pose proof (Joi_validate_sound _ _ _ simCardValidation_keys_NoDup V) as S.
  assert (forall k, In (k, Joi_required Joi_string) simCardValidation ->
            exists x, prop value k = VStr x /\ (x =? "")%string = false) as R.
  { intros k Hk. specialize (S _ _ Hk). unfold prop.
    destruct (lookup k value) as [v|]; [|discriminate].
    unfold conforms in S. simpl in S. destruct v; try discriminate.
    exists s. split; [reflexivity | now apply negb_true_iff]. }
  split; [apply R; unfold simCardValidation; simpl; auto 10|].
  split; [apply R; unfold simCardValidation; simpl; auto 10|].
  split.
  { assert (In ("carrier", Joi_string) simCardValidation) as Hk
      by (unfold simCardValidation; simpl; auto 10).
    specialize (S _ _ Hk). unfold prop.
    destruct (lookup "carrier" value) as [v|]; [right | now left].
    unfold conforms in S. simpl in S. destruct v; try discriminate.
    now exists s. }
  assert (In ("is_active", Joi_boolean) simCardValidation) as Hk
    by (unfold simCardValidation; simpl; auto 10).
  specialize (S _ _ Hk). unfold prop.
  destruct (lookup "is_active" value) as [v|]; [right | now left].
  unfold conforms in S. simpl in S. destruct v; try discriminate.
  now exists b0.
Qed.

(** The card that a validated payload describes. *)
Lemma SimCard_paths_succeeds (value : Fields) (id : ObjectId) (c1 c2 : Z)
    (sid : string) :
  prop value "sim_id" = VStr sid -> (sid =? "")%string = false ->
  (exists x, prop value "phone_number" = VStr x
             /\ (x =? "")%string = false) ->
  (prop value "carrier" = VUndefined
   \/ exists x, prop value "carrier" = VStr x) ->
  (prop value "is_active" = VUndefined
   \/ exists a, prop value "is_active" = VBool a) ->
  exists c,
    SimCard_paths value id c1 c2 = inr c
    /\ SimCard._id c = id /\ SimCard.sim_id c = sid
    /\ SimCard.created_at c = c1 /\ SimCard.last_seen c = c2
    /\ SimCard.is_active c
       = match prop value "is_active" with VBool a => a | _ => true end.
Proof.
  clear Date_parse JSON_parse.
  intros Hs Es (ph & Hp & Ep) Hcar Hact.
  unfold SimCard_paths. rewrite Hs, Hp. simpl. rewrite Es, Ep. simpl.
  destruct Hcar as [Hcar | (x & Hcar)]; rewrite Hcar; simpl;
    destruct Hact as [Hact | (a & Hact)]; rewrite Hact; simpl;
    eexists; repeat split.
Qed.


Lemma Joi_string_unchanged (s : JoiSchema) (k : string) (v v' : JsVal) :
  base s = TString ->
  Joi_value Date_parse JSON_parse s k v = inr v' -> v' = v.
Proof.
  intros B. unfold Joi_value. rewrite B.
  destruct (valid s); destruct v; try discriminate;
    repeat (break_match; try discriminate); now intros [= <-].
Qed.

Lemma find_none_existsb (sid : string) (l : list SimCard.t) :
  find (has_sim_id sid) l = None -> existsb (has_sim_id sid) l = false.
Proof.
  clear Date_parse JSON_parse.
  intros F. destruct (existsb _ _) eqn:E; [|reflexivity].
  apply existsb_exists in E. destruct E as (c & Hc & E).
  now rewrite (find_none _ _ F c Hc) in E.
Qed.

Lemma post_api_sim_cards_stores (b value : Fields) (sid : string)
    (w : World) :
  Joi_validate Date_parse JSON_parse simCardValidation b = inr value ->
  prop value "sim_id" = VStr sid ->
  consistent w -> readyState w = 1 ->
  find (has_sim_id sid) (sim_cards w) = None ->
  exists c w',
    post_api_sim_cards Date_parse JSON_parse b w
    = (Ok (mkResponse 201
             (VObj [("status", VStr "ok"); ("sim_card", SimCard.toJSON c)])),
       w')
    /\ sim_cards w' = (sim_cards w ++ [c])%list
    /\ messages w' = messages w
    /\ SimCard_paths value (next_oid w) (clock w (reads w))
         (clock w (S (reads w))) = inr c.
Proof.
  intros V Hs Hc R F.
  destruct (validated_sim_card_paths b value V)
    as ((sid' & Hs' & Es) & Hph & Hcar & Hact).
  rewrite Hs in Hs'. injection Hs' as <-.
  destruct (SimCard_paths_succeeds value (next_oid w) (clock w (reads w))
              (clock w (S (reads w))) sid Hs Es Hph Hcar Hact)
    as (c & Hp & Hid & Hsid & _).
  unfold post_api_sim_cards, try_catch. rewrite V, Hs.
  unfold SimCard_findOne, bind, connection. rewrite R. simpl. rewrite F.
  unfold new_SimCard, bind, new_ObjectId, Date_now, ret. simpl.
  rewrite Hp.
  unfold SimCard_save, bind, connection. simpl. rewrite R. simpl.
  rewrite Hid, Hsid, (next_oid_is_fresh_card w Hc),
    (find_none_existsb _ _ F). simpl.
  eexists. eexists. split; [reflexivity|]. simpl. auto.
Qed.

Lemma post_api_sim_cards_store_down (b value : Fields) (w : World) :
  Joi_validate Date_parse JSON_parse simCardValidation b = inr value ->
  readyState w <> 1 ->
  post_api_sim_cards Date_parse JSON_parse b w
  = (Ok (mkResponse 500 (VObj [("error", VStr "Internal server error")])), w).
Proof.
  intros V R. apply Z.eqb_neq in R.
  destruct (validated_sim_card_paths b value V) as ((sid & Hs & _) & _).
  unfold post_api_sim_cards, try_catch. rewrite V, Hs.
  unfold SimCard_findOne, bind, connection. now rewrite R.
Qed.

Lemma post_api_sim_cards_duplicate (b value : Fields) (sid : string)
    (c : SimCard.t) (w : World) :
  Joi_validate Date_parse JSON_parse simCardValidation b = inr value ->
  prop value "sim_id" = VStr sid -> readyState w = 1 ->
  find (has_sim_id sid) (sim_cards w) = Some c ->
  post_api_sim_cards Date_parse JSON_parse b w
  = (Ok (mkResponse 409
           (VObj [("error", VStr "SIM card already registered")])), w).
Proof.
  intros V Hs R F.
  unfold post_api_sim_cards, try_catch. rewrite V, Hs.
  unfold SimCard_findOne, bind, connection. rewrite R. simpl. now rewrite F.
Qed.

Lemma validated_sim_id (b value : Fields) :
  Joi_validate Date_parse JSON_parse simCardValidation b = inr value ->
  exists sid, prop b "sim_id" = VStr sid /\ prop value "sim_id" = VStr sid.
Proof.
  intros V.
  destruct (validated_sim_card_paths b value V) as ((sid & Hs & _) & _).
  exists sid. split; [|exact Hs].
  pose proof (Joi_validate_lookup _ _ _ simCardValidation_keys_NoDup V
                "sim_id") as L.
  unfold prop in *. unfold converted in L.
  destruct (lookup "sim_id" b) as [v|]; [|now rewrite L in Hs].
  simpl lookup in L. cbv iota in L.
  destruct (Joi_value Date_parse JSON_parse (Joi_required Joi_string)
              "sim_id" v) as [e|v'] eqn:J;
    [now rewrite L in Hs|].
  apply Joi_string_unchanged in J; [|reflexivity]. subst v'.
  rewrite L in Hs. exact Hs.
Qed.

(** X2.  The decision table of [POST /api/sim-cards] on a consistent store.
    A payload that Joi rejects is answered 400 and the world is unchanged.
    A payload that Joi accepts holds a string [sim_id]; when the store is
    not connected the answer is 500 and the world is unchanged; when a card
    with that [sim_id] is stored the answer is 409 and the world is
    unchanged; otherwise the answer is 201 and one card with that [sim_id]
    is appended.  The duplicate-key error of the unique index is never
    reached. *)
Theorem post_api_sim_cards_table (b : Fields) (w : World) :
  consistent w ->
  match Joi_validate Date_parse JSON_parse simCardValidation b with
  | inl e =>
      post_api_sim_cards Date_parse JSON_parse b w
      = (Ok (mkResponse 400 (VObj [("error", VStr e)])), w)
  | inr _ =>
      exists sid,
        prop b "sim_id" = VStr sid
        /\ if readyState w =? 1 then
             match find (has_sim_id sid) (sim_cards w) with
             | Some _ =>
                 post_api_sim_cards Date_parse JSON_parse b w
                 = (Ok (mkResponse 409
                          (VObj [("error",
                                  VStr "SIM card already registered")])), w)
             | None =>
                 exists c w',
                   post_api_sim_cards Date_parse JSON_parse b w
                   = (Ok (mkResponse 201
                            (VObj [("status", VStr "ok");
                                   ("sim_card", SimCard.toJSON c)])), w')
                   /\ sim_cards w' = (sim_cards w ++ [c])%list
                   /\ messages w' = messages w
                   /\ SimCard.sim_id c = sid
             end
           else
             post_api_sim_cards Date_parse JSON_parse b w
             = (Ok (mkResponse 500
                      (VObj [("error", VStr "Internal server error")])), w)
  end.
Proof.
  intros Hc.
  destruct (Joi_validate _ _ simCardValidation b) as [e|value] eqn:V.
  - now apply post_api_sim_cards_invalid.
  - destruct (validated_sim_id b value V) as (sid & Hb & Hv).
    exists sid. split; [exact Hb|].
    destruct (readyState w =? 1) eqn:R.
    + apply Z.eqb_eq in R.
      destruct (find (has_sim_id sid) (sim_cards w)) as [c0|] eqn:F.
      * now apply (post_api_sim_cards_duplicate b value sid c0).
      * destruct (post_api_sim_cards_stores b value sid w V Hv Hc R F)
          as (c & w' & E & H1 & H2 & H3).
        exists c, w'. repeat split; try assumption.
        apply SimCard_paths_built in H3. destruct H3 as (_ & H3 & _).
        rewrite Hv in H3. now injection H3.
    + apply Z.eqb_neq in R. now apply (post_api_sim_cards_store_down b value).
Qed.


Lemma Joi_keys_present (schema : list (string * JoiSchema)) (o value : Fields)
    (k : string) :
  Joi_keys Date_parse JSON_parse schema o = inr value ->
  lookup k o <> None -> lookup k value <> None.
Proof.
  revert o. induction schema as [|[k0 s0] schema IH]; simpl; intros o H Hk.
  - now injection H as <-.
  - destruct (lookup k0 o) as [v0|] eqn:L.
    + destruct (Joi_value _ _ s0 k0 v0) as [e|v'] eqn:V; [discriminate|].
      apply (IH _ H).
      destruct (String.eqb_spec k0 k) as [->|Hne].
      * now rewrite lookup_assign_same.
      * now rewrite lookup_assign_other.
    + destruct (required s0); [discriminate|]. now apply (IH _ H).
Qed.

(** What the payload held under a declared key, read back from the value
    Joi returned. *)
Lemma Joi_validate_origin (schema : list (string * JoiSchema))
    (o value : Fields) (k : string) (s : JoiSchema) :
  NoDup (keys schema) ->
  Joi_validate Date_parse JSON_parse schema o = inr value ->
  lookup k schema = Some s ->
  match lookup k value with
  | None => lookup k o = None
  | Some v' =>
      exists v, lookup k o = Some v
                /\ Joi_value Date_parse JSON_parse s k v = inr v'
  end.
Proof.
  intros Hnd V Hs.
  pose proof (Joi_validate_lookup schema o value Hnd V k) as L.
  unfold converted in L. rewrite Hs in L.
  assert (lookup k o <> None -> lookup k value <> None) as P.
  { unfold Joi_validate in V.
    destruct (Joi_keys _ _ schema o) as [e|value'] eqn:K; [discriminate|].
    destruct (find _ _); [discriminate|]. injection V as <-.
    now apply (Joi_keys_present schema o value' k K). }
  destruct (lookup k o) as [v|].
  - destruct (Joi_value _ _ s k v) as [e|v'] eqn:J.
    + exfalso. apply P; [discriminate | exact L].
    + rewrite L. now exists v.
  - now rewrite L.
Qed.

Lemma SimCard_paths_fields (value : Fields) (id : ObjectId) (c1 c2 : Z)
    (c : SimCard.t) :
  SimCard_paths value id c1 c2 = inr c ->
  SimCard.created_at c = c1 /\ SimCard.last_seen c = c2
  /\ match prop value "carrier" with
     | VStr x => SimCard.carrier c = Some x
     | _ => SimCard.carrier c = None
     end
  /\ match prop value "is_active" with
     | VBool a => SimCard.is_active c = a
     | _ => SimCard.is_active c = true
     end.
Proof.
  clear Date_parse JSON_parse.
  unfold SimCard_paths, or_else, path_String, demand.
  repeat (break_match; try discriminate);
    intros [= <-]; simpl; repeat split; congruence.
Qed.

(** X3.  The card that a registration stores.  Its [sim_id],
    [phone_number] and [carrier] are those of the payload, [is_active] is
    true when the payload has none, the payload's boolean otherwise (a
    string is read as ["true"] or ["false"] whatever its letter case), its
    [_id] comes from the generator, and [created_at] and [last_seen] are
    two successive clock readings, so [created_at <= last_seen]. *)
Theorem registered_card_fields (b : Fields) (w : World) (c : SimCard.t) :
  consistent w ->
  sim_cards (snd (post_api_sim_cards Date_parse JSON_parse b w))
  = (sim_cards w ++ [c])%list ->
  lookup "sim_id" b = Some (VStr (SimCard.sim_id c))
  /\ lookup "phone_number" b = Some (VStr (SimCard.phone_number c))
  /\ lookup "carrier" b = option_map VStr (SimCard.carrier c)
  /\ SimCard.is_active c
     = match lookup "is_active" b with
       | Some (VBool a) => a
       | Some (VStr x) => (toLowerCase x =? "true")%string
       | _ => true
       end
  /\ SimCard._id c = next_oid w
  /\ SimCard.created_at c = clock w (reads w)
  /\ SimCard.last_seen c = clock w (S (reads w))
  /\ SimCard.created_at c <= SimCard.last_seen c.
Proof.
  intros Hc Happ.
  assert (forall l : list SimCard.t, l <> (l ++ [c])%list) as Hlen.
  { intros l E. apply (f_equal (@List.length _)) in E.
    rewrite length_app in E. simpl in E. lia. }
  destruct (Joi_validate Date_parse JSON_parse simCardValidation b)
    as [e|value] eqn:V.
  { rewrite (post_api_sim_cards_invalid _ _ b e w V) in Happ.
    now apply Hlen in Happ. }
  destruct (validated_sim_id b value V) as (sid & Hb & Hv).
  destruct (Z.eq_dec (readyState w) 1) as [R|R].
  2:{ rewrite (post_api_sim_cards_store_down b value w V R) in Happ.
      now apply Hlen in Happ. }
  destruct (find (has_sim_id sid) (sim_cards w)) as [c0|] eqn:F.
  { rewrite (post_api_sim_cards_duplicate b value sid c0 w V Hv R F) in Happ.
    now apply Hlen in Happ. }
  destruct (post_api_sim_cards_stores b value sid w V Hv Hc R F)
    as (c' & w' & E & H1 & _ & P).
  rewrite E in Happ. cbn [snd] in Happ. rewrite H1 in Happ.
  apply app_inv_head in Happ. injection Happ as ->.
  pose proof (SimCard_paths_built _ _ _ _ _ P) as (Hid & Hsid & Hph).
  pose proof (SimCard_paths_fields _ _ _ _ _ P) as (Hc1 & Hc2 & Hcar & Hact).
  pose proof (fun k s => Joi_validate_origin simCardValidation b value k s
                           simCardValidation_keys_NoDup V) as O.
  pose proof (Joi_validate_sound _ _ _ simCardValidation_keys_NoDup V) as S.
  assert (forall k x, In (k, Joi_required Joi_string) simCardValidation ->
            lookup k simCardValidation = Some (Joi_required Joi_string) ->
            prop value k = VStr x -> lookup k b = Some (VStr x)) as Str.
  { intros k x Hin Hk Hp. specialize (O k _ Hk). specialize (S k _ Hin).
    unfold prop in Hp. destruct (lookup k value) as [v'|]; [|discriminate].
    subst v'. destruct O as (v & Hv' & J).
    apply Joi_string_unchanged in J; [|reflexivity]. now subst v. }
  split; [apply Str; [unfold simCardValidation; simpl; auto|reflexivity
                     |exact Hsid]|].
  split; [apply Str; [unfold simCardValidation; simpl; auto|reflexivity
                     |exact Hph]|].
  split.
  { specialize (O "carrier" Joi_string eq_refl).
    assert (In ("carrier", Joi_string) simCardValidation) as Hin
      by (unfold simCardValidation; simpl; auto).
    specialize (S _ _ Hin). unfold prop in Hcar.
    destruct (lookup "carrier" value) as [v'|].
    - destruct O as (v & Hv' & J).
      unfold conforms in S. simpl in S. destruct v'; try discriminate.
      apply Joi_string_unchanged in J; [|reflexivity]. subst v.
      now rewrite Hv', Hcar.
    - now rewrite O, Hcar. }
  split.
  { specialize (O "is_active" Joi_boolean eq_refl).
    assert (In ("is_active", Joi_boolean) simCardValidation) as Hin
      by (unfold simCardValidation; simpl; auto).
    specialize (S _ _ Hin). unfold prop in Hact.
    destruct (lookup "is_active" value) as [v'|].
    - destruct O as (v & Hv' & J). rewrite Hv'.
      unfold conforms in S. simpl in S. destruct v'; try discriminate.
      rewrite Hact. unfold Joi_value in J. simpl in J.
      destruct v; try discriminate.
      + now injection J.
      + destruct (toLowerCase s =? "true")%string; [now injection J|].
        destruct (toLowerCase s =? "false")%string; [now injection J|].
        discriminate.
    - now rewrite O, Hact. }
  split; [exact Hid|]. split; [exact Hc1|]. split; [exact Hc2|].
  rewrite Hc1, Hc2. apply (clock_mono w Hc). lia.
Qed.

End Further.

(** ** From ingestion to listing *)

Section Ingestion.

Variable Date_parse : string -> option Z.
Variable JSON_parse : string -> option JsVal.
Variable Filter_cast : QVal -> option (string -> bool).
Variable Cursor_page : Number -> Number -> option (nat * option nat).

#[local] Set Default Proof Using "Type".

Lemma Message_paths_fields (obj : Fields) (id : ObjectId) (ts created : Z)
    (m : Message.t) :
  Message_paths obj id (inr ts) created = inr m ->
  prop obj "sim_id" = VStr (Message.sim_id m)
  /\ prop obj "type" = VStr (Message.type m)
  /\ prop obj "from" = VStr (Message.from m)
  /\ prop obj "message" = VStr (Message.message m)
  /\ match prop obj "to" with
     | VStr x => Message.to m = Some x
     | _ => Message.to m = None
     end
  /\ Message.metadata m
     = match prop obj "metadata" with
       | VUndefined => VObj []
       | v => v
       end
  /\ Message.timestamp m = ts
  /\ schema_valid m = true.
Proof.
  clear Date_parse JSON_parse.
  unfold Message_paths, or_else, path_String, demand, path_enum.
  destruct (prop obj "sim_id") as [| | | |sid| | | |]; try discriminate.
  destruct (true && (sid =? "")%string)%bool eqn:Esid; [discriminate|].
  destruct (prop obj "type") as [| | | |ty| | | |]; try discriminate.
  destruct (true && (ty =? "")%string)%bool eqn:Ety; [discriminate|].
  destruct (mem ty ["sms"; "call"]) eqn:Emem; [|discriminate].
  destruct (prop obj "from") as [| | | |fr| | | |]; try discriminate.
  destruct (true && (fr =? "")%string)%bool eqn:Efr; [discriminate|].
  destruct (prop obj "message") as [| | | |ms| | | |] eqn:Pms;
    try (destruct (prop obj "to"); discriminate).
  cbn [andb] in *.
  destruct (prop obj "to") as [| | | |x| | | |]; try discriminate;
    destruct (ms =? "")%string eqn:Ems; try discriminate;
    intros [= <-]; repeat split; unfold schema_valid;
    cbn [Message.sim_id Message.type Message.from Message.message];
    now rewrite Esid, Efr, Emem, Ems.
Qed.


Lemma snoc_neq {A : Type} (l : list A) (x : A) : l <> (l ++ [x])%list.
Proof.
  clear Date_parse JSON_parse.
  intros E. apply (f_equal (@List.length _)) in E.
  rewrite length_app in E. simpl in E. lia.
Qed.

(** When the ingestion has appended a record, Joi had accepted the payload,
    the store was connected and the record is the one the constructor
    built from the validated value. *)
Lemma post_api_messages_appended (b : Fields) (w : World) (m : Message.t) :
  consistent w ->
  messages (snd (post_api_messages Date_parse JSON_parse b w))
  = (messages w ++ [m])%list ->
  readyState w = 1
  /\ readyState (snd (post_api_messages Date_parse JSON_parse b w)) = 1
  /\ Message._id m = next_oid w
  /\ exists value ts created,
       Joi_validate Date_parse JSON_parse messageValidation b = inr value
       /\ Message_paths (assign "timestamp" (VDate ts) value) (next_oid w)
            (inr ts) created = inr m.
Proof.
  intros Hc Happ.
  destruct (Joi_validate Date_parse JSON_parse messageValidation b)
    as [e|value] eqn:V.
  { rewrite (post_api_messages_invalid _ _ b e w V) in Happ.
    now apply snoc_neq in Happ. }
  destruct (Z.eq_dec (readyState w) 1) as [R|R].
  2:{ destruct (post_api_messages_store_down _ _ b value w V R)
        as (w' & E & H1 & _).
      rewrite E in Happ. cbn [snd] in Happ. rewrite H1 in Happ.
      now apply snoc_neq in Happ. }
  destruct (post_api_messages_stores _ _ b value w V Hc R)
    as (m' & w' & E & H1 & _ & Hid & HR & ts & created & P).
  rewrite E in *. cbn [snd] in *. rewrite H1 in Happ.
  apply app_inv_head in Happ. injection Happ as ->.
  split; [exact R|]. split; [congruence|]. split; [exact Hid|].
  now exists value, ts, created.
Qed.

(** A string that Joi returned under a key declared as a string is the
    string the payload held under that key. *)
Lemma Joi_string_origin (schema : list (string * JoiSchema))
    (b value : Fields) (k : string) (s : JoiSchema) (x : string) :
  NoDup (keys schema) ->
  Joi_validate Date_parse JSON_parse schema b = inr value ->
  lookup k schema = Some s -> base s = TString ->
  prop value k = VStr x -> lookup k b = Some (VStr x).
Proof.
  intros Hnd V Hk B Hp.
  pose proof (Joi_validate_origin _ _ schema b value k s Hnd V Hk) as O.
  unfold prop in Hp. destruct (lookup k value) as [v'|]; [|discriminate].
  subst v'. destruct O as (v & Hv & J).
  apply Joi_string_unchanged in J; [|exact B]. now subst v.
Qed.

(** The strings of an ingested record are those of the payload. *)
Lemma ingested_fields (b value : Fields) (id : ObjectId) (ts created : Z)
    (m : Message.t) :
  Joi_validate Date_parse JSON_parse messageValidation b = inr value ->
  Message_paths (assign "timestamp" (VDate ts) value) id (inr ts) created
  = inr m ->
  lookup "sim_id" b = Some (VStr (Message.sim_id m))
  /\ lookup "type" b = Some (VStr (Message.type m))
  /\ lookup "from" b = Some (VStr (Message.from m))
  /\ lookup "to" b = option_map VStr (Message.to m)
  /\ lookup "message" b = Some (VStr (Message.message m)).
Proof.
  intros V P.
  destruct (Message_paths_fields _ _ _ _ _ P)
    as (Hsid & Hty & Hfr & Hms & Hto & _).
  rewrite prop_assign_other in Hsid, Hty, Hfr, Hms, Hto by discriminate.
  pose proof (fun k s x => Joi_string_origin messageValidation b value k s x
                             messageValidation_keys_NoDup V) as O.
  split; [now apply (O "sim_id" _ _ eq_refl eq_refl)|].
  split; [now apply (O "type" _ _ eq_refl eq_refl)|].
  split; [now apply (O "from" _ _ eq_refl eq_refl)|].
  split; [|now apply (O "message" _ _ eq_refl eq_refl)].
  pose proof (Joi_validate_origin _ _ messageValidation b value "to"
                Joi_string messageValidation_keys_NoDup V eq_refl) as T.
  assert (In ("to", Joi_string) messageValidation) as Hin
    by (unfold messageValidation; simpl; auto 10).
  pose proof (Joi_validate_sound _ _ _ _ _ messageValidation_keys_NoDup V
                _ _ Hin) as S.
  unfold prop in Hto. destruct (lookup "to" value) as [v'|].
  - destruct T as (v & Hv & J).
    unfold conforms in S. simpl in S. destruct v'; try discriminate.
    apply Joi_string_unchanged in J; [|reflexivity]. subst v.
    now rewrite Hv, Hto.
  - now rewrite T, Hto.
Qed.

Lemma sort_desc_length (l : list Message.t) :
  List.length (sort_desc l) = List.length l.
Proof.
  clear Date_parse JSON_parse Filter_cast Cursor_page.
  apply Permutation_length, sort_desc_perm.
Qed.

(** X4.  From ingestion to listing.  When [POST /api/messages] has stored a
    record, that record carries the strings of the payload.  Of a listing
    asked next, whatever its filter parameters: if they select the record,
    the records asked for are those asked for before followed by it, and a
    page that starts at 0 and is long enough for all of them is answered
    200 with a total one more than before and the record on the page; if
    they do not select it, or cannot be read, the listing is answered as it
    was before the ingestion. *)
Theorem ingest_then_list (b : Fields) (q : Query) (w : World)
    (m : Message.t) :
  consistent w ->
  messages (snd (post_api_messages Date_parse JSON_parse b w))
  = (messages w ++ [m])%list ->
  let w' := snd (post_api_messages Date_parse JSON_parse b w) in
  lookup "sim_id" b = Some (VStr (Message.sim_id m))
  /\ lookup "type" b = Some (VStr (Message.type m))
  /\ lookup "from" b = Some (VStr (Message.from m))
  /\ lookup "to" b = option_map VStr (Message.to m)
  /\ lookup "message" b = Some (VStr (Message.message m))
  /\ (forall sel,
        wanted Filter_cast q = Some sel ->
        (sel m = true ->
         List.filter sel (messages w')
         = (List.filter sel (messages w) ++ [m])%list
         /\ forall l,
              requested_skip q = Finite 0 -> requested_limit q = Finite l ->
              Z.of_nat (List.length (List.filter sel (messages w))) < l ->
              l < 2147483648 ->
              exists page,
                fst (get_api_messages Filter_cast Cursor_page q w')
                = Ok (messages_page page
                        (S (List.length (List.filter sel (messages w)))))
                /\ In m page
                /\ Permutation page (m :: List.filter sel (messages w)))
        /\ (sel m = false ->
            fst (get_api_messages Filter_cast Cursor_page q w')
            = fst (get_api_messages Filter_cast Cursor_page q w)))
  /\ (wanted Filter_cast q = None ->
      fst (get_api_messages Filter_cast Cursor_page q w')
      = fst (get_api_messages Filter_cast Cursor_page q w)).
Proof.
  intros Hc Happ w'.
  destruct (post_api_messages_appended b w m Hc Happ)
    as (R & R' & _ & value & ts & created & V & P).
  change (readyState w' = 1) in R'.
  destruct (ingested_fields b value _ ts created m V P)
    as (H1 & H2 & H3 & H4 & H5).
  repeat (split; [assumption|]).
  split.
  - intros sel Hsel.
    set (asked := List.filter sel (messages w)).
    assert (List.filter sel (messages w')
            = (asked ++ List.filter sel [m])%list) as F.
    { unfold w'. rewrite Happ. apply filter_app. }
    split.
    + intros Hw. cbn [List.filter] in F. rewrite Hw in F.
      split; [exact F|]. intros l Hs Hl Hlt Hmax.
      exists (sort_desc (asked ++ [m])).
      assert (Permutation (sort_desc (asked ++ [m])) (m :: asked)) as Perm.
      { rewrite sort_desc_perm.
        apply Permutation_sym, Permutation_cons_append. }
      split; [|split; [|exact Perm]].
      * rewrite get_api_messages_eval. cbn [fst]. rewrite R'.
        cbn [Z.eqb Pos.eqb]. rewrite Hsel, Hs, Hl, F.
        rewrite window_regular by lia.
        cbn [Z.to_nat skipn]. rewrite firstn_all2.
        -- rewrite length_app. cbn [List.length].
           now rewrite Nat.add_1_r.
        -- rewrite sort_desc_length, length_app. cbn [List.length].
           fold asked. lia.
      * apply (Permutation_in _ (Permutation_sym Perm)). now left.
    + intros Hw. cbn [List.filter] in F. rewrite Hw, app_nil_r in F.
      rewrite !get_api_messages_eval. cbn [fst].
      rewrite R, R'. cbn [Z.eqb Pos.eqb]. rewrite Hsel. cbn beta iota.
      now rewrite F.
  - intros Hsel. rewrite !get_api_messages_eval. cbn [fst].
    now rewrite R, R', Hsel.
Qed.

End Ingestion.

(** ** Pages of the listing *)

Lemma firstn_add {A : Type} (a b : nat) (l : list A) :
  firstn (a + b) l = (firstn a l ++ firstn b (skipn a l))%list.
Proof.
  revert l. induction a as [|a IH]; intros l.
  - reflexivity.
  - destruct l as [|x l].
    + simpl. now rewrite firstn_nil.
    + simpl. now rewrite IH.
Qed.

Lemma messages_page_fields (page : list Message.t) (total : nat) :
  status (messages_page page total) = 200
  /\ field (messages_page page total) "messages"
     = VArr (map Message.toJSON page)
  /\ field (messages_page page total) "count"
     = VNum (Z.of_nat (List.length page))
  /\ field (messages_page page total) "total" = VNum (Z.of_nat total).
Proof. repeat split. Qed.

Lemma Permutation_filter_wanted (f : Message.t -> bool)
    (l1 l2 : list Message.t) :
  Permutation l1 l2 -> Permutation (List.filter f l1) (List.filter f l2).
Proof.
  induction 1 as [|x l1 l2 _ IH|x y l|l1 l2 l3 _ IH1 _ IH2]; simpl.
  - constructor.
  - destruct (f x); [now constructor | assumption].
  - destruct (f x), (f y); try reflexivity. apply perm_swap.
  - now transitivity (List.filter f l2).
Qed.

Lemma NoDup_map_filter {A B : Type} (g : A -> B) (f : A -> bool)
    (l : list A) :
  NoDup (map g l) -> NoDup (map g (List.filter f l)).
Proof.
  induction l as [|x l IH]; simpl; intros H.
  - constructor.
  - inversion H as [|? ? Hx Hl]; subst.
    destruct (f x) eqn:E.
    + simpl. constructor; [|now apply IH].
      intros Hin. apply Hx. apply in_map_iff in Hin.
      destruct Hin as (y & Hy & Hin). apply filter_In in Hin.
      apply in_map_iff. exists y. tauto.
    + now apply IH.
Qed.

Lemma NoDup_map_inj {A B : Type} (g : A -> B) (l : list A) (x y : A) :
  NoDup (map g l) -> In x l -> In y l -> g x = g y -> x = y.
Proof.
  induction l as [|a l IH]; simpl; intros H Hx Hy E; [contradiction|].
  inversion H as [|? ? Ha Hl]; subst.
  destruct Hx as [<-|Hx], Hy as [<-|Hy].
  - reflexivity.
  - exfalso. apply Ha. rewrite E. now apply in_map.
  - exfalso. apply Ha. rewrite <- E. now apply in_map.
  - now apply IH.
Qed.

(** Two lists sorted by descending timestamp that hold the same records,
    no two of them with the same timestamp, are the same list. *)
Lemma sorted_unique (l1 l2 : list Message.t) :
  StronglySorted newer_first l1 -> StronglySorted newer_first l2 ->
  Permutation l1 l2 -> NoDup (map Message.timestamp l1) -> l1 = l2.
Proof.
  revert l2. induction l1 as [|a l1 IH]; intros l2 S1 S2 P N.
  - apply Permutation_nil in P. now subst.
  - destruct l2 as [|b l2].
    { apply Permutation_sym, Permutation_nil in P. discriminate. }
    inversion S1 as [|? ? S1' F1]; subst.
    inversion S2 as [|? ? S2' F2]; subst.
    assert (a = b) as ->.
    { assert (In a (b :: l2)) as Ha
        by (apply (Permutation_in _ P); now left).
      assert (In b (a :: l1)) as Hb
        by (apply (Permutation_in _ (Permutation_sym P)); now left).
      destruct Ha as [->|Ha]; [reflexivity|].
      destruct Hb as [->|Hb]; [reflexivity|].
      rewrite Forall_forall in F1, F2.
      pose proof (F1 _ Hb) as L1. pose proof (F2 _ Ha) as L2.
      unfold newer_first in L1, L2.
      apply (NoDup_map_inj Message.timestamp (a :: l1)); simpl; auto.
      lia. }
    f_equal. apply Permutation_cons_inv in P.
    apply IH; try assumption. simpl in N. now inversion N.
Qed.

Section Pages.

Variable Filter_cast : QVal -> option (string -> bool).
Variable Cursor_page : Number -> Number -> option (nat * option nat).

#[local] Set Default Proof Using "Type".

Lemma get_api_messages_window (q : Query) (w : World)
    (sel : Message.t -> bool) (s l : Z) :
  readyState w = 1 -> wanted Filter_cast q = Some sel ->
  requested_skip q = Finite s -> 0 <= s < 2147483648 ->
  requested_limit q = Finite l -> 0 < l < 2147483648 ->
  fst (get_api_messages Filter_cast Cursor_page q w)
  = Ok (messages_page
          (firstn (Z.to_nat l)
             (skipn (Z.to_nat s)
                (sort_desc (List.filter sel (messages w)))))
          (List.length (List.filter sel (messages w)))).
Proof.
  intros R Hsel Hs Hs0 Hl Hl0.
  rewrite get_api_messages_eval. cbn [fst]. rewrite R, Hsel, Hs, Hl.
  cbn [Z.eqb Pos.eqb]. now rewrite window_regular.
Qed.

Lemma wanted_same_filter (q q' : Query) :
  lookup "sim_id" q = lookup "sim_id" q' ->
  lookup "type" q = lookup "type" q' ->
  wanted Filter_cast q = wanted Filter_cast q'.
Proof.
  clear Cursor_page. intros H1 H2. unfold wanted. now rewrite H1, H2.
Qed.

(** X5.  The sizes a listing reports.  On a connected store, when the
    filter parameters can be read, with a skip [s] and a limit [l > 0]
    below 2^31, [total] is the number of records the filter selects and
    [count] is what is left of them after the first [s], cut at [l]:
    [min l (max 0 (total - s))]. *)
Theorem listing_count (q : Query) (w : World) (sel : Message.t -> bool)
    (s l : Z) :
  readyState w = 1 -> wanted Filter_cast q = Some sel ->
  requested_skip q = Finite s -> 0 <= s < 2147483648 ->
  requested_limit q = Finite l -> 0 < l < 2147483648 ->
  let total := Z.of_nat (List.length (List.filter sel (messages w))) in
  exists r,
    fst (get_api_messages Filter_cast Cursor_page q w) = Ok r
    /\ status r = 200
    /\ field r "total" = VNum total
    /\ field r "count" = VNum (Z.min l (Z.max 0 (total - s))).
Proof.
  intros R Hsel Hs Hs0 Hl Hl0 total.
  rewrite (get_api_messages_window q w sel s l R Hsel Hs Hs0 Hl Hl0).
  eexists. split; [reflexivity|].
  destruct (messages_page_fields
              (firstn (Z.to_nat l)
                 (skipn (Z.to_nat s)
                    (sort_desc (List.filter sel (messages w)))))
              (List.length (List.filter sel (messages w))))
    as (H1 & _ & H2 & H3).
  split; [exact H1|]. split; [exact H3|].
  rewrite H2. f_equal.
  rewrite length_firstn, length_skipn.
  rewrite (Permutation_length (sort_desc_perm _)).
  unfold total. lia.
Qed.

(** X6.  Consecutive pages tile the listing.  On a connected store whose
    records have pairwise distinct timestamps, so that the order of the
    listing is determined, and for one readable filter, the page of [l1]
    records after the first [s] followed by the page of [l2] records after
    the first [s + l1] is the page of [l1 + l2] records after the first
    [s], and the three answers report the same total. *)
Theorem pages_tile (q1 q2 q : Query) (w : World) (sel : Message.t -> bool)
    (s l1 l2 : Z) :
  readyState w = 1 ->
  NoDup (map Message.timestamp (messages w)) ->
  wanted Filter_cast q = Some sel ->
  lookup "sim_id" q1 = lookup "sim_id" q ->
  lookup "type" q1 = lookup "type" q ->
  lookup "sim_id" q2 = lookup "sim_id" q ->
  lookup "type" q2 = lookup "type" q ->
  0 <= s -> 0 < l1 -> 0 < l2 -> s + l1 + l2 < 2147483648 ->
  requested_skip q1 = Finite s -> requested_limit q1 = Finite l1 ->
  requested_skip q2 = Finite (s + l1) -> requested_limit q2 = Finite l2 ->
  requested_skip q = Finite s -> requested_limit q = Finite (l1 + l2) ->
  exists p1 p2 total,
    fst (get_api_messages Filter_cast Cursor_page q1 w)
    = Ok (messages_page p1 total)
    /\ fst (get_api_messages Filter_cast Cursor_page q2 w)
       = Ok (messages_page p2 total)
    /\ fst (get_api_messages Filter_cast Cursor_page q w)
       = Ok (messages_page (p1 ++ p2) total)
    /\ NoDup (map Message.timestamp (p1 ++ p2)).
Proof.
  intros R N Hsel A1 B1 A2 B2 Hs H1 H2 Hmax S1 L1 S2 L2 S L.
  pose proof (wanted_same_filter q1 q A1 B1) as W1.
  pose proof (wanted_same_filter q2 q A2 B2) as W2.
  rewrite Hsel in W1, W2.
  rewrite (get_api_messages_window q1 w sel s l1 R W1 S1 ltac:(lia) L1
             ltac:(lia)).
  rewrite (get_api_messages_window q2 w sel (s + l1) l2 R W2 S2 ltac:(lia)
             L2 ltac:(lia)).
  rewrite (get_api_messages_window q w sel s (l1 + l2) R Hsel S ltac:(lia)
             L ltac:(lia)).
  eexists. eexists. eexists.
  split; [reflexivity|]. split; [reflexivity|].
  assert (firstn (Z.to_nat (l1 + l2))
            (skipn (Z.to_nat s) (sort_desc (List.filter sel (messages w))))
          = (firstn (Z.to_nat l1)
               (skipn (Z.to_nat s)
                  (sort_desc (List.filter sel (messages w))))
             ++ firstn (Z.to_nat l2)
                  (skipn (Z.to_nat (s + l1))
                     (sort_desc (List.filter sel (messages w)))))%list)
    as T.
  { rewrite !Z2Nat.inj_add by lia.
    rewrite firstn_add. f_equal. f_equal.
    rewrite skipn_skipn. f_equal. lia. }
  split; [now rewrite T|].
  rewrite <- T.
  assert (NoDup (map Message.timestamp
                   (sort_desc (List.filter sel (messages w))))) as NS.
  { apply (Permutation_NoDup
             (Permutation_map Message.timestamp
                (Permutation_sym (sort_desc_perm _)))).
    now apply NoDup_map_filter. }
  revert NS. generalize (sort_desc (List.filter sel (messages w))).
  intros docs NS.
  rewrite <- (firstn_skipn (Z.to_nat s) docs), map_app in NS.
  apply NoDup_app_remove_l in NS.
  rewrite <- (firstn_skipn (Z.to_nat (l1 + l2))
                (skipn (Z.to_nat s) docs)), map_app in NS.
  now apply NoDup_app_remove_r in NS.
Qed.

(** ** The listing does not depend on the order of insertion *)

(** X7.  The listing depends on the records, not on the order in which
    they were inserted: two stores in the same connection state that hold
    the same records, no two of them with the same timestamp, answer every
    query alike, whatever its parameters. *)
Theorem listing_ignores_insertion_order (q : Query) (w1 w2 : World) :
  readyState w1 = readyState w2 ->
  Permutation (messages w1) (messages w2) ->
  NoDup (map Message.timestamp (messages w1)) ->
  fst (get_api_messages Filter_cast Cursor_page q w1)
  = fst (get_api_messages Filter_cast Cursor_page q w2).
Proof.
  intros R P N.
  rewrite !get_api_messages_eval. cbn [fst]. rewrite <- R.
  destruct (if readyState w1 =? 1 then _ else _) as [sel|]; [|reflexivity].
  pose proof (Permutation_filter_wanted sel _ _ P) as PF.
  rewrite <- (Permutation_length PF).
  rewrite (sorted_unique
             (sort_desc (List.filter sel (messages w1)))
             (sort_desc (List.filter sel (messages w2)))).
  - reflexivity.
  - apply sort_desc_sorted.
  - apply sort_desc_sorted.
  - now rewrite !sort_desc_perm.
  - apply (Permutation_NoDup
             (Permutation_map Message.timestamp
                (Permutation_sym (sort_desc_perm _)))).
    now apply NoDup_map_filter.
Qed.

End Pages.

(** ** Marking and listing *)

Lemma marked_absent (oid : ObjectId) (t : Z) (l : list Message.t) :
  (forall x, In x l -> has_id oid x = false) -> map (marked oid t) l = l.
Proof.
  induction l as [|m l IH]; simpl; intros H; [reflexivity|].
  unfold marked at 1. rewrite (H m) by now left.
  f_equal. apply IH. intros x Hx. apply H. now right.
Qed.

(** With distinct ids, updating the first record that has the id is
    updating every record that has it. *)
Lemma update_first_marked (oid : ObjectId) (t : Z) (l : list Message.t) :
  NoDup (map Message._id l) ->
  update_first oid (Message.set_processed t) l = map (marked oid t) l.
Proof.
  induction l as [|m l IH]; simpl; intros H; [reflexivity|].
  inversion H as [|? ? Hm Hl]; subst. unfold marked at 1.
  destruct (has_id oid m) eqn:E.
  - f_equal. symmetry. apply marked_absent. intros x Hx.
    unfold has_id in *. apply N.eqb_eq in E. apply N.eqb_neq.
    intros E'. apply Hm. rewrite E, <- E'. now apply in_map.
  - f_equal. now apply IH.
Qed.

Lemma wanted_marked (Filter_cast : QVal -> option (string -> bool))
    (q : Query) (sel : Message.t -> bool) (oid : ObjectId) (t : Z)
    (m : Message.t) :
  wanted Filter_cast q = Some sel -> sel (marked oid t m) = sel m.
Proof.
  unfold wanted.
  destruct (selects Filter_cast (lookup "sim_id" q)) as [f|];
    [|discriminate].
  destruct (selects Filter_cast (lookup "type" q)) as [g|];
    [|discriminate].
  intros [= <-]. unfold marked. now destruct (has_id oid m), m.
Qed.

Lemma timestamp_marked (oid : ObjectId) (t : Z) (m : Message.t) :
  Message.timestamp (marked oid t m) = Message.timestamp m.
Proof. unfold marked. now destruct (has_id oid m), m. Qed.

Lemma filter_map_same (f : Message.t -> bool) (g : Message.t -> Message.t)
    (l : list Message.t) :
  (forall x, f (g x) = f x) ->
  List.filter f (map g l) = map g (List.filter f l).
Proof.
  intros H. induction l as [|m l IH]; simpl; [reflexivity|].
  rewrite H. destruct (f m); simpl; now rewrite IH.
Qed.

Lemma insert_desc_map (g : Message.t -> Message.t) (m : Message.t)
    (l : list Message.t) :
  (forall x, Message.timestamp (g x) = Message.timestamp x) ->
  insert_desc (g m) (map g l) = map g (insert_desc m l).
Proof.
  intros H. induction l as [|x l IH]; simpl; [reflexivity|].
  rewrite !H. destruct (Message.timestamp x <=? Message.timestamp m).
  - reflexivity.
  - simpl. now rewrite IH.
Qed.

Lemma sort_desc_map (g : Message.t -> Message.t) (l : list Message.t) :
  (forall x, Message.timestamp (g x) = Message.timestamp x) ->
  sort_desc (map g l) = map g (sort_desc l).
Proof.
  intros H. unfold sort_desc. induction l as [|x l IH]; simpl; [reflexivity|].
  rewrite IH. now apply insert_desc_map.
Qed.

Lemma window_map {A B : Type}
    (Cursor_page : Number -> Number -> option (nat * option nat))
    (g : A -> B) (s l : Number) (docs : list A) :
  window Cursor_page s l (map g docs)
  = match window Cursor_page s l docs with
    | inl e => inl e
    | inr page => inr (map g page)
    end.
Proof.
  unfold window.
  destruct (page_of Cursor_page s l) as [[n [k|]]|]; try reflexivity;
    now rewrite ?skipn_map, ?firstn_map.
Qed.

Lemma update_first_app (id : ObjectId) (f : Message.t -> Message.t)
    (a b : list Message.t) :
  update_first id f (a ++ b)
  = (update_first id f a
     ++ (if existsb (has_id id) a then b else update_first id f b))%list.
Proof.
  induction a as [|m a IH]; simpl; [reflexivity|].
  destruct (has_id id m); simpl; [reflexivity|]. now rewrite IH.
Qed.

Lemma flag_kept_refl (l : list Message.t) : Forall2 flag_kept l l.
Proof.
  induction l; constructor; [|assumption]. now split.
Qed.

Lemma flag_kept_update_first (id : ObjectId) (t : Z)
    (l old : list Message.t) :
  Forall2 flag_kept l old ->
  Forall2 flag_kept l (update_first id (Message.set_processed t) old).
Proof.
  induction 1 as [|m m' l old [H1 H2] H IH]; simpl; [constructor|].
  destruct (has_id id m').
  - constructor; [|assumption]. split; [|reflexivity].
    rewrite <- H1. now destruct m'.
  - constructor; [now split | assumption].
Qed.

Section Traces.

Variable Date_parse : string -> option Z.
Variable JSON_parse : string -> option JsVal.
Variable ObjectId_cast : string -> option ObjectId.
Variable Filter_cast : QVal -> option (string -> bool).
Variable Cursor_page : Number -> Number -> option (nat * option nat).

#[local] Set Default Proof Using "Type".

(** X8.  Marking a record does not disturb the listings.  On a consistent,
    connected store, a request to mark the record with id [oid] turns the
    collection into the same list with that record stamped; every listing
    asked afterwards is the listing asked before with that record stamped:
    the same records in the same order, the same count and the same total
    (or the same refusal of the page parameters). *)
Theorem mark_then_list (id : string) (oid : ObjectId) (q : Query)
    (w : World) :
  consistent w -> readyState w = 1 -> ObjectId_cast id = Some oid ->
  let w' := snd (put_api_messages_processed ObjectId_cast id w) in
  let now := clock w (reads w) in
  messages w' = map (marked oid now) (messages w)
  /\ ((exists page total,
         fst (get_api_messages Filter_cast Cursor_page q w)
         = Ok (messages_page page total)
         /\ fst (get_api_messages Filter_cast Cursor_page q w')
            = Ok (messages_page (map (marked oid now) page) total))
      \/ (fst (get_api_messages Filter_cast Cursor_page q w)
          = Ok internal_error_response
          /\ fst (get_api_messages Filter_cast Cursor_page q w')
             = Ok internal_error_response)).
Proof.
  intros Hc R Hid w' now.
  assert (messages w' = map (marked oid now) (messages w)
          /\ readyState w' = 1) as [Hm R'].
  { unfold w'. destruct (find (has_id oid) (messages w)) as [m|] eqn:F.
    - rewrite (put_known ObjectId_cast id oid m w Hid R F). cbn [snd].
      split; [|exact R]. cbn [messages with_messages].
      apply update_first_marked, (message_ids_unique w Hc).
    - rewrite (put_unknown ObjectId_cast id oid w Hid R F). cbn [snd].
      split; [|exact R]. cbn [messages with_reads]. symmetry.
      apply marked_absent. intros x Hx. now apply (find_none _ _ F). }
  split; [exact Hm|].
  rewrite !get_api_messages_eval. cbn [fst]. rewrite R, R', Hm.
  cbn [Z.eqb Pos.eqb].
  destruct (wanted Filter_cast q) as [sel|] eqn:Hsel;
    [|right; now split].
  rewrite (filter_map_same sel (marked oid now))
    by (intros x; now apply (wanted_marked Filter_cast q)).
  rewrite (sort_desc_map (marked oid now))
    by (intros x; apply timestamp_marked).
  rewrite window_map, length_map.
  destruct (window Cursor_page (requested_skip q) (requested_limit q)
              (sort_desc (List.filter sel (messages w))))
    as [e|page].
  - right. now split.
  - left. eexists. eexists. now split.
Qed.

(** ** Invariants along the traces *)

(** What one event does to the collection of messages. *)
Lemma step_messages (e : Event) (w : World) :
  let w' := step Date_parse JSON_parse ObjectId_cast
        Filter_cast Cursor_page e w in
  messages w' = messages w
  \/ (exists b m,
        messages (snd (post_api_messages Date_parse JSON_parse b w))
        = (messages w ++ [m])%list
        /\ messages w' = (messages w ++ [m])%list)
  \/ (exists oid,
        messages w'
        = update_first oid (Message.set_processed (clock w (reads w)))
            (messages w)).
Proof.
  destruct e as [r|state]; [|now left].
  destruct (writes_messages r) eqn:W.
  - destruct r; try discriminate; cbn [step route].
    + destruct (post_api_messages_inserts Date_parse JSON_parse req_body w)
        as (_ & [H | (m & H & _)]).
      * now left.
      * right. left. now exists req_body, m.
    + destruct (put_api_messages_processed_marks ObjectId_cast messageId w)
        as [H | (oid & H)].
      * now left.
      * right. right. now exists oid.
  - left. now apply other_requests_keep_messages.
Qed.

Lemma run_preserves (P : World -> Prop) :
  (forall e w, consistent w -> P w ->
               P (step Date_parse JSON_parse ObjectId_cast
                     Filter_cast Cursor_page e w)) ->
  forall trace w, consistent w -> P w ->
    P (run Date_parse JSON_parse ObjectId_cast Filter_cast Cursor_page trace w).
Proof.
  intros H trace. induction trace as [|e trace IH]; intros w Hc Hp.
  - exact Hp.
  - apply IH.
    + exact (consistent_run Date_parse JSON_parse ObjectId_cast
          Filter_cast Cursor_page [e] w Hc).
    + now apply H.
Qed.

(** X9.  Along every sequence of requests and connection events from a
    consistent store, no record is processed before it was created: a
    [processed_at] that is set is at or after [created_at]. *)
Theorem processed_after_created (trace : list Event) (w : World) :
  consistent w -> chronological w ->
  chronological (run Date_parse JSON_parse ObjectId_cast
        Filter_cast Cursor_page trace w).
Proof.
  apply run_preserves. clear w. intros e w Hc Hp m t Hin Ht.
  destruct (step_messages e w) as [H | [(b & m' & Hb & H) | (oid & H)]];
    rewrite H in Hin.
  - now apply Hp.
  - apply in_app_or in Hin. destruct Hin as [Hin | [<- | []]].
    + now apply Hp.
    + destruct (post_api_messages_inserts Date_parse JSON_parse b w)
        as (_ & [H' | (m'' & H' & _ & _ & Hn & _)]).
      * rewrite H' in Hb. exfalso. revert Hb. clear.
        intros E. apply (f_equal (@List.length _)) in E.
        rewrite length_app in E. simpl in E. lia.
      * rewrite H' in Hb. apply app_inv_head in Hb. injection Hb as ->.
        congruence.
  - apply In_update_first in Hin. destruct Hin as [Hin | (x & Hx & ->)].
    + now apply Hp.
    + destruct x; simpl in *. injection Ht as <-.
      exact (created_in_the_past w Hc _ Hx).
Qed.

(** X10.  Nothing is deleted, reordered or rewritten.  After any sequence
    of requests and connection events the collection of messages is the
    old one, each record the same but for [processed] and [processed_at]
    and still processed if it was, followed by the records ingested
    since. *)
Theorem messages_only_grow (trace : list Event) (w : World) :
  exists old new,
    messages (run Date_parse JSON_parse ObjectId_cast
          Filter_cast Cursor_page trace w)
    = (old ++ new)%list
    /\ Forall2 flag_kept (messages w) old.
Proof.
  apply (invariant_run Date_parse JSON_parse ObjectId_cast
        Filter_cast Cursor_page
           (fun x => exists old new,
                       messages x = (old ++ new)%list
                       /\ Forall2 flag_kept (messages w) old)).
  - intros x H. exact H.
  - intros x H. exact H.
  - intros x m (old & new & E & F) _ _.
    exists old, (new ++ [m])%list. cbn [messages with_messages].
    split; [|exact F]. now rewrite E, app_assoc.
  - intros x oid t (old & new & E & F). cbn [messages with_messages].
    rewrite E, update_first_app. eexists. eexists. split; [reflexivity|].
    now apply flag_kept_update_first.
  - intros x c H _ _. exact H.
  - intros x r H. exact H.
  - exists (messages w), []. split; [now rewrite app_nil_r|].
    apply flag_kept_refl.
Qed.

Lemma get_api_sim_cards_eval (w : World) :
  get_api_sim_cards w
  = (Ok (if readyState w =? 1
         then mkResponse 200
                (VObj [("sim_cards",
                        VArr (map SimCard.toJSON (sim_cards w)))])
         else internal_error_response),
     w).
Proof.
  clear Date_parse JSON_parse ObjectId_cast Filter_cast Cursor_page.
  unfold get_api_sim_cards, try_catch, SimCard_find, bind, connection.
  destruct (readyState w =? 1); reflexivity.
Qed.

(** X11.  The registered cards.  After any sequence of requests and
    connection events the collection of SIM cards is the old one followed
    by the cards registered since, none removed or changed, and
    [GET /api/sim-cards] answers with exactly these, in that order, when
    the store is connected and with 500 when it is not; it never changes
    the world. *)
Theorem sim_cards_only_grow (trace : list Event) (w : World) :
  let w' := run Date_parse JSON_parse ObjectId_cast
        Filter_cast Cursor_page trace w in
  exists new,
    sim_cards w' = (sim_cards w ++ new)%list
    /\ get_api_sim_cards w'
       = (Ok (if readyState w' =? 1
              then mkResponse 200
                     (VObj [("sim_cards",
                             VArr (map SimCard.toJSON
                                     (sim_cards w ++ new)))])
              else internal_error_response),
          w').
Proof.
  intros w'.
  assert (exists new, sim_cards w' = (sim_cards w ++ new)%list)
    as (new & E).
  { apply (invariant_run Date_parse JSON_parse ObjectId_cast
        Filter_cast Cursor_page
             (fun x => exists new, sim_cards x = (sim_cards w ++ new)%list)).
    - intros x H. exact H.
    - intros x H. exact H.
    - intros x m H _ _. exact H.
    - intros x oid t H. exact H.
    - intros x c (new & E) _ _. exists (new ++ [c])%list.
      cbn [sim_cards with_sim_cards]. now rewrite E, app_assoc.
    - intros x r H. exact H.
    - exists []. now rewrite app_nil_r. }
  exists new. split; [exact E|].
  rewrite get_api_sim_cards_eval. now rewrite E.
Qed.

(** X12.  What is stored satisfies the schema.  Along every sequence of
    requests and connection events from a consistent store whose records
    satisfy [messageSchema], every stored record has non-empty [sim_id],
    [from] and [message] and a [type] that is ["sms"] or ["call"]. *)
Theorem stored_messages_valid (trace : list Event) (w : World) :
  consistent w -> stored_valid w ->
  stored_valid (run Date_parse JSON_parse ObjectId_cast
        Filter_cast Cursor_page trace w).
Proof.
  apply run_preserves. clear w. intros e w Hc Hp m Hin.
  destruct (step_messages e w) as [H | [(b & m' & Hb & H) | (oid & H)]];
    rewrite H in Hin.
  - now apply Hp.
  - apply in_app_or in Hin. destruct Hin as [Hin | [<- | []]].
    + now apply Hp.
    + destruct (post_api_messages_appended Date_parse JSON_parse b w m' Hc Hb)
        as (_ & _ & _ & value & ts & created & _ & P).
      now apply Message_paths_fields in P.
  - apply In_update_first in Hin. destruct Hin as [Hin | (x & Hx & ->)].
    + now apply Hp.
    + specialize (Hp x Hx). now destruct x.
Qed.

End Traces.

(** ** Every request is answered *)

Lemma returns_only_respond (allowed : list Z) (code : Z) (obj : Fields) :
  In code allowed -> code <> 500 ->
  returns_only (acceptable allowed) (res_status_json code obj).
Proof. intros H N w. split; [exact H|]. intros E. now elim N. Qed.

Lemma returns_only_throw (P : Response -> Prop) (e : Error) :
  returns_only P (throw e).
Proof. intros w. exact Logic.I. Qed.

Lemma returns_only_bind {A : Type} (P : Response -> Prop) (m : M A)
    (k : A -> M Response) :
  (forall a, returns_only P (k a)) -> returns_only P (bind m k).
Proof.
  intros H w. unfold bind. destruct (m w) as [[a|e] w1].
  - apply H.
  - exact Logic.I.
Qed.

(** A handler that catches what its body throws always answers. *)
Lemma try_catch_answers (allowed : list Z) (m : M Response) (w : World) :
  In 500 allowed -> returns_only (acceptable allowed) m ->
  exists r,
    fst (try_catch m internal_server_error w) = Ok r
    /\ acceptable allowed r.
Proof.
  intros H5 H. specialize (H w). unfold try_catch.
  destruct (m w) as [[r|e] w1]; cbn [fst] in *.
  - now exists r.
  - eexists. split; [reflexivity|]. now split.
Qed.

Ltac returns_only_tac :=
  repeat first
    [ apply returns_only_respond; [simpl; tauto | discriminate]
    | apply returns_only_throw
    | apply returns_only_bind; intros ?
    | match goal with
      | |- returns_only _ (match ?x with _ => _ end) => destruct x
      end ].

Section Answers.

Variable Date_parse : string -> option Z.
Variable JSON_parse : string -> option JsVal.
Variable ObjectId_cast : string -> option ObjectId.
Variable Filter_cast : QVal -> option (string -> bool).
Variable Cursor_page : Number -> Number -> option (nat * option nat).

#[local] Set Default Proof Using "Type".

(** X13.  Every request that reaches a route handler is answered by that
    handler: whatever the validation, the constructors or the store throw
    is caught, so that no error leaves a handler.  The status is one of
    those of the route ([POST /api/simakohost/send-sms] never answers 500
    from its handler), and a 500 of a handler carries
    [Internal server error] and nothing else.  (What the middleware answers
    before a request reaches a handler, 429 of the limiter or 500 on a
    body that does not parse, is outside the model.) *)
Theorem every_request_is_answered (r : Request) (w : World) :
  exists resp,
    fst (route Date_parse JSON_parse ObjectId_cast
          Filter_cast Cursor_page r w) = Ok resp
    /\ In (status resp) (route_statuses r)
    /\ (status resp = 500 -> resp = internal_error_response).
Proof.
  destruct r; cbn [route route_statuses].
  - eexists. split; [reflexivity|]. split; [now left | discriminate].
  - apply try_catch_answers; [simpl; tauto|].
    returns_only_tac.
  - apply try_catch_answers; [simpl; tauto|].
    cbv zeta. returns_only_tac.
  - apply try_catch_answers; [simpl; tauto|]. returns_only_tac.
  - apply try_catch_answers; [simpl; tauto|]. returns_only_tac.
  - apply try_catch_answers; [simpl; tauto|]. returns_only_tac.
  - eexists. split; [reflexivity|]. split; [now left | discriminate].
  - unfold post_api_simakohost_send_sms, try_catch. cbv zeta.
    destruct (negb (truthy (prop req_body "sim_id"))
              || negb (truthy (prop req_body "to"))
              || negb (truthy (prop req_body "message")))%bool;
      (eexists; split; [reflexivity|]; split; [simpl; tauto | discriminate]).
  - eexists. split; [reflexivity|]. split; [now left | discriminate].
Qed.

(** X14.  The ingestion does not deduplicate.  On a consistent, connected
    store a payload that Joi accepts, sent twice, is stored twice: both
    requests are answered 201, the collection grows by two records with
    the same strings and different ids. *)
Theorem ingest_twice (b : Fields) (w : World) :
  consistent w -> readyState w = 1 ->
  (exists value,
     Joi_validate Date_parse JSON_parse messageValidation b = inr value) ->
  let w1 := snd (post_api_messages Date_parse JSON_parse b w) in
  let w2 := snd (post_api_messages Date_parse JSON_parse b w1) in
  exists m1 m2,
    option_map status (answer (post_api_messages Date_parse JSON_parse b w))
    = Some 201
    /\ option_map status
         (answer (post_api_messages Date_parse JSON_parse b w1))
       = Some 201
    /\ messages w2 = (messages w ++ [m1; m2])%list
    /\ Message._id m1 <> Message._id m2
    /\ Message.sim_id m1 = Message.sim_id m2
    /\ Message.type m1 = Message.type m2
    /\ Message.from m1 = Message.from m2
    /\ Message.to m1 = Message.to m2
    /\ Message.message m1 = Message.message m2.
Proof.
  intros Hc R (value & V) w1 w2.
  destruct (post_api_messages_stores _ _ b value w V Hc R)
    as (m1 & x1 & E1 & M1 & _ & I1 & R1 & ts1 & c1 & P1).
  assert (w1 = x1) as -> by (unfold w1; now rewrite E1).
  assert (consistent x1) as Hc1.
  { pose proof (consistent_run Date_parse JSON_parse no_parse no_cast
                  no_page
                  [Serve (POST_api_messages b)] w Hc) as H.
    cbn [run fold_left step route] in H. now rewrite E1 in H. }
  assert (readyState x1 = 1) as R1' by congruence.
  destruct (post_api_messages_stores _ _ b value x1 V Hc1 R1')
    as (m2 & x2 & E2 & M2 & _ & I2 & _ & ts2 & c2 & P2).
  assert (w2 = x2) as -> by (unfold w2; now rewrite E2).
  destruct (ingested_fields _ _ b value _ ts1 c1 m1 V P1)
    as (A1 & A2 & A3 & A4 & A5).
  destruct (ingested_fields _ _ b value _ ts2 c2 m2 V P2)
    as (B1 & B2 & B3 & B4 & B5).
  exists m1, m2.
  split; [now rewrite E1|]. split; [now rewrite E2|].
  split; [now rewrite M2, M1, <- app_assoc|].
  split.
  { intros E. apply (has_id_absent _ _ (next_oid_is_fresh x1 Hc1)).
    rewrite <- I2, <- E, M1, map_app, in_app_iff. right. now left. }
  rewrite A1 in B1. rewrite A2 in B2. rewrite A3 in B3. rewrite A5 in B5.
  rewrite A4 in B4.
  injection B1 as B1. injection B2 as B2. injection B3 as B3.
  injection B5 as B5.
  repeat (split; [assumption|]).
  split; [|assumption].
  destruct (Message.to m1), (Message.to m2); simpl in B4;
    congruence.
Qed.

End Answers.

(** ** The connection test *)

Section ConnectionTestProperties.

Variable Driver : Type.
Variable connect : string -> Driver -> bool * Driver.
Variable listCollections : Driver -> bool * Driver.
Variable disconnect : Driver -> bool * Driver.

#[local] Set Default Proof Using "Type".

Lemma connections_app (a b : list Call) :
  connections (a ++ b) = (connections a ++ connections b)%list.
Proof.
  clear. induction a as [|[uri| |] a IH]; simpl; now rewrite ?IH.
Qed.

Lemma test_loop_outcome (uris : list string) (d : Driver) :
  loop_outcome uris
    (test_loop Driver connect listCollections disconnect uris d).
Proof.
  revert d. induction uris as [|uri rest IH]; intros d.
  - exists 0%nat. repeat split; try discriminate; try lia. now left.
  - cbn [test_loop].
    assert (forall made d',
              connections made = [uri] ->
              loop_outcome (uri :: rest)
                (let '(found, d'', calls) :=
                   test_loop Driver connect listCollections disconnect rest
                     (after_failure Driver disconnect d') in
                 (found, d'', (made ++ Call_disconnect :: calls)%list)))
      as Later.
    { intros made d' Hmade.
      specialize (IH (after_failure Driver disconnect d')).
      destruct (test_loop Driver connect listCollections disconnect rest
                  (after_failure Driver disconnect d'))
        as [[found d''] calls].
      destruct IH as (n & Hn & Hc & Hnone & Hsome & Hlast).
      exists (S n). split; [simpl; lia|]. split.
      { rewrite connections_app, Hmade. simpl. now rewrite Hc. }
      split; [intros H; simpl; now rewrite (Hnone H)|]. split.
      - intros u Hu. destruct (Hsome u Hu) as (Hnth & H1 & before & ->).
        split; [|split; [lia|]].
        + destruct n as [|n]; [lia | exact Hnth].
        + exists (made ++ Call_disconnect :: before)%list.
          now rewrite <- app_assoc.
      - right. destruct Hlast as [[_ ->] | (before & ->)].
        + now exists made.
        + exists (made ++ Call_disconnect :: before)%list.
          now rewrite <- app_assoc. }
    destruct (connect uri d) as [[|] d1].
    + destruct (listCollections d1) as [[|] d2].
      * destruct (disconnect d2) as [[|] d3].
        -- exists 1%nat. split; [simpl; lia|]. split; [reflexivity|].
           split; [discriminate|]. split.
           ++ intros u [= <-]. split; [reflexivity|]. split; [lia|].
              now exists [].
           ++ right.
              now exists [Call_connect uri; Call_listCollections].
        -- now apply Later.
      * now apply Later.
    + now apply Later.
Qed.

(** X15.  The connection test tries the candidates in their order and
    stops at the first one that works.  The connection strings it has
    passed to [mongoose.connect] are the first [n] of the four candidates;
    when it recommends a URI, that URI is the [n]-th candidate and the
    calls end with its connection, the listing of its collections and its
    disconnection; when it recommends none, all four were tried; in every
    case the last call to the driver is a disconnection. *)
Theorem testConnection_stops_at_first_success (env : option string)
    (d : Driver) :
  let '(found, _, calls) :=
    testConnection Driver connect listCollections disconnect env d in
  exists n,
    (1 <= n <= 4)%nat
    /\ connections calls = firstn n (connectionStrings env)
    /\ (found = None -> n = 4%nat)
    /\ (forall uri, found = Some uri ->
          nth_error (connectionStrings env) (pred n) = Some uri
          /\ exists before,
               calls = (before ++ [Call_connect uri; Call_listCollections;
                                   Call_disconnect])%list)
    /\ exists before, calls = (before ++ [Call_disconnect])%list.
Proof.
  unfold testConnection.
  pose proof (test_loop_outcome (connectionStrings env) d) as H.
  destruct (test_loop Driver connect listCollections disconnect
              (connectionStrings env) d) as [[found d'] calls].
  destruct H as (n & Hn & Hc & Hnone & Hsome & Hlast).
  assert (exists before, calls = (before ++ [Call_disconnect])%list)
    as Last.
  { destruct Hlast as [[H _] | H]; [discriminate | exact H]. }
  exists n. split.
  { split; [|exact Hn]. destruct n; [|lia].
    destruct found as [u|].
    - destruct (Hsome u eq_refl) as (_ & H & _). lia.
    - specialize (Hnone eq_refl). discriminate. }
  split; [exact Hc|]. split; [exact Hnone|]. split; [|exact Last].
  intros u Hu. destruct (Hsome u Hu) as (H1 & _ & H2). now split.
Qed.

End ConnectionTestProperties.

(** ** The further properties at concrete requests *)

Lemma post_api_messages_table_witness :
  consistent world0
  /\ exists m w',
       post_api_messages no_parse no_parse hello_payload world0
       = (Ok (mkResponse 201
                (VObj [("status", VStr "ok");
                       ("message_id", VObjectId (Message._id m));
                       ("received", Message.toJSON m)])),
          w')
       /\ messages w' = (messages world0 ++ [m])%list
       /\ sim_cards w' = sim_cards world0
       /\ ~ In (Message._id m) (map Message._id (messages world0)).
Proof.
  split; [exact consistent_world0|].
  exact (post_api_messages_table no_parse no_parse hello_payload world0
           consistent_world0).
Defined.

Lemma post_api_sim_cards_table_witness :
  consistent world0
  /\ exists sid,
       prop sim001_payload "sim_id" = VStr sid
       /\ exists c w',
            post_api_sim_cards no_parse no_parse sim001_payload world0
            = (Ok (mkResponse 201
                     (VObj [("status", VStr "ok");
                            ("sim_card", SimCard.toJSON c)])),
               w')
            /\ sim_cards w' = (sim_cards world0 ++ [c])%list
            /\ messages w' = messages world0
            /\ SimCard.sim_id c = sid.
Proof.
  split; [exact consistent_world0|].
  exact (post_api_sim_cards_table no_parse no_parse sim001_payload world0
           consistent_world0).
Defined.

Lemma registered_card_fields_witness :
  consistent world0
  /\ sim_cards (snd (post_api_sim_cards no_parse no_parse sim001_payload
                       world0))
     = (sim_cards world0 ++ [sim001_card])%list
  /\ lookup "sim_id" sim001_payload
     = Some (VStr (SimCard.sim_id sim001_card))
  /\ SimCard.is_active sim001_card = true
  /\ SimCard.created_at sim001_card <= SimCard.last_seen sim001_card.
Proof.
  split; [exact consistent_world0|]. split; [reflexivity|].
  destruct (registered_card_fields no_parse no_parse sim001_payload world0
              sim001_card consistent_world0 eq_refl)
    as (H1 & _ & _ & H4 & _ & _ & _ & H8).
  split; [exact H1|]. split; [exact H4 | exact H8].
Defined.

Lemma ingest_then_list_witness :
  consistent world0
  /\ messages world1 = (messages world0 ++ [hello_message])%list
  /\ exists page,
       fst (get_api_messages no_cast no_page [("sim_id", QStr "SIM001")]
              world1)
       = Ok (messages_page page 1)
       /\ In hello_message page.
Proof.
  split; [exact consistent_world0|]. split; [reflexivity|].
  destruct (ingest_then_list no_parse no_parse no_cast no_page
              hello_payload [("sim_id", QStr "SIM001")] world0
              hello_message consistent_world0 eq_refl)
    as (_ & _ & _ & _ & _ & H & _).
  destruct (H _ eq_refl) as (S & _).
  destruct (S eq_refl) as (_ & P).
  destruct (P 100 eq_refl eq_refl eq_refl eq_refl) as (page & H1 & H2 & _).
  exists page. split; [exact H1 | exact H2].
Defined.

Lemma listing_count_witness :
  readyState world1 = 1
  /\ requested_skip [("sim_id", QStr "SIM001"); ("limit", QStr "1")]
     = Finite 0
  /\ requested_limit [("sim_id", QStr "SIM001"); ("limit", QStr "1")]
     = Finite 1
  /\ exists r,
       fst (get_api_messages no_cast no_page
              [("sim_id", QStr "SIM001"); ("limit", QStr "1")] world1)
       = Ok r
       /\ status r = 200
       /\ field r "total" = VNum 1
       /\ field r "count" = VNum 1.
Proof.
  split; [reflexivity|]. split; [reflexivity|]. split; [reflexivity|].
  exact (listing_count no_cast no_page
           [("sim_id", QStr "SIM001"); ("limit", QStr "1")] world1 _ 0 1
           eq_refl eq_refl eq_refl (conj (Z.le_refl 0) eq_refl) eq_refl
           (conj eq_refl eq_refl)).
Defined.

Lemma pages_tile_witness :
  readyState world_hello_first = 1
  /\ NoDup (map Message.timestamp (messages world_hello_first))
  /\ exists p1 p2 total,
       fst (get_api_messages no_cast no_page [("limit", QStr "1")]
              world_hello_first)
       = Ok (messages_page p1 total)
       /\ fst (get_api_messages no_cast no_page
                 [("skip", QStr "1"); ("limit", QStr "1")]
                 world_hello_first)
          = Ok (messages_page p2 total)
       /\ fst (get_api_messages no_cast no_page [("limit", QStr "2")]
                 world_hello_first)
          = Ok (messages_page (p1 ++ p2) total).
Proof.
  assert (NoDup (map Message.timestamp (messages world_hello_first))) as N.
  { constructor.
    - intros [H | []]. discriminate.
    - constructor; [intros [] | constructor]. }
  split; [reflexivity|]. split; [exact N|].
  destruct (pages_tile no_cast no_page [("limit", QStr "1")]
              [("skip", QStr "1"); ("limit", QStr "1")]
              [("limit", QStr "2")] world_hello_first _ 0 1 1
              eq_refl N eq_refl eq_refl eq_refl eq_refl eq_refl
              (Z.le_refl 0) Z.lt_0_1 Z.lt_0_1 eq_refl
              eq_refl eq_refl eq_refl eq_refl eq_refl eq_refl)
    as (p1 & p2 & total & H1 & H2 & H3 & _).
  exists p1, p2, total. split; [exact H1|]. split; [exact H2 | exact H3].
Defined.

Lemma listing_ignores_insertion_order_witness :
  Permutation (messages world_hello_first) (messages world_call_first)
  /\ NoDup (map Message.timestamp (messages world_hello_first))
  /\ fst (get_api_messages no_cast no_page [] world_hello_first)
     = fst (get_api_messages no_cast no_page [] world_call_first).
Proof.
  assert (NoDup (map Message.timestamp (messages world_hello_first))) as N.
  { constructor.
    - intros [H | []]. discriminate.
    - constructor; [intros [] | constructor]. }
  split; [apply perm_swap|]. split; [exact N|].
  exact (listing_ignores_insertion_order no_cast no_page []
           world_hello_first world_call_first eq_refl
           (perm_swap missed_call hello_message []) N).
Defined.

Lemma mark_then_list_witness :
  consistent world1 /\ readyState world1 = 1 /\ hex24 id0 = Some 0%N
  /\ messages world2 = map (marked 0%N 1700000000002) (messages world1).
Proof.
  split; [exact consistent_world1|]. split; [reflexivity|].
  split; [reflexivity|].
  exact (proj1 (mark_then_list hex24 no_cast no_page id0 0%N [] world1
                  consistent_world1 eq_refl eq_refl)).
Defined.

Lemma processed_after_created_witness :
  consistent world0 /\ chronological world0
  /\ chronological
       (run no_parse no_parse hex24 no_cast no_page
          [Serve (POST_api_messages hello_payload);
           Serve (PUT_api_messages_processed id0)] world0).
Proof.
  assert (chronological world0) as C by (intros m t []).
  split; [exact consistent_world0|]. split; [exact C|].
  exact (processed_after_created no_parse no_parse hex24
        no_cast no_page _ world0
           consistent_world0 C).
Defined.

Lemma stored_messages_valid_witness :
  consistent world0 /\ stored_valid world0
  /\ stored_valid
       (run no_parse no_parse hex24 no_cast no_page
          [Serve (POST_api_messages hello_payload);
           Serve (POST_api_messages call_payload);
           Serve (PUT_api_messages_processed id0)] world0).
Proof.
  assert (stored_valid world0) as V by (intros m []).
  split; [exact consistent_world0|]. split; [exact V|].
  exact (stored_messages_valid no_parse no_parse hex24 no_cast no_page _ world0
           consistent_world0 V).
Defined.

Lemma every_request_is_answered_witness :
  exists resp,
    fst (route no_parse no_parse hex24
          no_cast no_page (PUT_api_messages_processed "abc")
           world0) = Ok resp
    /\ In (status resp) [200; 404; 500]
    /\ (status resp = 500 -> resp = internal_error_response).
Proof.
  exact (every_request_is_answered no_parse no_parse hex24 no_cast no_page
           (PUT_api_messages_processed "abc") world0).
Defined.

Lemma ingest_twice_witness :
  consistent world0 /\ readyState world0 = 1
  /\ Joi_validate no_parse no_parse messageValidation hello_payload
     = inr hello_payload
  /\ exists m1 m2,
       messages (snd (post_api_messages no_parse no_parse hello_payload
                        world1))
       = (messages world0 ++ [m1; m2])%list
       /\ Message._id m1 <> Message._id m2
       /\ Message.message m1 = Message.message m2.
Proof.
  split; [exact consistent_world0|]. split; [reflexivity|].
  split; [reflexivity|].
  destruct (ingest_twice no_parse no_parse hello_payload world0
              consistent_world0 eq_refl (ex_intro _ hello_payload eq_refl))
    as (m1 & m2 & _ & _ & H1 & H2 & _ & _ & _ & _ & H3).
  exists m1, m2. split; [exact H1|]. split; [exact H2 | exact H3].
Defined.

Lemma testConnection_stops_at_first_success_witness :
  exists n,
    (1 <= n <= 4)%nat
    /\ connections
         (snd (testConnection nat loopback_connect counted_call counted_call
                 None 0%nat))
       = firstn n (connectionStrings None)
    /\ fst (fst (testConnection nat loopback_connect counted_call
                   counted_call None 0%nat))
       = Some "mongodb://127.0.0.1:27017/simako_db".
Proof.
  pose proof (testConnection_stops_at_first_success nat loopback_connect
                counted_call counted_call None 0%nat) as H.
  destruct (testConnection nat loopback_connect counted_call counted_call
              None 0%nat) as [[found d] calls] eqn:E.
  destruct H as (n & H1 & H2 & _).
  exists n. split; [exact H1|]. split; [exact H2|].
  cbn [fst]. now injection E as <- _ _.
Defined.
